(** * BatchMatMul: a shallow embedding of
    [tensorflow/core/kernels/batch_matmul_op.cc]

    The development follows the layout of the source file:

    - scalar kinds ([Scalar], [Eigen::NumTraits<Scalar>::IsComplex]);
    - dense row-major tensors ([Tensor], [TensorShape]) and the lazily
      evaluated rank-2 Eigen expressions the kernels build ([chip],
      [conjugate], [contract]);
    - the two specialisations of [InnerBatchMatMulKernel];
    - [LaunchBatchMatMul<CPUDevice, Scalar>::Launch];
    - [CublasScratchAllocator] and
      [LaunchBatchMatMul<GPUDevice, Scalar>::Launch];
    - [BatchMatMul::Compute].

    Conventions.  Dimension sizes are [int64] values that [TensorShape]
    keeps non-negative; they are modelled as [nat].  Values of type [int]
    whose sign or width matters (thread counts, the [start]/[limit] of a
    shard) are [Z], and every narrowing conversion from [int64] to [int] is
    written out as [to_int].  Signed overflow of [int64] products is
    undefined in the source, so products are the mathematical ones.  A
    buffer is a [list] of scalars; a write outside it leaves it unchanged,
    a read outside it yields [scalar_zero] and a negative chip index is
    read as 0 (all three are undefined in the source and never happen for
    the inputs the theorems range over).

    Scalars are any type with a zero, a sum, a product and a conjugation;
    a contraction adds its terms in the order of the contracted index.
    Rounding, and the order in which Eigen adds the terms of a
    floating-point contraction on one device or the other, are outside
    the model.

    The calls a kernel makes to its collaborators (the allocator, the
    work sharder, Eigen's devices, the BLAS runtime) are recorded, in
    order, in a trace that is carried along with the output buffer. *)

From stdpp Require Import base numbers list strings.

(** ** Scalar kinds *)

(** The operations a kernel uses on the element type.  [IsComplex] is
    [Eigen::NumTraits<Scalar>::IsComplex]; it selects the kernel
    specialisation. *)
Class ScalarKind (T : Type) : Type := {
  scalar_zero : T;
  scalar_add : T → T → T;
  scalar_mul : T → T → T;
  scalar_conj : T → T;
  IsComplex : bool
}.

(** What the proofs need of a kind: conjugation is an involution that
    commutes with sums and products.  No associativity or commutativity
    is assumed, and nothing at all is needed of a real kind, whose kernel
    never conjugates. *)
Class ScalarLaws (T : Type) `{ScalarKind T} : Prop := {
  conj_zero : scalar_conj scalar_zero = scalar_zero;
  conj_add a b :
    scalar_conj (scalar_add a b) = scalar_add (scalar_conj a) (scalar_conj b);
  conj_mul a b :
    scalar_conj (scalar_mul a b) = scalar_mul (scalar_conj a) (scalar_conj b);
  conj_conj a : scalar_conj (scalar_conj a) = a
}.

(** [int32] with two's-complement wrap-around, one of the registered real
    kinds. *)
Definition wrap32 (z : Z) : Z := ((z + 2 ^ 31) `mod` 2 ^ 32 - 2 ^ 31)%Z.

Record int32 := Int32 { int32_val : Z }.

#[export] Instance int32_kind : ScalarKind int32 := {|
  scalar_zero := Int32 0;
  scalar_add a b := Int32 (wrap32 (int32_val a + int32_val b));
  scalar_mul a b := Int32 (wrap32 (int32_val a * int32_val b));
  scalar_conj a := a;
  IsComplex := false
|}.

(** A complex kind with exact components (Gaussian integers).  It stands
    for [complex64]/[complex128] wherever rounding plays no role. *)
Record cplx := Cplx { re : Z; im : Z }.

#[export] Instance cplx_kind : ScalarKind cplx := {|
  scalar_zero := Cplx 0 0;
  scalar_add a b := Cplx (re a + re b) (im a + im b);
  scalar_mul a b :=
    Cplx (re a * re b - im a * im b) (re a * im b + im a * re b);
  scalar_conj a := Cplx (re a) (- im a);
  IsComplex := true
|}.

(** ** Integer conversions *)

(** Conversion of an [int64] to [int]. *)
Definition to_int (z : Z) : Z := wrap32 z.

Definition INT_MAX : Z := (2 ^ 31 - 1)%Z.

(** ** Tensors *)

Abbreviation TensorShape := (list nat) (only parsing).

(** [TensorShape::num_elements]. *)
Definition num_elements (s : TensorShape) : nat := foldr Nat.mul 1 s.

(** A tensor: its shape and its row-major buffer. *)
Record Tensor (T : Type) := MkTensor { shape : TensorShape; flat : list T }.
Arguments MkTensor {T} _ _.
Arguments shape {T} _.
Arguments flat {T} _.

Section tensors.
Context {T : Type}.

(** [Tensor::dims]. *)
Definition dims (t : Tensor T) : nat := length (shape t).

Definition shape_dim (s : TensorShape) (i : nat) : nat := nth i s 0.

(** [Tensor::dim_size]. *)
Definition dim_size (t : Tensor T) (i : nat) : nat := shape_dim (shape t) i.

(** [Tensor::NumElements]. *)
Definition NumElements (t : Tensor T) : nat := num_elements (shape t).

(** [Tensor::CopyFrom(other, shape)]: the new tensor shares [other]'s
    buffer under another shape; it fails, returning [false], when the
    element counts differ. *)
Definition CopyFrom (other : Tensor T) (s : TensorShape) : option (Tensor T) :=
  if decide (num_elements (shape other) = num_elements s)
  then Some (MkTensor s (flat other))
  else None.
End tensors.

(** ** Eigen expressions of rank 2 *)

(** An unevaluated expression: its two dimensions and its coefficients. *)
Record Expr2 (T : Type) := MkExpr2 {
  e_rows : nat;
  e_cols : nat;
  coeff : nat → nat → T
}.
Arguments MkExpr2 {T} _ _ _.
Arguments e_rows {T} _.
Arguments e_cols {T} _.
Arguments coeff {T} _ _ _.

Section eigen.
Context {T : Type} `{!ScalarKind T}.

Definition read (buf : list T) (j : nat) : T := default scalar_zero (buf !! j).

(** [t.chip<0>(i)] of a rank-3 row-major tensor map with dimensions
    [d1], [d2] after the batch dimension. *)
Definition chip (buf : list T) (d1 d2 : nat) (i : nat) : Expr2 T :=
  MkExpr2 d1 d2 (λ p q, read buf (i * d1 * d2 + p * d2 + q)).

Definition chip_of (t : Tensor T) (i : nat) : Expr2 T :=
  chip (flat t) (dim_size t 1) (dim_size t 2) i.

(** [e.conjugate()]. *)
Definition conjugate (e : Expr2 T) : Expr2 T :=
  MkExpr2 (e_rows e) (e_cols e) (λ p q, scalar_conj (coeff e p q)).

Definition dimension (e : Expr2 T) (axis : nat) : nat :=
  match axis with 0 => e_rows e | _ => e_cols e end.

(** The coefficient whose index along [axis] is [k] and whose other
    index is [o]. *)
Definition coeff_along (e : Expr2 T) (axis : nat) (k o : nat) : T :=
  match axis with 0 => coeff e k o | _ => coeff e o k end.

(** [Σ_{k < n} f k], accumulated from [k = 0] upwards. *)
Definition sum_upto (n : nat) (f : nat → T) : T :=
  foldl (λ acc k, scalar_add acc (f k)) scalar_zero (seq 0 n).

(** [x.contract(y, {IndexPair(a, b)})]: the free axis of [x] indexes the
    rows of the result, the free axis of [y] its columns. *)
Definition contract (x y : Expr2 T) (pair : nat * nat) : Expr2 T :=
  let '(a, b) := pair in
  MkExpr2 (dimension x (1 - a)) (dimension y (1 - b))
    (λ p q, sum_upto (dimension x a)
              (λ k, scalar_mul (coeff_along x a k p) (coeff_along y b k q))).

(** The coefficients of an expression in row-major order, as an
    assignment evaluates them. *)
Definition eval (e : Expr2 T) : list T :=
  (λ j, coeff e (j `div` e_cols e) (j `mod` e_cols e)) <$>
    seq 0 (e_rows e * e_cols e).
End eigen.

(** ** Statuses *)

(** The arguments of [errors::InvalidArgument(...)] and
    [errors::Internal(...)], kept apart instead of concatenated: the
    rendering of a shape ([DebugString]) and of a number is not part of
    the sources. *)
Inductive Piece :=
  | PStr (s : string)
  | PInt (z : Z)
  | PShape (s : TensorShape)
  | PBool (b : bool).

Inductive Code := INVALID_ARGUMENT | INTERNAL | RESOURCE_EXHAUSTED | UNKNOWN.

Inductive Status := OK | Error (c : Code) (msg : list Piece).

Definition InvalidArgument (msg : list Piece) : Status := Error INVALID_ARGUMENT msg.
Definition Internal (msg : list Piece) : Status := Error INTERNAL msg.

Definition ok (s : Status) : bool := match s with OK => true | Error _ _ => false end.

Inductive StatusOr (A : Type) := StatusOrValue (a : A) | StatusOrError (s : Status).
Arguments StatusOrValue {A} _.
Arguments StatusOrError {A} _.

(** ** Device memory and the batched GEMM call *)

Inductive Transpose := kNoTranspose | kTranspose | kConjugateTranspose.

(** A device address: null, an element offset into one of the three
    tensors of the call, or the start of a temporary tensor. *)
Inductive Ptr :=
  | nullptr
  | InX (offset : nat)
  | InY (offset : nat)
  | InOut (offset : nat)
  | InTemp (id : nat).

(** [perftools::gputools::DeviceMemory]: an address and a byte size. *)
Record DeviceMemory := MkDeviceMemory { opaque : Ptr; size : Z }.

(** [AsDeviceMemory(ptr)]: a [DeviceMemoryBase] built from the address
    alone has size 0. *)
Definition AsDeviceMemory (p : Ptr) : DeviceMemory := MkDeviceMemory p 0.

Definition MakeFromByteSize (p : Ptr) (bytes : Z) : DeviceMemory := MkDeviceMemory p bytes.

(** The arguments of [ThenBlasGemmBatchedWithScratch], in the order of the
    call; [alpha = 1] and [beta = 0] are constants of the source. *)
Record GemmCall := MkGemmCall {
  transa : Transpose;
  transb : Transpose;
  gemm_m : nat;
  gemm_n : nat;
  gemm_k : nat;
  gemm_a : list DeviceMemory;
  lda : nat;
  gemm_b : list DeviceMemory;
  ldb : nat;
  gemm_c : list DeviceMemory;
  ldc : nat;
  batch_count : nat
}.

(** ** The store *)

Inductive EigenDevice := DefaultDevice | ThreadPoolDevice.

(** What a kernel does to its collaborators, in order. *)
Inductive Event :=
  | EvAllocateOutput (s : TensorShape)
  | EvSetZero
  | EvContract (d : EigenDevice) (unit : Z)
  | EvConjugate
  | EvShard (max_parallelism : Z) (total : nat) (cost_per_unit : Z)
  | EvAllocateTemp (byte_size : Z)
  | EvGemm (call : GemmCall).

(** The memory of the output tensor, shared by every view of it, and the
    trace of the calls made so far. *)
Record Store (T : Type) := MkStore { buf : list T; trace : list Event }.
Arguments MkStore {T} _ _.
Arguments buf {T} _.
Arguments trace {T} _.

(** The view [TTypes<Scalar, 3>::Tensor] of the output: its shape; the
    storage is the store's buffer. *)
Abbreviation OutView := (list nat) (only parsing).

(** Modelled from the spec: [Shard] of [util/work_sharder.h] and the
    worker pool are not part of the sources.  The context of a CPU launch
    holds the size of the pool and the sharder, "a thread-pool
    work-sharder that splits an integer range into contiguous shards
    given a target concurrency and a per-unit cost":
    [shard_plan max_parallelism total cost_per_unit] is the list of
    [(start, limit)] pairs, of type [int64], that it hands to [work], in
    the order in which the calls take effect. *)
Record CpuContext := MkCpuContext {
  num_threads : Z;
  shard_plan : Z → nat → Z → list (Z * Z)
}.

(** ** InnerBatchMatMulKernel *)

Section kernels.
Context {T : Type} `{!ScalarKind T}.

(** [z.device(d) = x.contract(y, contract_pairs)] with [z] the chip [i]
    of the output view. *)
Definition assign_chip (Tz : OutView) (i : nat) (e : Expr2 T) (b : list T) : list T :=
  list_inserts (i * shape_dim Tz 1 * shape_dim Tz 2) (eval e) b.

End kernels.

(** The specialisation for complex kinds ([IsComplex = true]). *)
Module InnerBatchMatMulKernel.
Section complex.
Context {T : Type} `{!ScalarKind T}.

Definition Contract (d : EigenDevice) (x y : Expr2 T) (Tz : OutView) (i : Z)
    (pairs : nat * nat) (st : Store T) : Store T :=
  MkStore (assign_chip Tz (Z.to_nat i) (contract x y pairs) (buf st))
          (trace st ++ [EvContract d i]).

(** [z.device(d) = z.conjugate()] over the whole output. *)
Definition Conjugate (st : Store T) : Store T :=
  MkStore (scalar_conj <$> buf st) (trace st ++ [EvConjugate]).

(** The local [contract_pairs] of [Run]. *)
Definition contract_pairs (adj_x adj_y : bool) : nat * nat :=
  if negb adj_x && negb adj_y then (1, 0)
  else if adj_x && adj_y then (0, 1)
  else if negb adj_x && adj_y then (1, 1)
  else (0, 0).

Definition Run (parallelize_inner : bool) (Tx Ty : Tensor T)
    (adj_x adj_y : bool) (Tz : OutView) (start limit : Z) (st : Store T) : Store T :=
  let pairs := contract_pairs adj_x adj_y in
  foldl (λ st i,
      let x := chip_of Tx (Z.to_nat i) in
      if negb (eqb adj_x adj_y) then
        let y := conjugate (chip_of Ty (Z.to_nat i)) in
        if parallelize_inner
        then Contract ThreadPoolDevice x y Tz i pairs st
        else Contract DefaultDevice x y Tz i pairs st
      else
        let y := chip_of Ty (Z.to_nat i) in
        if parallelize_inner
        then Contract ThreadPoolDevice x y Tz i pairs st
        else Contract DefaultDevice x y Tz i pairs st)
    st (seqZ start (limit - start)).
End complex.
End InnerBatchMatMulKernel.

(** The specialisation for real kinds ([IsComplex = false]). *)
Module InnerBatchMatMulKernelReal.
Section real.
Context {T : Type} `{!ScalarKind T}.

Definition Contract (d : EigenDevice) (x y : Expr2 T) (Tz : OutView) (i : Z)
    (pairs : nat * nat) (st : Store T) : Store T :=
  MkStore (assign_chip Tz (Z.to_nat i) (contract x y pairs) (buf st))
          (trace st ++ [EvContract d i]).

(** The body of [Conjugate] is empty. *)
Definition Conjugate (st : Store T) : Store T := st.

(** The local [contract_pairs] of [Run]. *)
Definition contract_pairs (adj_x adj_y : bool) : nat * nat :=
  if negb adj_x && negb adj_y then (1, 0)
  else if adj_x && adj_y then (0, 1)
  else if negb adj_x && adj_y then (1, 1)
  else (0, 0).

Definition Run (parallelize_inner : bool) (Tx Ty : Tensor T)
    (adj_x adj_y : bool) (Tz : OutView) (start limit : Z) (st : Store T) : Store T :=
  let pairs := contract_pairs adj_x adj_y in
  foldl (λ st i,
      let x := chip_of Tx (Z.to_nat i) in
      let y := chip_of Ty (Z.to_nat i) in
      if parallelize_inner
      then Contract ThreadPoolDevice x y Tz i pairs st
      else Contract DefaultDevice x y Tz i pairs st)
    st (seqZ start (limit - start)).
End real.
End InnerBatchMatMulKernelReal.

(** ** LaunchBatchMatMul<CPUDevice, Scalar> *)

Module LaunchBatchMatMulCPU.
Section launch.
Context {T : Type} `{!ScalarKind T}.

(** [typedef InnerBatchMatMulKernel<In, Out, NumTraits<Scalar>::IsComplex>
    Kernel]. *)
Definition Kernel_Run : bool → Tensor T → Tensor T → bool → bool → OutView →
    Z → Z → Store T → Store T :=
  if IsComplex then InnerBatchMatMulKernel.Run
  else InnerBatchMatMulKernelReal.Run.

Definition Kernel_Conjugate : Store T → Store T :=
  if IsComplex then InnerBatchMatMulKernel.Conjugate
  else InnerBatchMatMulKernelReal.Conjugate.

(** Modelled from the spec: [Shard(max_parallelism, workers, total,
    cost_per_unit, work)] of [util/work_sharder.h] is not part of the
    sources.  "The work-sharder partitions [0, N) into contiguous shards
    [...] and dispatches each shard to a worker": the call is recorded
    and [work] runs once per shard of the context's plan. *)
Definition Shard (ctx : CpuContext) (max_parallelism : Z)
    (total : nat) (cost_per_unit : Z) (work : Z → Z → Store T → Store T)
    (st : Store T) : Store T :=
  foldl (λ st r, work r.1 r.2 st)
    (MkStore (buf st) (trace st ++ [EvShard max_parallelism total cost_per_unit]))
    (shard_plan ctx max_parallelism total cost_per_unit).

Definition kMaxCostOuterParallelism : Z := 128 * 256 * 256.

(** [in_x.dim_size(1) * in_x.dim_size(2) * out->dim_size(2)], an
    [int64]. *)
Definition cost_per_unit (in_x : Tensor T) (out : OutView) : Z :=
  (Z.of_nat (dim_size in_x 1) * Z.of_nat (dim_size in_x 2) *
   Z.of_nat (shape_dim out 2))%Z.

(** The condition of the first branch of [Launch]. *)
Definition sequential_branch (in_x : Tensor T) (out : OutView) : bool :=
  bool_decide (dim_size in_x 0 = 1) ||
  (bool_decide (kMaxCostOuterParallelism < cost_per_unit in_x out)%Z &&
   bool_decide (1 < shape_dim out 2)).

Definition Launch (ctx : CpuContext) (in_x in_y : Tensor T)
    (adj_x adj_y : bool) (out : OutView) (st : Store T) : Store T :=
  let Tx := in_x in
  let Ty := in_y in
  let Tz := out in
  let num_units := dim_size in_x 0 in
  let cost_per_unit := cost_per_unit in_x out in
  let parallelize_inner := true in
  let st :=
    if bool_decide (num_units = 1) ||
       (bool_decide (kMaxCostOuterParallelism < cost_per_unit)%Z &&
        bool_decide (1 < shape_dim out 2))
    then
      Kernel_Run parallelize_inner Tx Ty adj_x adj_y Tz 0
        (to_int (Z.of_nat num_units)) st
    else
      let num_threads := num_threads ctx in
      let parallelize_inner :=
        bool_decide (Z.of_nat num_units < num_threads)%Z &&
        bool_decide (1 < shape_dim out 2) in
      let num_outer_threads :=
        if parallelize_inner then Z.max 1 (num_threads - 1) else num_threads in
      Shard ctx num_outer_threads num_units cost_per_unit
        (λ start limit,
           Kernel_Run parallelize_inner Tx Ty adj_x adj_y Tz
             (to_int start) (to_int limit))
        st in
  if adj_x then Kernel_Conjugate st else st.
End launch.
End LaunchBatchMatMulCPU.

(** ** The kernel context *)

(** A temporary tensor of [DT_UINT8]: its storage and its byte size. *)
Record TempTensor := MkTempTensor { temp_id : nat; temp_bytes : Z }.

(** Modelled from the spec: the GPU stream and its BLAS runtime
    ([platform/stream_executor.h]) are not part of the sources.  "A GPU
    stream handle exposing a batched-GEMM primitive": for a call, the
    scratch requests it makes of the allocator, whether the launch is
    accepted given what the allocator returned, and what the device
    writes to the output. *)
Record Stream (T : Type) := MkStream {
  scratch_requests : GemmCall → list Z;
  launch_accepted : GemmCall → list (StatusOr DeviceMemory) → bool;
  device_result : GemmCall → list T → list T → list T → list T
}.
Arguments MkStream {T} _ _ _.
Arguments scratch_requests {T} _ _.
Arguments launch_accepted {T} _ _ _.
Arguments device_result {T} _ _ _ _ _.

(** [OpKernelContext]: the two inputs and the collaborators of the call.
    [allocate_output] and [allocate_temp] return an error status or the
    fresh storage; [allocate_temp] sees the temporaries allocated so
    far. *)
Record OpKernelContext (T : Type) := MkContext {
  input0 : Tensor T;
  input1 : Tensor T;
  allocate_output : TensorShape → Status + list T;
  allocate_temp : list TempTensor → Z → Status + TempTensor;
  cpu : CpuContext;
  stream : option (Stream T)
}.
Arguments MkContext {T} _ _ _ _ _ _.
Arguments input0 {T} _.
Arguments input1 {T} _.
Arguments allocate_output {T} _ _.
Arguments allocate_temp {T} _ _ _.
Arguments cpu {T} _.
Arguments stream {T} _.

(** The mutable part of the context: the status, the shape of the
    allocated output, and the store that holds its buffer. *)
Record KernelState (T : Type) := MkState {
  status : Status;
  output : option TensorShape;
  store : Store T
}.
Arguments MkState {T} _ _ _.
Arguments status {T} _.
Arguments output {T} _.
Arguments store {T} _.

Section context.
Context {T : Type}.

(** [OpKernelContext::SetStatus]: the first error is kept. *)
Definition SetStatus (s : Status) (st : KernelState T) : KernelState T :=
  MkState (if ok (status st) then s else status st) (output st) (store st).

Definition record (e : Event) (s : Store T) : Store T :=
  MkStore (buf s) (trace s ++ [e]).

Definition with_store (f : Store T → Store T) (st : KernelState T) : KernelState T :=
  MkState (status st) (output st) (f (store st)).

Definition initial_state : KernelState T := MkState OK None (MkStore [] []).
End context.

(** ** CublasScratchAllocator and LaunchBatchMatMul<GPUDevice, Scalar> *)

Record CublasScratchAllocator := MkAllocator { allocated_tensors_ : list TempTensor }.

Module LaunchBatchMatMulGPU.
Section launch.
Context {T : Type} `{!ScalarKind T}.

Definition GetMemoryLimitInBytes (self : CublasScratchAllocator) : Z := (-1)%Z.

(** [CublasScratchAllocator::AllocateBytes]: the value returned, the
    allocator afterwards and the call it made. *)
Definition AllocateBytes (context_ : OpKernelContext T) (byte_size : Z)
    (self : CublasScratchAllocator) (tr : list Event) :
    StatusOr DeviceMemory * CublasScratchAllocator * list Event :=
  let tr := tr ++ [EvAllocateTemp byte_size] in
  match allocate_temp context_ (allocated_tensors_ self) byte_size with
  | inl allocation_status =>
      (StatusOrValue (MakeFromByteSize nullptr 0), self, tr)
  | inr temporary_memory =>
      (StatusOrValue
         (MakeFromByteSize (InTemp (temp_id temporary_memory))
            (temp_bytes temporary_memory)),
       MkAllocator (allocated_tensors_ self ++ [temporary_memory]), tr)
  end.

(** Modelled from the spec: how the BLAS runtime uses the scratch
    allocator is not part of the sources.  It asks [AllocateBytes] for
    each of its requests in turn and collects the answers. *)
Definition serve_requests (context : OpKernelContext T) (requests : list Z)
    (scratch_allocator : CublasScratchAllocator) (tr : list Event) :
    list (StatusOr DeviceMemory) * CublasScratchAllocator * list Event :=
  foldl (λ acc byte_size,
           let r := AllocateBytes context byte_size acc.1.2 acc.2 in
           (acc.1.1 ++ [r.1.1], r.1.2, r.2))
    ([], scratch_allocator, tr) requests.

(** Modelled from the spec: [Stream::ThenBlasGemmBatchedWithScratch] is
    not part of the sources.  The runtime is handed the call, serves its
    scratch requests from the allocator and then accepts or rejects the
    launch; an accepted launch writes the device's result. *)
Definition ThenBlasGemmBatchedWithScratch (s : Stream T)
    (context : OpKernelContext T) (call : GemmCall) (a b : list T)
    (scratch_allocator : CublasScratchAllocator) (st : Store T) :
    bool * CublasScratchAllocator * Store T :=
  let served :=
    serve_requests context (scratch_requests s call) scratch_allocator
      (trace st ++ [EvGemm call]) in
  let accepted := launch_accepted s call served.1.1 in
  (accepted, served.1.2,
   MkStore (if accepted then device_result s call a b (buf st) else buf st)
     served.2).

(** The first half of [Launch]: the dimensions, the transposition
    flags and the three arrays of device pointers, put together as the
    arguments of the call. *)
Definition blas_call (in_x in_y : Tensor T) (adj_x adj_y : bool) : GemmCall :=
  let kTranspose' := if IsComplex then kConjugateTranspose else kTranspose in
  let trans (b : bool) := if b then kTranspose' else kNoTranspose in
  let m := dim_size in_x (if adj_x then 2 else 1) in
  let k := dim_size in_x (if adj_x then 1 else 2) in
  let n := dim_size in_y (if adj_y then 1 else 2) in
  let batch_size := dim_size in_x 0 in
  let blas_transpose_a := trans adj_x in
  let blas_transpose_b := trans adj_y in
  let a_ptrs := (λ i, AsDeviceMemory (InX (i * m * k))) <$> seq 0 batch_size in
  let b_ptrs := (λ i, AsDeviceMemory (InY (i * k * n))) <$> seq 0 batch_size in
  let c_ptrs := (λ i, AsDeviceMemory (InOut (i * m * n))) <$> seq 0 batch_size in
  MkGemmCall blas_transpose_b blas_transpose_a n m k
    b_ptrs (if adj_y then k else n) a_ptrs (if adj_x then m else k)
    c_ptrs n batch_size.

Definition Launch (context : OpKernelContext T) (in_x in_y : Tensor T)
    (adj_x adj_y : bool) (out : OutView) (st : KernelState T) : KernelState T :=
  let m := dim_size in_x (if adj_x then 2 else 1) in
  let k := dim_size in_x (if adj_x then 1 else 2) in
  let n := dim_size in_y (if adj_y then 1 else 2) in
  let batch_size := dim_size in_x 0 in
  match stream context with
  | None => SetStatus (Internal [PStr "No GPU stream available."]) st
  | Some stream =>
      let scratch_allocator := MkAllocator [] in
      let r :=
        ThenBlasGemmBatchedWithScratch stream context
          (blas_call in_x in_y adj_x adj_y)
          (flat in_x) (flat in_y) scratch_allocator (store st) in
      let blas_launch_status := r.1.1 in
      let st := MkState (status st) (output st) r.2 in
      if negb blas_launch_status then
        SetStatus
          (Internal
             [PStr "Blas SGEMMBatched launch failed : a.shape=";
              PShape (shape in_x); PStr ", b.shape="; PShape (shape in_y);
              PStr ", m="; PInt (Z.of_nat m); PStr ", n="; PInt (Z.of_nat n);
              PStr ", k="; PInt (Z.of_nat k);
              PStr ", batch_size="; PInt (Z.of_nat batch_size)])
          st
      else st
  end.
End launch.
End LaunchBatchMatMulGPU.

(** ** BatchMatMul *)

Inductive Device := CPUDevice | GPUDevice.

(** How [Compute] ends: it returns, or a [CHECK] fails and the process
    aborts. *)
Inductive Outcome (T : Type) := Returned (st : KernelState T) | CheckFailed.
Arguments Returned {T} _.
Arguments CheckFailed {T}.

Module BatchMatMul.
Section compute.
Context {T : Type} `{!ScalarKind T}.

(** [LaunchBatchMatMul<Device, Scalar>::Launch]. *)
Definition LaunchBatchMatMul (d : Device) (ctx : OpKernelContext T)
    (in_x in_y : Tensor T) (adj_x adj_y : bool) (out : OutView)
    (st : KernelState T) : KernelState T :=
  match d with
  | CPUDevice =>
      with_store (LaunchBatchMatMulCPU.Launch (cpu ctx) in_x in_y adj_x adj_y out) st
  | GPUDevice => LaunchBatchMatMulGPU.Launch ctx in_x in_y adj_x adj_y out st
  end.

(** [functor::SetZeroFunctor<Device, Scalar>] on [out->flat<Scalar>()]. *)
Definition SetZeroFunctor (s : Store T) : Store T :=
  MkStore ((λ _, scalar_zero) <$> buf s) (trace s ++ [EvSetZero]).

(** The loop over the leading dimensions: [i] is the loop variable,
    [count] the iterations left, [out_shape] the shape built so far. *)
Fixpoint batch_dims (in0 in1 : Tensor T) (i count : nat)
    (out_shape : TensorShape) : Status + TensorShape :=
  match count with
  | 0 => inr out_shape
  | S count =>
      if decide (dim_size in0 i = dim_size in1 i) then
        batch_dims in0 in1 (S i) count (out_shape ++ [dim_size in0 i])
      else
        inl (InvalidArgument
               [PStr "In[0].dim("; PInt (Z.of_nat i); PStr ") and In[1].dim(";
                PInt (Z.of_nat i); PStr ") must be the same: ";
                PShape (shape in0); PStr " vs "; PShape (shape in1)])
  end.

Definition Compute (d : Device) (ctx : OpKernelContext T)
    (adj_x_ adj_y_ : bool) : Outcome T :=
  let st := initial_state in
  let in0 := input0 ctx in
  let in1 := input1 ctx in
  if negb (bool_decide (dims in0 = dims in1)) then
    Returned (SetStatus
      (InvalidArgument
         [PStr "In[0] and In[1] has different ndims: "; PShape (shape in0);
          PStr " vs. "; PShape (shape in1)]) st)
  else
  let ndims := dims in0 in
  if negb (bool_decide (2 ≤ ndims)) then
    Returned (SetStatus
      (InvalidArgument
         [PStr "In[0] and In[1] ndims must be >= 2: "; PInt (Z.of_nat ndims)]) st)
  else
  match batch_dims in0 in1 0 (ndims - 2) [] with
  | inl e => Returned (SetStatus e st)
  | inr out_shape =>
  let n := if bool_decide (ndims = 2) then 1 else num_elements out_shape in
  let d0 := dim_size in0 (ndims - 2) in
  let d1 := dim_size in0 (ndims - 1) in
  match CopyFrom in0 [n; d0; d1] with
  | None => CheckFailed
  | Some in0_reshaped =>
  let d2 := dim_size in1 (ndims - 2) in
  let d3 := dim_size in1 (ndims - 1) in
  match CopyFrom in1 [n; d2; d3] with
  | None => CheckFailed
  | Some in1_reshaped =>
  let '(d0, d1) := if adj_x_ then (d1, d0) else (d0, d1) in
  let '(d2, d3) := if adj_y_ then (d3, d2) else (d2, d3) in
  if negb (bool_decide (d1 = d2)) then
    Returned (SetStatus
      (InvalidArgument
         [PStr "In[0] mismatch In[1] shape: "; PInt (Z.of_nat d1); PStr " vs. ";
          PInt (Z.of_nat d2); PStr ": "; PShape (shape in0); PStr " ";
          PShape (shape in1); PStr " "; PBool adj_x_; PStr " "; PBool adj_y_])
      st)
  else
  let out_shape := out_shape ++ [d0] ++ [d3] in
  match allocate_output ctx out_shape with
  | inl e => Returned (SetStatus e st)
  | inr storage =>
  let st :=
    MkState (status st) (Some out_shape)
      (MkStore storage (trace (store st) ++ [EvAllocateOutput out_shape])) in
  let out := MkTensor out_shape storage in
  if bool_decide (NumElements out = 0) then Returned st
  else
  if bool_decide (NumElements in0 = 0) || bool_decide (NumElements in1 = 0) then
    Returned (with_store SetZeroFunctor st)
  else
  match CopyFrom out [n; d0; d3] with
  | None => CheckFailed
  | Some out_reshaped =>
      Returned (LaunchBatchMatMul d ctx in0_reshaped in1_reshaped
                  adj_x_ adj_y_ (shape out_reshaped) st)
  end end end end end.
End compute.
End BatchMatMul.

(** ** The direct definition of the batched adjoint product *)

(** These definitions follow the words of the specification, not the
    kernels: "adjoint = conjugate-transpose; transpose alone for
    real-valued kinds", and the product of the two adjoints taken with no
    conjugation identity. *)
Section direct.
Context {T : Type} `{!ScalarKind T}.

Definition transpose (m : Expr2 T) : Expr2 T :=
  MkExpr2 (e_cols m) (e_rows m) (λ p q, coeff m q p).

Definition adjoint (m : Expr2 T) : Expr2 T :=
  if IsComplex then transpose (conjugate m) else transpose m.

Definition matmul (a b : Expr2 T) : Expr2 T :=
  MkExpr2 (e_rows a) (e_cols b)
    (λ p q, sum_upto (e_cols a) (λ k, scalar_mul (coeff a p k) (coeff b k q))).

Definition direct_product (adj_x adj_y : bool) (x y : Expr2 T) : Expr2 T :=
  matmul (if adj_x then adjoint x else x) (if adj_y then adjoint y else y).

(** The matrix a tensor of rank 2 holds. *)
Definition as_matrix (t : Tensor T) : Expr2 T :=
  chip (flat t) (dim_size t 0) (dim_size t 1) 0.
End direct.

(** ** Sequential runs and shardings *)

Section runs.
Context {T : Type} `{!ScalarKind T}.

(** The expression a kernel assigns to unit [i] of the output. *)
Definition kernel_expr (Tx Ty : Tensor T) (adj_x adj_y : bool) (i : nat) : Expr2 T :=
  if IsComplex then
    contract (chip_of Tx i)
      (if negb (eqb adj_x adj_y) then conjugate (chip_of Ty i) else chip_of Ty i)
      (InnerBatchMatMulKernel.contract_pairs adj_x adj_y)
  else
    contract (chip_of Tx i) (chip_of Ty i)
      (InnerBatchMatMulKernelReal.contract_pairs adj_x adj_y).

(** What the end of [Launch] does to each element of the output. *)
Definition final_conj (adj_x : bool) : T → T :=
  if adj_x then (if IsComplex then scalar_conj else id) else id.

Definition device_of (parallelize_inner : bool) : EigenDevice :=
  if parallelize_inner then ThreadPoolDevice else DefaultDevice.

(** One iteration of the loop of [Run]. *)
Definition unit_step (d : EigenDevice) (Tz : OutView) (expr : nat → Expr2 T)
    (st : Store T) (i : Z) : Store T :=
  MkStore (assign_chip Tz (Z.to_nat i) (expr (Z.to_nat i)) (buf st))
          (trace st ++ [EvContract d i]).

(** The end of [Launch]. *)
Definition maybe_conjugate (adj_x : bool) (st : Store T) : Store T :=
  if adj_x then LaunchBatchMatMulCPU.Kernel_Conjugate st else st.

(** The units of a list, one after the other. *)
Definition run_units (d : EigenDevice) (Tz : OutView) (expr : nat → Expr2 T)
    (units : list Z) (st : Store T) : Store T :=
  foldl (unit_step d Tz expr) st units.
End runs.

(** The units of the shard [(start, limit)]. *)
Definition shard_units (r : Z * Z) : list Z := seqZ r.1 (r.2 - r.1).

(** A plan is a sharding of [[0, total)] when its shards are sub-ranges
    and every unit lies in exactly one of them.  The order of the shards
    is free. *)
Definition is_sharding (total : nat) (plan : list (Z * Z)) : Prop :=
  Forall (λ r, (0 ≤ r.1 ∧ r.1 ≤ r.2 ∧ r.2 ≤ Z.of_nat total)%Z) plan ∧
  plan ≫= shard_units ≡ₚ seqZ 0 (Z.of_nat total).

(** The contract of the work sharder for a batch of [total] units. *)
Definition sharder_ok (ctx : CpuContext) (total : nat) : Prop :=
  ∀ max_parallelism cost_per_unit,
    is_sharding total (shard_plan ctx max_parallelism total cost_per_unit).

(** ** Valid launches *)

Section validity.
Context {T : Type}.

(** What [Compute] establishes before it calls [Launch]: the three views
    have rank 3 and the same batch size, the contracted dimensions
    agree, the output has the dimensions of the product and each buffer
    holds its tensor.  Nothing bounds the batch size. *)
Record launch_shapes (in_x in_y : Tensor T) (adj_x adj_y : bool) (out : OutView)
    (b : list T) : Prop := {
  ls_rank_x : dims in_x = 3;
  ls_rank_y : dims in_y = 3;
  ls_rank_out : length out = 3;
  ls_batch_y : dim_size in_y 0 = dim_size in_x 0;
  ls_batch_out : shape_dim out 0 = dim_size in_x 0;
  ls_contraction :
    (if adj_x then dim_size in_x 1 else dim_size in_x 2) =
    (if adj_y then dim_size in_y 2 else dim_size in_y 1);
  ls_rows : shape_dim out 1 = if adj_x then dim_size in_x 2 else dim_size in_x 1;
  ls_cols : shape_dim out 2 = if adj_y then dim_size in_y 1 else dim_size in_y 2;
  ls_flat_x : length (flat in_x) = NumElements in_x;
  ls_flat_y : length (flat in_y) = NumElements in_y;
  ls_flat_out : length b = num_elements out
}.

(** A launch within the range of [int]: the conditions of
    [launch_shapes] and, last, a batch size that the conversion of the
    bounds of [Run] from [int64] to [int] leaves as it is.  [Compute]
    does not establish the last field: it bounds no dimension, and
    beyond the bound a launch loses units. *)
Record launch_ok (in_x in_y : Tensor T) (adj_x adj_y : bool) (out : OutView)
    (b : list T) : Prop := {
  ok_rank_x : dims in_x = 3;
  ok_rank_y : dims in_y = 3;
  ok_rank_out : length out = 3;
  ok_batch_y : dim_size in_y 0 = dim_size in_x 0;
  ok_batch_out : shape_dim out 0 = dim_size in_x 0;
  ok_contraction :
    (if adj_x then dim_size in_x 1 else dim_size in_x 2) =
    (if adj_y then dim_size in_y 2 else dim_size in_y 1);
  ok_rows : shape_dim out 1 = if adj_x then dim_size in_x 2 else dim_size in_x 1;
  ok_cols : shape_dim out 2 = if adj_y then dim_size in_y 1 else dim_size in_y 2;
  ok_flat_x : length (flat in_x) = NumElements in_x;
  ok_flat_y : length (flat in_y) = NumElements in_y;
  ok_flat_out : length b = num_elements out;
  ok_int : (Z.of_nat (dim_size in_x 0) ≤ INT_MAX)%Z
}.
End validity.

(** ** Valid calls *)

Section calls.
Context {T : Type}.

(** The leading dimensions of a tensor and its last two. *)
Definition batch_shape (t : Tensor T) : TensorShape := take (dims t - 2) (shape t).
Definition rows_of (t : Tensor T) : nat := dim_size t (dims t - 2).
Definition cols_of (t : Tensor T) : nat := dim_size t (dims t - 1).

(** The dimensions of the matrices of [t] once the adjoint flag is
    applied. *)
Definition eff_rows (adj : bool) (t : Tensor T) : nat :=
  if adj then cols_of t else rows_of t.
Definition eff_cols (adj : bool) (t : Tensor T) : nat :=
  if adj then rows_of t else cols_of t.

Definition product_shape (in0 in1 : Tensor T) (adj_x adj_y : bool) : TensorShape :=
  batch_shape in0 ++ [eff_rows adj_x in0; eff_cols adj_y in1].

(** The shapes [Compute] accepts. *)
Record shapes_ok (in0 in1 : Tensor T) (adj_x adj_y : bool) : Prop := {
  so_rank : dims in0 = dims in1;
  so_rank2 : 2 ≤ dims in0;
  so_batch : ∀ j, j < dims in0 - 2 → dim_size in0 j = dim_size in1 j;
  so_contraction : eff_cols adj_x in0 = eff_rows adj_y in1
}.

(** A valid call: the shapes are accepted, each input buffer holds its
    tensor, and the output is allocated, with [storage] as its
    memory. *)
Record call_ok (ctx : OpKernelContext T) (adj_x adj_y : bool)
    (storage : list T) : Prop := {
  co_shapes : shapes_ok (input0 ctx) (input1 ctx) adj_x adj_y;
  co_flat0 : length (flat (input0 ctx)) = NumElements (input0 ctx);
  co_flat1 : length (flat (input1 ctx)) = NumElements (input1 ctx);
  co_alloc :
    allocate_output ctx (product_shape (input0 ctx) (input1 ctx) adj_x adj_y)
    = inr storage;
  co_storage :
    length storage = num_elements (product_shape (input0 ctx) (input1 ctx) adj_x adj_y)
}.

(** The state of the context once the output is allocated. *)
Definition allocated (s : TensorShape) (storage : list T) : KernelState T :=
  MkState OK (Some s) (MkStore storage [EvAllocateOutput s]).

(** How [Compute] ends on shapes it does not accept: the status is the
    error, no output is allocated and no call has been made. *)
Definition rejected (msg : list Piece) : Outcome T :=
  Returned (MkState (InvalidArgument msg) None (MkStore [] [])).

(** The rank-3 view [Compute] takes of an input. *)
Definition reshaped (t : Tensor T) : Tensor T :=
  MkTensor [num_elements (batch_shape t); rows_of t; cols_of t] (flat t).

Definition reshaped_out (in0 in1 : Tensor T) (adj_x adj_y : bool) : OutView :=
  [num_elements (batch_shape in0); eff_rows adj_x in0; eff_cols adj_y in1].
End calls.

(** ** The scratch allocator's answers *)

(** What [AllocateBytes] returns when the temporary cannot be allocated:
    a value, not an error, that holds no memory. *)
Definition stub : StatusOr DeviceMemory := StatusOrValue (MkDeviceMemory nullptr 0).

Definition is_value {A} (r : StatusOr A) : Prop := ∃ a, r = StatusOrValue a.

(** ** A conforming BLAS runtime *)

(** Multiplication commutes, as it does in every registered kind. *)
Class ScalarCommutative (T : Type) `{ScalarKind T} : Prop :=
  mul_comm (a b : T) : scalar_mul a b = scalar_mul b a.

Section gemm.
Context {T : Type} `{!ScalarKind T}.

(** Modelled from the spec: the BLAS runtime is not part of the sources.
    "The target BLAS-equivalent interface assumes column-major operand
    layout": the batched GEMM with [alpha = 1] and [beta = 0] stores,
    for each batch element, [op(A) * op(B)] in [C], where element
    [(i, j)] of a matrix with leading dimension [ld] is at [i + j * ld]
    from its address and [op] is the identity, the transpose or the
    conjugate transpose.  [deref] reads element [j] from a device
    address of the call. *)
Definition deref (x y out : list T) (d : DeviceMemory) (j : nat) : T :=
  match opaque d with
  | InX o => read x (o + j)
  | InY o => read y (o + j)
  | InOut o => read out (o + j)
  | _ => scalar_zero
  end.

Definition op_entry (tr : Transpose) (mat : nat → T) (ld : nat) (i j : nat) : T :=
  match tr with
  | kNoTranspose => mat (i + j * ld)
  | kTranspose => mat (j + i * ld)
  | kConjugateTranspose => scalar_conj (mat (j + i * ld))
  end.

Definition gemm_entry (call : GemmCall) (a b : nat → T) (i j : nat) : T :=
  sum_upto (gemm_k call)
    (λ l, scalar_mul (op_entry (transa call) a (lda call) i l)
            (op_entry (transb call) b (ldb call) l j)).

(** The elements the call stores, batch element after batch element,
    each with its offset into the output. *)
Definition gemm_writes (call : GemmCall) (x y out : list T) : list (nat * T) :=
  seq 0 (batch_count call) ≫= λ bt,
    match gemm_a call !! bt, gemm_b call !! bt, gemm_c call !! bt with
    | Some pa, Some pb, Some pc =>
        match opaque pc with
        | InOut o =>
            seq 0 (gemm_n call) ≫= λ j,
              (λ i, (o + i + j * ldc call,
                     gemm_entry call (deref x y out pa) (deref x y out pb) i j))
                <$> seq 0 (gemm_m call)
        | _ => []
        end
    | _, _, _ => []
    end.

Definition gemm_reference (call : GemmCall) (x y out : list T) : list T :=
  foldl (λ acc w, <[w.1 := w.2]> acc) out (gemm_writes call x y out).
End gemm.

(** ** Concrete calls *)

Module Examples.
(** A sharder that hands out the units one by one, last unit first. *)
Definition plan_reversed (total : nat) : list (Z * Z) :=
  rev ((λ i, (i, (i + 1)%Z)) <$> seqZ 0 (Z.of_nat total)).

Definition pool : CpuContext := MkCpuContext 4 (λ _ total _, plan_reversed total).

Definition fill (n : nat) (f : Z → cplx) : list cplx := (λ j, f (Z.of_nat j)) <$> seq 0 n.

Definition garbage (n : nat) : list cplx := replicate n (Cplx 99 (-99)).

Definition no_temp : list TempTensor → Z → Status + TempTensor :=
  λ _ _, inl (Error RESOURCE_EXHAUSTED []).

Definition context (in0 in1 : Tensor cplx) (s : option (Stream cplx)) :
    OpKernelContext cplx :=
  MkContext in0 in1 (λ s, inr (garbage (num_elements s))) no_temp pool s.

(** Left shape [[8, 16]], right shape [[32, 16]]. *)
Definition left_8x16 : Tensor cplx :=
  MkTensor [8; 16] (fill 128 (λ j, Cplx (j `mod` 5 - 2) (j `mod` 3 - 1))).
Definition right_32x16 : Tensor cplx :=
  MkTensor [32; 16] (fill 512 (λ j, Cplx (j `mod` 7 - 3) (j `mod` 4 - 2))).

(** A batch of two [2 × 3] matrices on each side, as [Launch] sees
    it. *)
Definition x_2x2x3 : Tensor cplx :=
  MkTensor [2; 2; 3] (fill 12 (λ j, Cplx (j - 5) (j `mod` 3))).
Definition y_2x2x3 : Tensor cplx :=
  MkTensor [2; 2; 3] (fill 12 (λ j, Cplx (j `mod` 4) (3 - j))).

(** The same batch as [Compute] receives it, under two leading
    dimensions. *)
Definition x_1x2x2x3 : Tensor cplx := MkTensor [1; 2; 2; 3] (flat x_2x2x3).
Definition y_1x2x2x3 : Tensor cplx := MkTensor [1; 2; 2; 3] (flat y_2x2x3).

(** Inputs of rank 2 for [Compute]: a [2 × 3] and a [2 × 5] matrix
    (to be multiplied with [adj_x]), operands without elements whose
    product has some, a product without elements, and shapes that
    [Compute] rejects. *)
Definition m_2x3 : Tensor cplx := MkTensor [2; 3] (fill 6 (λ j, Cplx j (1 - j))).
Definition m_2x5 : Tensor cplx := MkTensor [2; 5] (fill 10 (λ j, Cplx (2 * j) 1)).
Definition m_2x0 : Tensor cplx := MkTensor [2; 0] [].
Definition m_0x3 : Tensor cplx := MkTensor [0; 3] [].
Definition m_0x4 : Tensor cplx := MkTensor [0; 4] [].
Definition m_4x3 : Tensor cplx := MkTensor [4; 3] (fill 12 (λ j, Cplx j j)).
Definition t_2x2x4x5 : Tensor cplx := MkTensor [2; 2; 4; 5] (garbage 80).
Definition t_2x3x5x6 : Tensor cplx := MkTensor [2; 3; 5; 6] (garbage 180).
Definition t_4x5 : Tensor cplx := MkTensor [4; 5] (garbage 20).
Definition t_6x7 : Tensor cplx := MkTensor [6; 7] (garbage 42).

(** A stream whose runtime asks for two scratch buffers and accepts
    the launch whatever it is given, and one that rejects it. *)
Definition accepting : Stream cplx :=
  MkStream (λ _, [64; 128]%Z) (λ _ _, true) (λ _ _ _ c, c).
Definition rejecting : Stream cplx :=
  MkStream (λ _, [64; 128]%Z) (λ _ _, false) (λ _ _ _ c, c).

(** A batch of four [8 × 16] matrices and one of four [16 × 32]
    matrices. *)
Definition left_4x8x16 : Tensor cplx :=
  MkTensor [4; 8; 16] (fill 512 (λ j, Cplx (j `mod` 5 - 2) (j `mod` 3 - 1))).
Definition right_4x16x32 : Tensor cplx :=
  MkTensor [4; 16; 32] (fill 2048 (λ j, Cplx (j `mod` 7 - 3) (j `mod` 4 - 2))).

(** Two [2 × 2] matrices of [int32], the second with entries near the
    upper end of the range. *)
Definition a_1x2x2 : Tensor int32 :=
  MkTensor [1; 2; 2] [Int32 1; Int32 2; Int32 3; Int32 4].
Definition b_1x2x2 : Tensor int32 :=
  MkTensor [1; 2; 2] [Int32 2147483647; Int32 0; Int32 1; Int32 (-1)].

(** One [1 × 1] matrix on each side: [i] and [1]. *)
Definition x_i : Tensor cplx := MkTensor [1; 1; 1] [Cplx 0 1].
Definition y_one : Tensor cplx := MkTensor [1; 1; 1] [Cplx 1 0].

(** A stream whose runtime needs no scratch memory and computes the
    batched GEMM. *)
Definition blas : Stream cplx := MkStream (λ _, []) (λ _ _, true) gemm_reference.

(** The smallest batch size that is not an [int], and a batch of [n]
    matrices of shape [1 × 1], all equal to [v]. *)
Definition two_31 : nat := Z.to_nat (2 ^ 31).
Definition unit_batch (n : nat) (v : int32) : Tensor int32 :=
  MkTensor [n; 1; 1] (replicate n v).

(** Two sharders over a pool of four threads: one hands out the whole
    range as a single shard, the other the first unit and then the
    rest. *)
Definition one_shard : CpuContext :=
  MkCpuContext 4 (λ _ total _, [(0, Z.of_nat total)]%Z).
Definition first_then_rest : CpuContext :=
  MkCpuContext 4 (λ _ total _, [(0, 1); (1, Z.of_nat total)]%Z).
End Examples.

(** * Properties *)

(** ** Integers, evaluation and assignment *)

Lemma to_int_small z : (- 2 ^ 31 ≤ z ≤ INT_MAX)%Z → to_int z = z.
Proof.
  unfold to_int, wrap32, INT_MAX. intros Hz.
  rewrite Z.mod_small by lia. lia.
Qed.

Lemma num_elements_3 a b c : num_elements [a; b; c] = a * b * c.
Proof. unfold num_elements. simpl. lia. Qed.

Lemma shape_3 (s : TensorShape) :
  length s = 3 → s = [shape_dim s 0; shape_dim s 1; shape_dim s 2].
Proof. destruct s as [|a [|b [|c [|]]]]; naive_solver. Qed.

(** Row-major offsets: an element of chip [i] lies inside that chip, and
    the chips follow each other. *)
Lemma offset_in_chip R C p q : p < R → q < C → p * C + q < R * C.
Proof. nia. Qed.

Lemma chips_ordered R C i i' : i' < i → i' * R * C + R * C ≤ i * R * C.
Proof. nia. Qed.

Section eval_facts.
Context {T : Type} `{!ScalarKind T}.
Implicit Types (e : Expr2 T) (b : list T).

Lemma length_eval e : length (eval e) = e_rows e * e_cols e.
Proof. unfold eval. by rewrite length_fmap, length_seq. Qed.

Lemma eval_lookup e p q :
  p < e_rows e → q < e_cols e →
  eval e !! (p * e_cols e + q) = Some (coeff e p q).
Proof.
  intros Hp Hq. unfold eval.
  rewrite list_lookup_fmap, lookup_seq_lt by nia. simpl.
  rewrite Nat.div_add_l, Nat.div_small, Nat.add_0_r by lia.
  rewrite Nat.add_comm, Nat.Div0.mod_add, Nat.mod_small by lia. done.
Qed.

Lemma length_assign_chip Tz i e b : length (assign_chip Tz i e b) = length b.
Proof. apply length_inserts. Qed.

(** Inside the chip that was assigned, the buffer holds the
    coefficients of the expression. *)
Lemma assign_chip_lookup Tz i e b p q :
  e_rows e = shape_dim Tz 1 → e_cols e = shape_dim Tz 2 →
  p < shape_dim Tz 1 → q < shape_dim Tz 2 →
  i * shape_dim Tz 1 * shape_dim Tz 2 + p * shape_dim Tz 2 + q < length b →
  assign_chip Tz i e b !! (i * shape_dim Tz 1 * shape_dim Tz 2 + p * shape_dim Tz 2 + q)
  = Some (coeff e p q).
Proof.
  intros Hr Hc Hp Hq Hlen. unfold assign_chip.
  rewrite list_lookup_inserts by (rewrite ?length_eval; nia).
  replace (i * shape_dim Tz 1 * shape_dim Tz 2 + p * shape_dim Tz 2 + q
           - i * shape_dim Tz 1 * shape_dim Tz 2) with (p * e_cols e + q) by lia.
  apply eval_lookup; lia.
Qed.

(** Every other chip is left as it was. *)
Lemma assign_chip_lookup_ne Tz i i' e b p q :
  e_rows e = shape_dim Tz 1 → e_cols e = shape_dim Tz 2 →
  i' ≠ i → p < shape_dim Tz 1 → q < shape_dim Tz 2 →
  assign_chip Tz i e b !! (i' * shape_dim Tz 1 * shape_dim Tz 2 + p * shape_dim Tz 2 + q)
  = b !! (i' * shape_dim Tz 1 * shape_dim Tz 2 + p * shape_dim Tz 2 + q).
Proof.
  intros Hr Hc Hne Hp Hq. unfold assign_chip.
  pose proof (offset_in_chip _ _ p q Hp Hq).
  destruct (decide (i' < i)).
  - apply list_lookup_inserts_lt.
    pose proof (chips_ordered (shape_dim Tz 1) (shape_dim Tz 2) i i'). lia.
  - apply list_lookup_inserts_ge. rewrite length_eval, Hr, Hc.
    pose proof (chips_ordered (shape_dim Tz 1) (shape_dim Tz 2) i' i). lia.
Qed.
End eval_facts.

(** ** Sums *)

Lemma foldl_pointwise {A B} (f g : A → B → A) (l : list B) (a : A) :
  (∀ a x, f a x = g a x) → foldl f a l = foldl g a l.
Proof.
  intros Hfg. revert a. induction l as [|x l IH]; intros a; simpl; [done|].
  by rewrite Hfg, IH.
Qed.

Section sum_facts.
Context {T : Type} `{!ScalarKind T}.

Lemma sum_upto_0 (f : nat → T) : sum_upto 0 f = scalar_zero.
Proof. done. Qed.

Lemma sum_upto_S n (f : nat → T) :
  sum_upto (S n) f = scalar_add (sum_upto n f) (f n).
Proof. unfold sum_upto. by rewrite seq_S, foldl_snoc. Qed.

Lemma sum_upto_ext n (f g : nat → T) :
  (∀ k, k < n → f k = g k) → sum_upto n f = sum_upto n g.
Proof.
  induction n as [|n IH]; intros Hfg; [done|].
  rewrite !sum_upto_S, IH, Hfg by auto with lia. done.
Qed.

(** Conjugation goes through a sum, term by term. *)
Lemma conj_sum_upto `{!ScalarLaws T} n (f : nat → T) :
  scalar_conj (sum_upto n f) = sum_upto n (λ k, scalar_conj (f k)).
Proof.
  induction n as [|n IH].
  - rewrite !sum_upto_0. apply conj_zero.
  - by rewrite !sum_upto_S, conj_add, IH.
Qed.
End sum_facts.

(** ** The kernels as sequential runs *)

Section run_facts.
Context {T : Type} `{!ScalarKind T}.
Implicit Types (st : Store T) (us : list Z).

Lemma run_units_snoc d Tz expr us u st :
  run_units d Tz expr (us ++ [u]) st = unit_step d Tz expr (run_units d Tz expr us st) u.
Proof. apply foldl_snoc. Qed.

Lemma run_units_app d Tz expr us1 us2 st :
  run_units d Tz expr (us1 ++ us2) st =
  run_units d Tz expr us2 (run_units d Tz expr us1 st).
Proof. apply foldl_app. Qed.

Lemma run_units_trace d Tz expr us st :
  trace (run_units d Tz expr us st) = trace st ++ (EvContract d <$> us).
Proof.
  induction us as [|u us IH] using rev_ind.
  - simpl. by rewrite app_nil_r.
  - rewrite run_units_snoc, fmap_app. simpl. rewrite IH. by rewrite app_assoc.
Qed.

Lemma run_units_length d Tz expr us st :
  length (buf (run_units d Tz expr us st)) = length (buf st).
Proof.
  induction us as [|u us IH] using rev_ind; [done|].
  rewrite run_units_snoc. simpl. by rewrite length_assign_chip.
Qed.

(** After a run over [us], chip [i] of the output holds the kernel's
    expression for [i] when [i] is one of [us], and what it held before
    otherwise: the order and the repetitions of [us] play no role. *)
Lemma run_units_lookup d Tz expr us st i p q :
  (∀ u, u ∈ us → (0 ≤ u)%Z ∧
     e_rows (expr (Z.to_nat u)) = shape_dim Tz 1 ∧
     e_cols (expr (Z.to_nat u)) = shape_dim Tz 2) →
  p < shape_dim Tz 1 → q < shape_dim Tz 2 →
  i * shape_dim Tz 1 * shape_dim Tz 2 + p * shape_dim Tz 2 + q < length (buf st) →
  buf (run_units d Tz expr us st)
    !! (i * shape_dim Tz 1 * shape_dim Tz 2 + p * shape_dim Tz 2 + q)
  = if decide (Z.of_nat i ∈ us) then Some (coeff (expr i) p q)
    else buf st !! (i * shape_dim Tz 1 * shape_dim Tz 2 + p * shape_dim Tz 2 + q).
Proof.
  intros Hus Hp Hq Hlen.
  induction us as [|u us IH] using rev_ind.
  { rewrite decide_False; [done|]. apply not_elem_of_nil. }
  rewrite run_units_snoc. simpl.
  destruct (Hus u) as (Hu0 & Hr & Hc); [apply elem_of_app; right; by apply list_elem_of_singleton|].
  destruct (decide (u = Z.of_nat i)) as [->|Hne].
  - rewrite Nat2Z.id in *.
    rewrite decide_True by (apply elem_of_app; right; by apply list_elem_of_singleton).
    apply assign_chip_lookup; try done. by rewrite run_units_length.
  - rewrite assign_chip_lookup_ne by (try done; lia).
    rewrite IH by (intros u' Hu'; apply Hus, elem_of_app; by left).
    destruct (decide (Z.of_nat i ∈ us)) as [Hin|Hnin].
    + rewrite decide_True; [done|]. apply elem_of_app; by left.
    + rewrite decide_False; [done|].
      rewrite elem_of_app, list_elem_of_singleton. intros [?|?]; [done|congruence].
Qed.

(** Both specialisations of [Run] are sequential runs of their
    expression over the units of [[start, limit)]. *)
Lemma Kernel_Run_units pi Tx Ty adj_x adj_y Tz start limit st :
  LaunchBatchMatMulCPU.Kernel_Run pi Tx Ty adj_x adj_y Tz start limit st =
  run_units (device_of pi) Tz (kernel_expr Tx Ty adj_x adj_y)
    (seqZ start (limit - start)) st.
Proof.
  unfold LaunchBatchMatMulCPU.Kernel_Run, kernel_expr, run_units.
  destruct IsComplex.
  - unfold InnerBatchMatMulKernel.Run. apply foldl_pointwise.
    intros a i. unfold unit_step, InnerBatchMatMulKernel.Contract.
    by destruct pi, (negb (eqb adj_x adj_y)).
  - unfold InnerBatchMatMulKernelReal.Run. apply foldl_pointwise.
    intros a i. unfold unit_step, InnerBatchMatMulKernelReal.Contract.
    by destruct pi.
Qed.

Lemma Kernel_Conjugate_buf st :
  buf (LaunchBatchMatMulCPU.Kernel_Conjugate st) = final_conj true <$> buf st.
Proof.
  unfold LaunchBatchMatMulCPU.Kernel_Conjugate, final_conj.
  destruct IsComplex; simpl; [done|].
  by rewrite list_fmap_id.
Qed.

Lemma Kernel_Conjugate_trace st :
  trace (LaunchBatchMatMulCPU.Kernel_Conjugate st) =
  trace st ++ (if IsComplex then [EvConjugate] else []).
Proof.
  unfold LaunchBatchMatMulCPU.Kernel_Conjugate. destruct IsComplex; simpl; [done|].
  by rewrite app_nil_r.
Qed.

(** The dimensions of the kernel's expression are those of the output
    of a valid launch. *)
Lemma kernel_expr_dims Tx Ty adj_x adj_y out b i :
  launch_ok Tx Ty adj_x adj_y out b →
  e_rows (kernel_expr Tx Ty adj_x adj_y i) = shape_dim out 1 ∧
  e_cols (kernel_expr Tx Ty adj_x adj_y i) = shape_dim out 2.
Proof.
  intros [_ _ _ _ _ _ -> -> _ _ _ _].
  unfold kernel_expr. by destruct IsComplex, adj_x, adj_y.
Qed.

(** The kernel's expression, conjugated as [Launch] does at its end, has
    the coefficients of the direct definition. *)
Lemma kernel_expr_direct `{!ScalarLaws T} Tx Ty adj_x adj_y i p q :
  final_conj adj_x (coeff (kernel_expr Tx Ty adj_x adj_y i) p q) =
  coeff (direct_product adj_x adj_y (chip_of Tx i) (chip_of Ty i)) p q.
Proof.
  unfold final_conj, kernel_expr, direct_product, adjoint.
  destruct IsComplex, adj_x, adj_y; simpl; try done.
  - rewrite conj_sum_upto. apply sum_upto_ext. intros k _. by rewrite conj_mul.
  - rewrite conj_sum_upto. apply sum_upto_ext. intros k _.
    by rewrite conj_mul, conj_conj.
Qed.
End run_facts.

(** ** Launch on the CPU *)

Lemma index_decompose N R C idx :
  idx < N * R * C →
  ∃ i p q, i < N ∧ p < R ∧ q < C ∧ idx = i * R * C + p * C + q.
Proof.
  intros Hidx.
  assert (0 < C) by (destruct C; lia).
  assert (0 < R * C) by (destruct R; lia).
  exists (idx `div` (R * C)), ((idx `mod` (R * C)) `div` C), ((idx `mod` (R * C)) `mod` C).
  pose proof (Nat.div_mod_eq idx (R * C)).
  pose proof (Nat.mod_upper_bound idx (R * C)).
  pose proof (Nat.div_mod_eq (idx `mod` (R * C)) C).
  pose proof (Nat.mod_upper_bound (idx `mod` (R * C)) C).
  split_and!.
  - apply Nat.Div0.div_lt_upper_bound. lia.
  - apply Nat.Div0.div_lt_upper_bound. lia.
  - lia.
  - lia.
Qed.

Section launch_facts.
Context {T : Type} `{!ScalarKind T}.
Implicit Types (st : Store T) (us : list Z).

Lemma maybe_conjugate_buf adj_x st :
  buf (maybe_conjugate adj_x st) = final_conj adj_x <$> buf st.
Proof.
  destruct adj_x; simpl; [apply Kernel_Conjugate_buf|].
  unfold final_conj. by rewrite list_fmap_id.
Qed.

Lemma maybe_conjugate_trace adj_x st :
  trace (maybe_conjugate adj_x st) =
  trace st ++ (if adj_x && IsComplex then [EvConjugate] else []).
Proof.
  destruct adj_x; simpl; [apply Kernel_Conjugate_trace|]. by rewrite app_nil_r.
Qed.

(** The work of a sharded launch, shard after shard, is one run over
    the units of the plan. *)
Lemma Shard_units ctx mp total cost pi Tx Ty adj_x adj_y Tz st :
  (Z.of_nat total ≤ INT_MAX)%Z →
  Forall (λ r, (0 ≤ r.1 ∧ r.1 ≤ r.2 ∧ r.2 ≤ Z.of_nat total)%Z)
    (shard_plan ctx mp total cost) →
  LaunchBatchMatMulCPU.Shard ctx mp total cost
    (λ start limit,
       LaunchBatchMatMulCPU.Kernel_Run pi Tx Ty adj_x adj_y Tz
         (to_int start) (to_int limit)) st =
  run_units (device_of pi) Tz (kernel_expr Tx Ty adj_x adj_y)
    (shard_plan ctx mp total cost ≫= shard_units)
    (record (EvShard mp total cost) st).
Proof.
  intros Hmax Hplan. unfold LaunchBatchMatMulCPU.Shard, record.
  generalize (MkStore (buf st) (trace st ++ [EvShard mp total cost])).
  induction Hplan as [|r plan (H0 & Hle & Htot) _ IH]; intros s; [done|].
  simpl. rewrite IH, run_units_app.
  f_equal. rewrite Kernel_Run_units.
  unfold INT_MAX in Hmax.
  rewrite !to_int_small by (unfold INT_MAX; lia). done.
Qed.

(** A launch that takes the first branch is one run over all units on
    the thread-pool device. *)
Lemma Launch_sequential ctx in_x in_y adj_x adj_y out st :
  (Z.of_nat (dim_size in_x 0) ≤ INT_MAX)%Z →
  LaunchBatchMatMulCPU.sequential_branch in_x out = true →
  LaunchBatchMatMulCPU.Launch ctx in_x in_y adj_x adj_y out st =
  maybe_conjugate adj_x
    (run_units ThreadPoolDevice out (kernel_expr in_x in_y adj_x adj_y)
       (seqZ 0 (Z.of_nat (dim_size in_x 0))) st).
Proof.
  intros Hmax Hcond. unfold LaunchBatchMatMulCPU.Launch.
  unfold LaunchBatchMatMulCPU.sequential_branch in Hcond. rewrite Hcond.
  rewrite Kernel_Run_units, to_int_small, Z.sub_0_r by (unfold INT_MAX in *; lia).
  done.
Qed.

(** A launch that takes the second branch is one run over the units of
    the plan, after the call of the sharder. *)
Lemma Launch_sharded ctx in_x in_y adj_x adj_y out st :
  (Z.of_nat (dim_size in_x 0) ≤ INT_MAX)%Z →
  sharder_ok ctx (dim_size in_x 0) →
  LaunchBatchMatMulCPU.sequential_branch in_x out = false →
  let cost := LaunchBatchMatMulCPU.cost_per_unit in_x out in
  let pi := bool_decide (Z.of_nat (dim_size in_x 0) < num_threads ctx)%Z &&
            bool_decide (1 < shape_dim out 2) in
  let outer := if pi then Z.max 1 (num_threads ctx - 1) else num_threads ctx in
  LaunchBatchMatMulCPU.Launch ctx in_x in_y adj_x adj_y out st =
  maybe_conjugate adj_x
    (run_units (device_of pi) out (kernel_expr in_x in_y adj_x adj_y)
       (shard_plan ctx outer (dim_size in_x 0) cost ≫= shard_units)
       (record (EvShard outer (dim_size in_x 0) cost) st)).
Proof.
  intros Hmax Hsh Hcond cost pi outer. unfold LaunchBatchMatMulCPU.Launch.
  unfold LaunchBatchMatMulCPU.sequential_branch in Hcond.
  rewrite Hcond. fold cost pi outer.
  rewrite Shard_units; [done|done|]. apply Hsh.
Qed.

(** Two runs over the same set of units leave the same buffer. *)
Lemma run_units_buf_eq (d d' : EigenDevice) (Tz : OutView) expr us us' N st st' :
  (∀ u, u ∈ us ↔ u ∈ us') →
  (∀ u, u ∈ us → (0 ≤ u)%Z ∧
     e_rows (expr (Z.to_nat u)) = shape_dim Tz 1 ∧
     e_cols (expr (Z.to_nat u)) = shape_dim Tz 2) →
  length (buf st) = N * shape_dim Tz 1 * shape_dim Tz 2 →
  buf st' = buf st →
  buf (run_units d Tz expr us st) = buf (run_units d' Tz expr us' st').
Proof.
  intros Hsame Hus Hlen Hbuf. apply list_eq. intros idx.
  destruct (decide (idx < length (buf st))) as [Hidx|Hidx].
  - destruct (index_decompose N (shape_dim Tz 1) (shape_dim Tz 2) idx)
      as (i & p & q & Hi & Hp & Hq & ->); [lia|].
    rewrite !run_units_lookup; try done.
    + rewrite Hbuf. destruct (decide (Z.of_nat i ∈ us)) as [Hin|Hnin].
      * rewrite decide_True; [done|]. by apply Hsame.
      * rewrite decide_False; [done|]. by rewrite <-Hsame.
    + intros u Hu. apply Hus, Hsame, Hu.
    + by rewrite Hbuf.
  - rewrite !lookup_ge_None_2; [done| |];
      rewrite run_units_length; rewrite ?Hbuf; lia.
Qed.
End launch_facts.

(** ** Shapes *)

Lemma num_elements_app (s1 s2 : TensorShape) :
  num_elements (s1 ++ s2) = num_elements s1 * num_elements s2.
Proof.
  unfold num_elements. induction s1 as [|a s1 IH]; simpl; [lia|].
  rewrite IH. lia.
Qed.

Lemma shape_dim_lookup (s : TensorShape) i : shape_dim s i = default 0 (s !! i).
Proof. unfold shape_dim. apply nth_lookup. Qed.

Lemma shape_dims_take (s : TensorShape) k :
  k ≤ length s → shape_dim s <$> seq 0 k = take k s.
Proof.
  intros Hk. apply list_eq. intros i.
  rewrite list_lookup_fmap.
  destruct (decide (i < k)) as [Hi|Hi].
  - rewrite lookup_seq_lt, lookup_take_lt by done. simpl.
    rewrite shape_dim_lookup.
    destruct (lookup_lt_is_Some_2 s i) as [x ->]; [lia|done].
  - rewrite lookup_seq_ge, lookup_take_ge by lia. done.
Qed.

Lemma shape_split (s : TensorShape) :
  2 ≤ length s →
  s = take (length s - 2) s ++ [shape_dim s (length s - 2); shape_dim s (length s - 1)].
Proof.
  intros Hlen.
  rewrite <-(take_drop (length s - 2) s) at 1. f_equal.
  apply list_eq. intros i. rewrite lookup_drop, !shape_dim_lookup.
  destruct i as [|[|i]]; simpl.
  - rewrite Nat.add_0_r.
    destruct (lookup_lt_is_Some_2 s (length s - 2)) as [x ->]; [lia|done].
  - replace (length s - 2 + 1) with (length s - 1) by lia.
    destruct (lookup_lt_is_Some_2 s (length s - 1)) as [x ->]; [lia|done].
  - apply lookup_ge_None_2. lia.
Qed.

Section shape_facts.
Context {T : Type}.
Implicit Types (t : Tensor T).

Lemma CopyFrom_Some t (s : TensorShape) :
  num_elements (shape t) = num_elements s →
  CopyFrom t s = Some (MkTensor s (flat t)).
Proof. intros H. unfold CopyFrom. by rewrite decide_True. Qed.

Lemma dim_sizes_take t k :
  k ≤ dims t → dim_size t <$> seq 0 k = take k (shape t).
Proof. apply shape_dims_take. Qed.

Lemma NumElements_split t :
  2 ≤ dims t →
  NumElements t = num_elements [num_elements (batch_shape t); rows_of t; cols_of t].
Proof.
  intros Hr. unfold NumElements. rewrite (shape_split (shape t)) at 1 by done.
  rewrite num_elements_app, num_elements_3. unfold num_elements at 2. simpl.
  unfold batch_shape, rows_of, cols_of, dim_size, dims. lia.
Qed.

Lemma batch_shape_eq (in0 in1 : Tensor T) adj_x adj_y :
  shapes_ok in0 in1 adj_x adj_y → batch_shape in1 = batch_shape in0.
Proof.
  intros [Hr Hr2 Hb _]. unfold batch_shape. rewrite <-Hr.
  rewrite <-!shape_dims_take by (unfold dims in *; lia).
  apply list_eq. intros i. rewrite !list_lookup_fmap.
  destruct (seq 0 (dims in0 - 2) !! i) as [j|] eqn:Hj; simpl; [|done].
  apply lookup_seq in Hj as [-> Hi]. f_equal. symmetry. apply Hb. lia.
Qed.

Lemma num_elements_product (in0 in1 : Tensor T) adj_x adj_y :
  num_elements (product_shape in0 in1 adj_x adj_y) =
  num_elements (reshaped_out in0 in1 adj_x adj_y).
Proof.
  unfold product_shape, reshaped_out.
  rewrite num_elements_app, !num_elements_3. unfold num_elements at 2. simpl. lia.
Qed.
End shape_facts.

(** ** Compute: validation *)

Section compute_facts.
Context {T : Type} `{!ScalarKind T}.
Implicit Types (ctx : OpKernelContext T) (d : Device).

Lemma batch_dims_ok (in0 in1 : Tensor T) i count acc :
  (∀ j, i ≤ j < i + count → dim_size in0 j = dim_size in1 j) →
  BatchMatMul.batch_dims in0 in1 i count acc =
  inr (acc ++ (dim_size in0 <$> seq i count)).
Proof.
  revert i acc. induction count as [|count IH]; intros i acc Hall; simpl.
  - by rewrite app_nil_r.
  - rewrite decide_True by (apply Hall; lia).
    rewrite IH by (intros j Hj; apply Hall; lia).
    by rewrite <-app_assoc.
Qed.

(** The loop stops at the first leading dimension on which the inputs
    differ, and reports its index and both shapes. *)
Lemma batch_dims_mismatch (in0 in1 : Tensor T) i count acc j :
  i ≤ j < i + count →
  dim_size in0 j ≠ dim_size in1 j →
  (∀ j', i ≤ j' < j → dim_size in0 j' = dim_size in1 j') →
  BatchMatMul.batch_dims in0 in1 i count acc =
  inl (InvalidArgument
         [PStr "In[0].dim("; PInt (Z.of_nat j); PStr ") and In[1].dim(";
          PInt (Z.of_nat j); PStr ") must be the same: ";
          PShape (shape in0); PStr " vs "; PShape (shape in1)]).
Proof.
  revert i acc. induction count as [|count IH]; intros i acc Hj Hne Hbefore; [lia|].
  simpl. destruct (decide (i = j)) as [->|Hij].
  - by rewrite decide_False.
  - rewrite decide_True by (apply Hbefore; lia).
    apply IH; [lia|done|]. intros j' Hj'. apply Hbefore. lia.
Qed.

(** On accepted shapes no [CHECK] fails, and [Compute] is the
    allocation followed by one of its three ends. *)
Lemma Compute_accepted d ctx adj_x adj_y :
  shapes_ok (input0 ctx) (input1 ctx) adj_x adj_y →
  let s := product_shape (input0 ctx) (input1 ctx) adj_x adj_y in
  BatchMatMul.Compute d ctx adj_x adj_y =
  match allocate_output ctx s with
  | inl e => Returned (SetStatus e initial_state)
  | inr storage =>
      if bool_decide (num_elements s = 0) then Returned (allocated s storage)
      else if bool_decide (NumElements (input0 ctx) = 0) ||
              bool_decide (NumElements (input1 ctx) = 0)
      then Returned (with_store BatchMatMul.SetZeroFunctor (allocated s storage))
      else Returned
             (BatchMatMul.LaunchBatchMatMul d ctx (reshaped (input0 ctx))
                (reshaped (input1 ctx)) adj_x adj_y
                (reshaped_out (input0 ctx) (input1 ctx) adj_x adj_y)
                (allocated s storage))
  end.
Proof.
  intros Hok s. pose proof Hok as [Hr Hr2 Hb Hc].
  unfold BatchMatMul.Compute.
  rewrite (bool_decide_eq_true_2 _ Hr), (bool_decide_eq_true_2 _ Hr2). simpl.
  rewrite batch_dims_ok by (intros j Hj; apply Hb; lia). simpl.
  rewrite dim_sizes_take by lia.
  fold (batch_shape (input0 ctx)).
  assert ((if bool_decide (dims (input0 ctx) = 2) then 1
           else num_elements (batch_shape (input0 ctx)))
          = num_elements (batch_shape (input0 ctx))) as ->.
  { case_bool_decide as H2; [|done]. unfold batch_shape. by rewrite H2. }
  fold (rows_of (input0 ctx)) (cols_of (input0 ctx)).
  rewrite (CopyFrom_Some (input0 ctx)) by (apply NumElements_split; done).
  rewrite !Hr. fold (rows_of (input1 ctx)) (cols_of (input1 ctx)).
  rewrite (CopyFrom_Some (input1 ctx)).
  2:{ rewrite <-(batch_shape_eq _ _ _ _ Hok). apply NumElements_split. lia. }
  assert (∀ storage : list T,
    CopyFrom (MkTensor s storage)
      (reshaped_out (input0 ctx) (input1 ctx) adj_x adj_y) =
    Some (MkTensor (reshaped_out (input0 ctx) (input1 ctx) adj_x adj_y) storage))
    as Hout.
  { intros storage. apply CopyFrom_Some. apply num_elements_product. }
  unfold eff_cols, eff_rows in Hc.
  unfold s, product_shape, reshaped_out, eff_rows, eff_cols in *.
  destruct adj_x, adj_y; simpl;
    rewrite (bool_decide_eq_true_2 _ Hc); simpl;
    (destruct (allocate_output ctx _) as [e|storage]; [done|]);
    unfold NumElements; simpl; rewrite Hout;
    unfold reshaped; rewrite (batch_shape_eq _ _ _ _ Hok); done.
Qed.

(** The four ways in which [Compute] rejects its inputs, in the order of
    its checks. *)
Lemma Compute_rank_mismatch d ctx adj_x adj_y :
  dims (input0 ctx) ≠ dims (input1 ctx) →
  BatchMatMul.Compute d ctx adj_x adj_y =
  rejected [PStr "In[0] and In[1] has different ndims: "; PShape (shape (input0 ctx));
            PStr " vs. "; PShape (shape (input1 ctx))].
Proof.
  intros Hr. unfold BatchMatMul.Compute. by rewrite (bool_decide_eq_false_2 _ Hr).
Qed.

Lemma Compute_rank_small d ctx adj_x adj_y :
  dims (input0 ctx) = dims (input1 ctx) → dims (input0 ctx) < 2 →
  BatchMatMul.Compute d ctx adj_x adj_y =
  rejected [PStr "In[0] and In[1] ndims must be >= 2: ";
            PInt (Z.of_nat (dims (input0 ctx)))].
Proof.
  intros Hr Hr2. unfold BatchMatMul.Compute.
  rewrite (bool_decide_eq_true_2 _ Hr). simpl.
  rewrite bool_decide_eq_false_2 by lia. done.
Qed.

Lemma Compute_batch_mismatch d ctx adj_x adj_y j :
  dims (input0 ctx) = dims (input1 ctx) → 2 ≤ dims (input0 ctx) →
  j < dims (input0 ctx) - 2 →
  dim_size (input0 ctx) j ≠ dim_size (input1 ctx) j →
  (∀ j', j' < j → dim_size (input0 ctx) j' = dim_size (input1 ctx) j') →
  BatchMatMul.Compute d ctx adj_x adj_y =
  rejected [PStr "In[0].dim("; PInt (Z.of_nat j); PStr ") and In[1].dim(";
            PInt (Z.of_nat j); PStr ") must be the same: ";
            PShape (shape (input0 ctx)); PStr " vs "; PShape (shape (input1 ctx))].
Proof.
  intros Hr Hr2 Hj Hne Hbefore. unfold BatchMatMul.Compute.
  rewrite (bool_decide_eq_true_2 _ Hr), (bool_decide_eq_true_2 _ Hr2). simpl.
  rewrite (batch_dims_mismatch (input0 ctx) (input1 ctx) 0 _ [] j); try done; [lia|].
  intros j' Hj'. apply Hbefore. lia.
Qed.

Lemma Compute_contraction_mismatch d ctx adj_x adj_y :
  dims (input0 ctx) = dims (input1 ctx) → 2 ≤ dims (input0 ctx) →
  (∀ j, j < dims (input0 ctx) - 2 → dim_size (input0 ctx) j = dim_size (input1 ctx) j) →
  eff_cols adj_x (input0 ctx) ≠ eff_rows adj_y (input1 ctx) →
  BatchMatMul.Compute d ctx adj_x adj_y =
  rejected [PStr "In[0] mismatch In[1] shape: ";
            PInt (Z.of_nat (eff_cols adj_x (input0 ctx)));
            PStr " vs. "; PInt (Z.of_nat (eff_rows adj_y (input1 ctx))); PStr ": ";
            PShape (shape (input0 ctx)); PStr " "; PShape (shape (input1 ctx));
            PStr " "; PBool adj_x; PStr " "; PBool adj_y].
Proof.
  intros Hr Hr2 Hb Hne. unfold BatchMatMul.Compute.
  rewrite (bool_decide_eq_true_2 _ Hr), (bool_decide_eq_true_2 _ Hr2). simpl.
  rewrite batch_dims_ok by (intros j Hj; apply Hb; lia). simpl.
  rewrite dim_sizes_take by lia. fold (batch_shape (input0 ctx)).
  assert ((if bool_decide (dims (input0 ctx) = 2) then 1
           else num_elements (batch_shape (input0 ctx)))
          = num_elements (batch_shape (input0 ctx))) as ->.
  { case_bool_decide as H2; [|done]. unfold batch_shape. by rewrite H2. }
  fold (rows_of (input0 ctx)) (cols_of (input0 ctx)).
  rewrite (CopyFrom_Some (input0 ctx)) by (apply NumElements_split; done).
  rewrite !Hr. fold (rows_of (input1 ctx)) (cols_of (input1 ctx)).
  rewrite (CopyFrom_Some (input1 ctx)).
  2:{ assert (batch_shape (input1 ctx) = batch_shape (input0 ctx)) as <-.
      { unfold batch_shape. rewrite <-Hr.
        rewrite <-!dim_sizes_take by lia.
        apply list_eq. intros i. rewrite !list_lookup_fmap.
        destruct (seq 0 (dims (input0 ctx) - 2) !! i) as [j|] eqn:Hj; simpl; [|done].
        apply lookup_seq in Hj as [-> Hi]. f_equal. symmetry. apply Hb. lia. }
      apply NumElements_split. lia. }
  unfold eff_cols, eff_rows in *.
  destruct adj_x, adj_y; simpl; by rewrite bool_decide_eq_false_2.
Qed.
End compute_facts.

(** ** What a CPU launch leaves in the output *)

Section launch_result.
Context {T : Type} `{!ScalarKind T}.
Implicit Types (st : Store T).

(** A valid launch is, whatever its branch, a run of the kernel over a
    list that holds exactly the units of the batch, followed by the
    final conjugation. *)
Lemma Launch_units ctx in_x in_y adj_x adj_y out st :
  (Z.of_nat (dim_size in_x 0) ≤ INT_MAX)%Z →
  (dim_size in_x 0 ≠ 1 → sharder_ok ctx (dim_size in_x 0)) →
  ∃ d us st0,
    LaunchBatchMatMulCPU.Launch ctx in_x in_y adj_x adj_y out st =
    maybe_conjugate adj_x
      (run_units d out (kernel_expr in_x in_y adj_x adj_y) us st0) ∧
    buf st0 = buf st ∧
    ∀ u, u ∈ us ↔ (0 ≤ u < Z.of_nat (dim_size in_x 0))%Z.
Proof.
  intros Hmax Hsh.
  destruct (LaunchBatchMatMulCPU.sequential_branch in_x out) eqn:Hcond.
  - eexists _, _, _. split; [by apply Launch_sequential|]. split; [done|].
    intros u. rewrite elem_of_seqZ. lia.
  - assert (sharder_ok ctx (dim_size in_x 0)) as Hsh'.
    { apply Hsh. intros H1. unfold LaunchBatchMatMulCPU.sequential_branch in Hcond.
      by rewrite H1 in Hcond. }
    eexists _, _, _. split; [by apply Launch_sharded|]. split; [done|].
    intros u. destruct (Hsh'
      (if bool_decide (Z.of_nat (dim_size in_x 0) < num_threads ctx)%Z &&
          bool_decide (1 < shape_dim out 2)
       then Z.max 1 (num_threads ctx - 1) else num_threads ctx)
      (LaunchBatchMatMulCPU.cost_per_unit in_x out)) as [_ Hperm].
    rewrite Hperm, elem_of_seqZ. lia.
Qed.

Lemma launch_ok_out_length in_x in_y adj_x adj_y out (b : list T) :
  launch_ok in_x in_y adj_x adj_y out b →
  length b = dim_size in_x 0 * shape_dim out 1 * shape_dim out 2.
Proof.
  intros Hok. rewrite (ok_flat_out _ _ _ _ _ _ Hok).
  rewrite (shape_3 out) at 1 by apply Hok.
  by rewrite num_elements_3, (ok_batch_out _ _ _ _ _ _ Hok).
Qed.

Lemma Launch_length ctx in_x in_y adj_x adj_y out st :
  (Z.of_nat (dim_size in_x 0) ≤ INT_MAX)%Z →
  (dim_size in_x 0 ≠ 1 → sharder_ok ctx (dim_size in_x 0)) →
  length (buf (LaunchBatchMatMulCPU.Launch ctx in_x in_y adj_x adj_y out st))
  = length (buf st).
Proof.
  intros Hmax Hsh.
  destruct (Launch_units ctx in_x in_y adj_x adj_y out st Hmax Hsh)
    as (d & us & st0 & -> & Hbuf & _).
  by rewrite maybe_conjugate_buf, length_fmap, run_units_length, Hbuf.
Qed.

(** Element [(p, q)] of chip [i] of the output after a valid launch. *)
Lemma Launch_lookup ctx in_x in_y adj_x adj_y out st i p q :
  launch_ok in_x in_y adj_x adj_y out (buf st) →
  (dim_size in_x 0 ≠ 1 → sharder_ok ctx (dim_size in_x 0)) →
  i < dim_size in_x 0 → p < shape_dim out 1 → q < shape_dim out 2 →
  buf (LaunchBatchMatMulCPU.Launch ctx in_x in_y adj_x adj_y out st)
    !! (i * shape_dim out 1 * shape_dim out 2 + p * shape_dim out 2 + q)
  = Some (final_conj adj_x (coeff (kernel_expr in_x in_y adj_x adj_y i) p q)).
Proof.
  intros Hok Hsh Hi Hp Hq.
  destruct (Launch_units ctx in_x in_y adj_x adj_y out st (ok_int _ _ _ _ _ _ Hok) Hsh)
    as (d & us & st0 & -> & Hbuf & Hus).
  rewrite maybe_conjugate_buf, list_lookup_fmap, run_units_lookup; try done.
  - rewrite decide_True by (apply Hus; lia). done.
  - intros u Hu. split; [apply Hus in Hu; lia|].
    eapply kernel_expr_dims, Hok.
  - rewrite Hbuf, (launch_ok_out_length _ _ _ _ _ _ Hok).
    pose proof (offset_in_chip _ _ p q Hp Hq).
    pose proof (chips_ordered (shape_dim out 1) (shape_dim out 2) (dim_size in_x 0) i Hi).
    lia.
Qed.
End launch_result.

(** ** Launches and the range of int *)

Section shape_facts.
Context {T : Type} `{!ScalarKind T}.
Implicit Types (in_x in_y : Tensor T).

(** A launch within the range of [int] is a launch of valid shapes
    whose batch size is at most [INT_MAX]. *)
Lemma launch_ok_shapes in_x in_y adj_x adj_y (out : list nat) (b : list T) :
  launch_ok in_x in_y adj_x adj_y out b → launch_shapes in_x in_y adj_x adj_y out b.
Proof. intros []. by split. Qed.

Lemma launch_shapes_ok in_x in_y adj_x adj_y (out : list nat) (b : list T) :
  launch_shapes in_x in_y adj_x adj_y out b →
  (Z.of_nat (dim_size in_x 0) ≤ INT_MAX)%Z →
  launch_ok in_x in_y adj_x adj_y out b.
Proof. intros [] Hmax. by split. Qed.

Lemma kernel_expr_dims_shapes in_x in_y adj_x adj_y (out : list nat) (b : list T) i :
  launch_shapes in_x in_y adj_x adj_y out b →
  e_rows (kernel_expr in_x in_y adj_x adj_y i) = shape_dim out 1 ∧
  e_cols (kernel_expr in_x in_y adj_x adj_y i) = shape_dim out 2.
Proof.
  intros [_ _ _ _ _ _ -> -> _ _ _].
  unfold kernel_expr. by destruct IsComplex, adj_x, adj_y.
Qed.

Lemma launch_shapes_out_length in_x in_y adj_x adj_y (out : list nat) (b : list T) :
  launch_shapes in_x in_y adj_x adj_y out b →
  length b = dim_size in_x 0 * shape_dim out 1 * shape_dim out 2.
Proof.
  intros Hok. rewrite (ls_flat_out _ _ _ _ _ _ Hok).
  rewrite (shape_3 out) at 1 by apply Hok.
  by rewrite num_elements_3, (ls_batch_out _ _ _ _ _ _ Hok).
Qed.

(** The shapes bind the output buffer by its length alone. *)
Lemma launch_shapes_length in_x in_y adj_x adj_y (out : list nat) (b b' : list T) :
  launch_shapes in_x in_y adj_x adj_y out b → length b' = length b →
  launch_shapes in_x in_y adj_x adj_y out b'.
Proof. intros [] Hlen. split; try done. congruence. Qed.
End shape_facts.

(** ** Compute on the CPU *)

Section compute_cpu.
Context {T : Type} `{!ScalarKind T}.
Implicit Types (ctx : OpKernelContext T).

(** What [Compute] hands to [Launch] has valid shapes, whatever the
    size of the batch. *)
Lemma call_ok_launch_shapes ctx adj_x adj_y storage :
  call_ok ctx adj_x adj_y storage →
  launch_shapes (reshaped (input0 ctx)) (reshaped (input1 ctx)) adj_x adj_y
    (reshaped_out (input0 ctx) (input1 ctx) adj_x adj_y) storage.
Proof.
  intros [Hs Hf0 Hf1 Ha Hst]. pose proof Hs as [Hr Hr2 Hb Hc].
  split; try done.
  all: try (by destruct adj_x); try (by destruct adj_y).
  - unfold dim_size, shape_dim. simpl. by rewrite (batch_shape_eq _ _ _ _ Hs).
  - simpl. rewrite Hf0. unfold NumElements at 2. simpl.
    apply NumElements_split. done.
  - simpl. rewrite Hf1. unfold NumElements at 2. simpl.
    apply NumElements_split. lia.
  - by rewrite Hst, num_elements_product.
Qed.

(** It is a launch within the range of [int] when the batch is. *)
Lemma call_ok_launch_ok ctx adj_x adj_y storage :
  call_ok ctx adj_x adj_y storage →
  (Z.of_nat (num_elements (batch_shape (input0 ctx))) ≤ INT_MAX)%Z →
  launch_ok (reshaped (input0 ctx)) (reshaped (input1 ctx)) adj_x adj_y
    (reshaped_out (input0 ctx) (input1 ctx) adj_x adj_y) storage.
Proof.
  intros [Hs Hf0 Hf1 Ha Hst] Hmax. pose proof Hs as [Hr Hr2 Hb Hc].
  split; try done.
  all: try (by destruct adj_x); try (by destruct adj_y).
  - unfold dim_size, shape_dim. simpl. by rewrite (batch_shape_eq _ _ _ _ Hs).
  - simpl. rewrite Hf0. unfold NumElements at 2. simpl.
    apply NumElements_split. done.
  - simpl. rewrite Hf1. unfold NumElements at 2. simpl.
    apply NumElements_split. lia.
  - by rewrite Hst, num_elements_product.
Qed.

(** A valid call with no empty tensor returns what [Launch] leaves. *)
Lemma Compute_launches d ctx adj_x adj_y storage :
  call_ok ctx adj_x adj_y storage →
  storage ≠ [] →
  NumElements (input0 ctx) ≠ 0 → NumElements (input1 ctx) ≠ 0 →
  BatchMatMul.Compute d ctx adj_x adj_y =
  Returned
    (BatchMatMul.LaunchBatchMatMul d ctx (reshaped (input0 ctx))
       (reshaped (input1 ctx)) adj_x adj_y
       (reshaped_out (input0 ctx) (input1 ctx) adj_x adj_y)
       (allocated (product_shape (input0 ctx) (input1 ctx) adj_x adj_y) storage)).
Proof.
  intros [Hs Hf0 Hf1 Ha Hst] Hne H0 H1.
  rewrite Compute_accepted by done. rewrite Ha.
  rewrite bool_decide_eq_false_2.
  2:{ rewrite <-Hst. by destruct storage. }
  by rewrite !bool_decide_eq_false_2.
Qed.
End compute_cpu.

(** ** The scratch allocator and the GPU launch *)

Section gpu_facts.
Context {T : Type} `{!ScalarKind T}.
Implicit Types (ctx : OpKernelContext T).

Lemma AllocateBytes_is_value ctx byte_size self tr :
  is_value (LaunchBatchMatMulGPU.AllocateBytes ctx byte_size self tr).1.1.
Proof.
  unfold LaunchBatchMatMulGPU.AllocateBytes.
  destruct (allocate_temp ctx _ _); simpl; by eexists.
Qed.

Lemma AllocateBytes_failed ctx byte_size self tr e :
  allocate_temp ctx (allocated_tensors_ self) byte_size = inl e →
  LaunchBatchMatMulGPU.AllocateBytes ctx byte_size self tr =
  (stub, self, tr ++ [EvAllocateTemp byte_size]).
Proof. intros He. unfold LaunchBatchMatMulGPU.AllocateBytes. by rewrite He. Qed.

Lemma serve_requests_snoc ctx rs r alloc tr :
  LaunchBatchMatMulGPU.serve_requests ctx (rs ++ [r]) alloc tr =
  let acc := LaunchBatchMatMulGPU.serve_requests ctx rs alloc tr in
  let a := LaunchBatchMatMulGPU.AllocateBytes ctx r acc.1.2 acc.2 in
  (acc.1.1 ++ [a.1.1], a.1.2, a.2).
Proof. unfold LaunchBatchMatMulGPU.serve_requests. by rewrite foldl_snoc. Qed.

(** The runtime never receives an error from the allocator. *)
Lemma serve_requests_values ctx rs alloc tr :
  Forall is_value (LaunchBatchMatMulGPU.serve_requests ctx rs alloc tr).1.1.
Proof.
  induction rs as [|r rs IH] using rev_ind; [by constructor|].
  rewrite serve_requests_snoc. simpl. apply Forall_app. split; [done|].
  constructor; [|constructor]. apply AllocateBytes_is_value.
Qed.

(** When no temporary can be allocated, every request is served with
    the stub and the allocator holds nothing. *)
Lemma serve_requests_all_failed ctx rs alloc tr :
  (∀ temps byte_size, ∃ e, allocate_temp ctx temps byte_size = inl e) →
  (LaunchBatchMatMulGPU.serve_requests ctx rs alloc tr).1 =
  (replicate (length rs) stub, alloc).
Proof.
  intros Hfail. induction rs as [|r rs IH] using rev_ind; [done|].
  rewrite serve_requests_snoc. simpl.
  destruct (LaunchBatchMatMulGPU.serve_requests ctx rs alloc tr) as [[res al] tr'].
  simpl in *. injection IH as -> ->.
  destruct (Hfail (allocated_tensors_ alloc) r) as [e He].
  rewrite (AllocateBytes_failed _ _ _ _ _ He). simpl.
  rewrite length_app. simpl. rewrite Nat.add_1_r.
  by rewrite replicate_S_end.
Qed.

(** The status of the call after a GPU launch over an available stream
    is decided by the runtime's answer alone. *)
Lemma Launch_gpu_status ctx s in_x in_y adj_x adj_y out (st : KernelState T) :
  stream ctx = Some s → status st = OK →
  let call := LaunchBatchMatMulGPU.blas_call in_x in_y adj_x adj_y in
  let served :=
    LaunchBatchMatMulGPU.serve_requests ctx (scratch_requests s call)
      (MkAllocator []) (trace (store st) ++ [EvGemm call]) in
  status (LaunchBatchMatMulGPU.Launch ctx in_x in_y adj_x adj_y out st) =
  if launch_accepted s call served.1.1 then OK
  else Internal
         [PStr "Blas SGEMMBatched launch failed : a.shape=";
          PShape (shape in_x); PStr ", b.shape="; PShape (shape in_y);
          PStr ", m="; PInt (Z.of_nat (dim_size in_x (if adj_x then 2 else 1)));
          PStr ", n="; PInt (Z.of_nat (dim_size in_y (if adj_y then 1 else 2)));
          PStr ", k="; PInt (Z.of_nat (dim_size in_x (if adj_x then 1 else 2)));
          PStr ", batch_size="; PInt (Z.of_nat (dim_size in_x 0))].
Proof.
  intros Hs Hst call served. unfold LaunchBatchMatMulGPU.Launch. rewrite Hs.
  unfold LaunchBatchMatMulGPU.ThenBlasGemmBatchedWithScratch. simpl.
  fold call. fold served.
  destruct (launch_accepted s call served.1.1); simpl; [done|].
  unfold SetStatus. simpl. by rewrite Hst.
Qed.

Lemma LaunchBatchMatMul_output d ctx in_x in_y adj_x adj_y out (st : KernelState T) :
  output (BatchMatMul.LaunchBatchMatMul d ctx in_x in_y adj_x adj_y out st) = output st.
Proof.
  destruct d; simpl; [done|].
  unfold LaunchBatchMatMulGPU.Launch.
  destruct (stream ctx); [|done].
  by destruct (negb _).
Qed.
End gpu_facts.

(** ** The concrete kinds and calls *)

#[export] Instance cplx_laws : ScalarLaws cplx.
Proof.
  split.
  - done.
  - intros [a b] [c d]. simpl. f_equal. lia.
  - intros [a b] [c d]. simpl. f_equal; lia.
  - intros [a b]. simpl. f_equal. lia.
Qed.

#[export] Instance int32_laws : ScalarLaws int32.
Proof. by split. Qed.

Lemma plan_reversed_sharding_2 : is_sharding 2 (Examples.plan_reversed 2).
Proof.
  split.
  - repeat constructor; simpl; lia.
  - apply perm_swap.
Qed.

Lemma pool_sharder_ok_2 : sharder_ok Examples.pool 2.
Proof. intros mp cost. apply plan_reversed_sharding_2. Qed.


(** ** The CPU backend *)

Section cpu_results.
Context {T : Type} `{!ScalarKind T}.
Implicit Types (ctx : CpuContext) (st : Store T).

Lemma direct_product_dims in_x in_y adj_x adj_y out (b : list T) i :
  launch_ok in_x in_y adj_x adj_y out b →
  e_rows (direct_product adj_x adj_y (chip_of in_x i) (chip_of in_y i)) = shape_dim out 1 ∧
  e_cols (direct_product adj_x adj_y (chip_of in_x i) (chip_of in_y i)) = shape_dim out 2.
Proof.
  intros [_ _ _ _ _ _ -> -> _ _ _ _].
  unfold direct_product, adjoint. by destruct IsComplex, adj_x, adj_y.
Qed.

(** The end-to-end result of a valid CPU call with no empty tensor. *)
Lemma Compute_cpu_result `{!ScalarLaws T} (octx : OpKernelContext T) adj_x adj_y storage :
  call_ok octx adj_x adj_y storage →
  storage ≠ [] →
  NumElements (input0 octx) ≠ 0 → NumElements (input1 octx) ≠ 0 →
  (Z.of_nat (num_elements (batch_shape (input0 octx))) ≤ INT_MAX)%Z →
  (num_elements (batch_shape (input0 octx)) ≠ 1 →
   sharder_ok (cpu octx) (num_elements (batch_shape (input0 octx)))) →
  ∃ s,
    BatchMatMul.Compute CPUDevice octx adj_x adj_y = Returned s ∧
    status s = OK ∧
    output s = Some (product_shape (input0 octx) (input1 octx) adj_x adj_y) ∧
    ∀ i p q,
      i < num_elements (batch_shape (input0 octx)) →
      p < eff_rows adj_x (input0 octx) → q < eff_cols adj_y (input1 octx) →
      buf (store s) !! (i * eff_rows adj_x (input0 octx) * eff_cols adj_y (input1 octx)
                        + p * eff_cols adj_y (input1 octx) + q)
      = Some (coeff (direct_product adj_x adj_y
                       (chip_of (reshaped (input0 octx)) i)
                       (chip_of (reshaped (input1 octx)) i)) p q).
Proof.
  intros Hok Hne H0 H1 Hmax Hsh.
  eexists. split; [by eapply Compute_launches|]. simpl.
  split; [done|]. split; [done|]. intros i p q Hi Hp Hq.
  pose proof (call_ok_launch_ok _ _ _ _ Hok Hmax) as Hl.
  pose proof (Launch_lookup (cpu octx) _ _ _ _ _ (MkStore storage
    [EvAllocateOutput (product_shape (input0 octx) (input1 octx) adj_x adj_y)])
    i p q Hl Hsh Hi Hp Hq) as Hlook.
  rewrite kernel_expr_direct in Hlook. exact Hlook.
Qed.

(** X15.  Within the range of [int] the CPU launch computes the direct
    definition.  After a launch of valid shapes whose batch size is at
    most [INT_MAX], whatever the adjoint flags and for complex as for
    real kinds, every batch slice [i] of the output is the direct
    product [adjoint_if adj_x X[i] · adjoint_if adj_y Y[i]]: it has its
    dimensions and, element by element, its coefficients.  In
    particular a call of [Compute] with a left input of shape
    [[8, 16]], a right input of shape [[32, 16]], [adj_x = false] and
    [adj_y = true] succeeds with an output of shape [[8, 32]] equal to
    [left · adjoint right], the adjoint being the transpose of the
    conjugate for a complex kind. *)
Theorem Launch_equals_direct_adjoint_product `{!ScalarLaws T} :
  (∀ ctx in_x in_y adj_x adj_y out st,
     launch_shapes in_x in_y adj_x adj_y out (buf st) →
     (Z.of_nat (dim_size in_x 0) ≤ INT_MAX)%Z →
     sharder_ok ctx (dim_size in_x 0) →
     let st' := LaunchBatchMatMulCPU.Launch ctx in_x in_y adj_x adj_y out st in
     length (buf st') = num_elements out ∧
     ∀ i, i < dim_size in_x 0 →
       let z := direct_product adj_x adj_y (chip_of in_x i) (chip_of in_y i) in
       e_rows z = shape_dim out 1 ∧ e_cols z = shape_dim out 2 ∧
       ∀ p q, p < shape_dim out 1 → q < shape_dim out 2 →
         buf st' !! (i * shape_dim out 1 * shape_dim out 2 + p * shape_dim out 2 + q)
         = Some (coeff z p q)) ∧
  (∀ (octx : OpKernelContext T) storage,
     shape (input0 octx) = [8; 16] → shape (input1 octx) = [32; 16] →
     length (flat (input0 octx)) = 128 → length (flat (input1 octx)) = 512 →
     allocate_output octx [8; 32] = inr storage → length storage = 256 →
     ∃ s,
       BatchMatMul.Compute CPUDevice octx false true = Returned s ∧
       status s = OK ∧ output s = Some [8; 32] ∧
       (IsComplex = true →
        adjoint (as_matrix (input1 octx)) =
        transpose (conjugate (as_matrix (input1 octx)))) ∧
       ∀ p q, p < 8 → q < 32 →
         buf (store s) !! (p * 32 + q) =
         Some (coeff (matmul (as_matrix (input0 octx))
                        (adjoint (as_matrix (input1 octx)))) p q)).
Proof.
  split.
  - intros ctx in_x in_y adj_x adj_y out st Hls Hmax Hsh st'.
    pose proof (launch_shapes_ok _ _ _ _ _ _ Hls Hmax) as Hok. split.
    + unfold st'. rewrite Launch_length; [apply Hok|apply Hok|done].
    + intros i Hi z.
      destruct (direct_product_dims _ _ _ _ _ _ i Hok) as [Hr Hc].
      split; [done|]. split; [done|]. intros p q Hp Hq.
      unfold st'. rewrite Launch_lookup by done.
      by rewrite kernel_expr_direct.
  - intros octx storage Hs0 Hs1 Hl0 Hl1 Halloc Hlen.
    assert (call_ok octx false true storage) as Hok.
    { split.
      - split; unfold dims, eff_cols, eff_rows, rows_of, cols_of, dim_size, dims;
          rewrite ?Hs0, ?Hs1; simpl; try done. intros j Hj. lia.
      - unfold NumElements. by rewrite Hs0, Hl0.
      - unfold NumElements. by rewrite Hs1, Hl1.
      - unfold product_shape, batch_shape, eff_cols, eff_rows, rows_of, cols_of,
          dim_size, dims. by rewrite Hs0, Hs1.
      - unfold product_shape, batch_shape, eff_cols, eff_rows, rows_of, cols_of,
          dim_size, dims. by rewrite Hs0, Hs1. }
    assert (batch_shape (input0 octx) = []) as Hb.
    { unfold batch_shape, dims. by rewrite Hs0. }
    destruct (Compute_cpu_result octx false true storage Hok) as (s & Hc & Hst & Hout & Hel).
    + by destruct storage.
    + unfold NumElements. by rewrite Hs0.
    + unfold NumElements. by rewrite Hs1.
    + rewrite Hb. by vm_compute.
    + rewrite Hb. done.
    + exists s. split; [done|]. split; [done|]. split.
      { rewrite Hout. unfold product_shape, eff_rows, eff_cols, rows_of, cols_of,
          dim_size, dims. by rewrite Hb, Hs0, Hs1. }
      split.
      { intros Hcx. unfold adjoint. by rewrite Hcx. }
      intros p q Hp Hq.
      specialize (Hel 0 p q). 
      unfold eff_rows, eff_cols, rows_of, cols_of, dim_size, dims in Hel.
      rewrite Hb, Hs0, Hs1 in Hel. unfold shape_dim in Hel. simpl in Hel.
      rewrite Hel by lia. f_equal.
      unfold direct_product, as_matrix, chip_of, reshaped, rows_of, cols_of,
        dim_size, dims. rewrite Hb, Hs0, Hs1. done.
Qed.
End cpu_results.

Ltac by_evaluation := vm_compute; first [reflexivity | lia | discriminate | done].

Lemma launch_ok_2x2x3 :
  launch_ok Examples.x_2x2x3 Examples.y_2x2x3 true false [2; 3; 3] (Examples.garbage 18).
Proof. split; by_evaluation. Qed.

Lemma Launch_equals_direct_adjoint_product_witness :
  (∀ i p q, i < 2 → p < 3 → q < 3 →
     buf (LaunchBatchMatMulCPU.Launch Examples.pool Examples.x_2x2x3 Examples.y_2x2x3
            true false [2; 3; 3] (MkStore (Examples.garbage 18) []))
       !! (i * 3 * 3 + p * 3 + q)
     = Some (coeff (direct_product true false (chip_of Examples.x_2x2x3 i)
                      (chip_of Examples.y_2x2x3 i)) p q)) ∧
  (∃ s,
     BatchMatMul.Compute CPUDevice
       (Examples.context Examples.left_8x16 Examples.right_32x16 None) false true
     = Returned s ∧
     status s = OK ∧ output s = Some [8; 32] ∧
     ∀ p q, p < 8 → q < 32 →
       buf (store s) !! (p * 32 + q) =
       Some (coeff (matmul (as_matrix Examples.left_8x16)
                      (transpose (conjugate (as_matrix Examples.right_32x16)))) p q)).
Proof.
  destruct (Launch_equals_direct_adjoint_product (T := cplx)) as [Hgen Hsc].
  split.
  - intros i p q Hi Hp Hq.
    destruct (Hgen Examples.pool Examples.x_2x2x3 Examples.y_2x2x3 true false [2; 3; 3]
                (MkStore (Examples.garbage 18) [])
                (launch_ok_shapes _ _ _ _ _ _ launch_ok_2x2x3)
                (ok_int _ _ _ _ _ _ launch_ok_2x2x3) pool_sharder_ok_2)
      as [_ Hel].
    destruct (Hel i Hi) as (_ & _ & Hpq). exact (Hpq p q Hp Hq).
  - destruct (Hsc (Examples.context Examples.left_8x16 Examples.right_32x16 None)
                (Examples.garbage 256)) as (s & Hc & Hst & Hout & _ & Hel);
      [reflexivity..|].
    exists s. split; [exact Hc|]. split; [exact Hst|]. split; [exact Hout|].
    exact Hel.
Defined.

Lemma seqZ_one (m : Z) : seqZ m (m + 1 - m) = [m].
Proof.
  replace (m + 1 - m)%Z with 1%Z by lia. reflexivity.
Qed.

Section dispatch_results.
Context {T : Type} `{!ScalarKind T}.
Implicit Types (ctx : CpuContext) (st : Store T).

End dispatch_results.

Lemma launch_ok_1x1x1 :
  launch_ok Examples.x_i Examples.y_one true false [1; 1; 1] (Examples.garbage 1).
Proof. split; by_evaluation. Qed.


(** ** The contraction kernel *)

Section kernel_results.
Context {T : Type} `{!ScalarKind T}.
Implicit Types (ctx : CpuContext) (st : Store T).

(** C4.  Each specialisation of the kernel selects the contraction pair
    from the flags in the same way: (false, false) contracts axis 1 of
    the left operand with axis 0 of the right one, (true, true) axis 0
    with axis 1, (false, true) axis 1 with axis 1 and (true, false)
    axis 0 with axis 0.  Contracting over the pair [(a, b)] sums, over
    the index [k] of axis [a] of the left operand, the products of the
    coefficients whose index along [a], respectively along [b] in the
    right operand, is [k]; and the expression [Run] assigns to a unit is
    the contraction of its two operands over the selected pair. *)
Theorem contract_pairs_selection :
  InnerBatchMatMulKernel.contract_pairs false false = (1, 0) ∧
  InnerBatchMatMulKernel.contract_pairs true true = (0, 1) ∧
  InnerBatchMatMulKernel.contract_pairs false true = (1, 1) ∧
  InnerBatchMatMulKernel.contract_pairs true false = (0, 0) ∧
  InnerBatchMatMulKernelReal.contract_pairs false false = (1, 0) ∧
  InnerBatchMatMulKernelReal.contract_pairs true true = (0, 1) ∧
  InnerBatchMatMulKernelReal.contract_pairs false true = (1, 1) ∧
  InnerBatchMatMulKernelReal.contract_pairs true false = (0, 0) ∧
  (∀ (x y : Expr2 T) a b p q,
     coeff (contract x y (a, b)) p q =
     sum_upto (dimension x a)
       (λ k, scalar_mul (coeff_along x a k p) (coeff_along y b k q))) ∧
  (∀ pi Tx Ty adj_x adj_y Tz (i : Z) st,
     buf (InnerBatchMatMulKernel.Run pi Tx Ty adj_x adj_y Tz i (i + 1) st) =
     assign_chip Tz (Z.to_nat i)
       (contract (chip_of Tx (Z.to_nat i))
          (if negb (eqb adj_x adj_y) then conjugate (chip_of Ty (Z.to_nat i))
           else chip_of Ty (Z.to_nat i))
          (InnerBatchMatMulKernel.contract_pairs adj_x adj_y))
       (buf st)) ∧
  (∀ pi Tx Ty adj_x adj_y Tz (i : Z) st,
     buf (InnerBatchMatMulKernelReal.Run pi Tx Ty adj_x adj_y Tz i (i + 1) st) =
     assign_chip Tz (Z.to_nat i)
       (contract (chip_of Tx (Z.to_nat i)) (chip_of Ty (Z.to_nat i))
          (InnerBatchMatMulKernelReal.contract_pairs adj_x adj_y))
       (buf st)).
Proof.
  split_and!; try done.
  - intros pi Tx Ty adj_x adj_y Tz i st.
    unfold InnerBatchMatMulKernel.Run. rewrite seqZ_one. simpl.
    by destruct pi, (negb (eqb adj_x adj_y)).
  - intros pi Tx Ty adj_x adj_y Tz i st.
    unfold InnerBatchMatMulKernelReal.Run. rewrite seqZ_one. simpl.
    by destruct pi.
Qed.

(** The shards of a plan, run one after the other, are one run over
    the units of the plan. *)
Lemma fold_Run_units pi Tx Ty adj_x adj_y Tz (plan : list (Z * Z)) st :
  foldl (λ st r, LaunchBatchMatMulCPU.Kernel_Run pi Tx Ty adj_x adj_y Tz r.1 r.2 st)
    st plan =
  run_units (device_of pi) Tz (kernel_expr Tx Ty adj_x adj_y)
    (plan ≫= shard_units) st.
Proof.
  revert st. induction plan as [|r plan IH]; intros st; [done|].
  simpl. rewrite IH, run_units_app. f_equal. apply Kernel_Run_units.
Qed.

(** C5, as the code has it.  For a complex kind the kernel conjugates
    the right operand, element by element, exactly when
    [adj_x ≠ adj_y], and never conjugates its result; [Launch] then
    conjugates the whole result once exactly when [adj_x] holds, in the
    case [adj_x = adj_y] and in the case [adj_x ≠ adj_y] alike.  What
    this leaves in the output is the product of the operands
    conjugated (and transposed) one by one. *)
Theorem conjugation_scheme `{!ScalarLaws T} ctx in_x in_y adj_x adj_y out st :
  IsComplex = true →
  launch_ok in_x in_y adj_x adj_y out (buf st) →
  sharder_ok ctx (dim_size in_x 0) →
  let st' := LaunchBatchMatMulCPU.Launch ctx in_x in_y adj_x adj_y out st in
  let operand i :=
    if negb (eqb adj_x adj_y) then conjugate (chip_of in_y i) else chip_of in_y i in
  let kernel i :=
    contract (chip_of in_x i) (operand i)
      (InnerBatchMatMulKernel.contract_pairs adj_x adj_y) in
  (∀ pi (i : nat) s,
     buf (LaunchBatchMatMulCPU.Kernel_Run pi in_x in_y adj_x adj_y out
            (Z.of_nat i) (Z.of_nat i + 1) s) =
     assign_chip out i (kernel i) (buf s)) ∧
  (∃ us, trace st' =
         trace st ++ us ++ (if adj_x then [EvConjugate] else []) ∧
         EvConjugate ∉ us) ∧
  ∀ i p q, i < dim_size in_x 0 → p < shape_dim out 1 → q < shape_dim out 2 →
    buf st' !! (i * shape_dim out 1 * shape_dim out 2 + p * shape_dim out 2 + q)
    = Some ((if adj_x then scalar_conj else id) (coeff (kernel i) p q)) ∧
    (if adj_x then scalar_conj else id) (coeff (kernel i) p q) =
    coeff (matmul
             (if adj_x then transpose (conjugate (chip_of in_x i)) else chip_of in_x i)
             (if adj_y then transpose (conjugate (chip_of in_y i)) else chip_of in_y i))
      p q.
Proof.
  intros Hcx Hok Hsh st' operand kernel.
  assert (∀ i, kernel_expr in_x in_y adj_x adj_y i = kernel i) as Hk.
  { intros i. unfold kernel_expr. by rewrite Hcx. }
  assert (∀ a : T, final_conj adj_x a = (if adj_x then scalar_conj else id) a) as Hf.
  { intros a. unfold final_conj. by rewrite Hcx. }
  split_and!.
  - intros pi i s. rewrite Kernel_Run_units, seqZ_one. simpl.
    by rewrite Nat2Z.id, Hk.
  - destruct (Launch_units ctx in_x in_y adj_x adj_y out st) as (d & us & st0 & Heq & _ & _);
      [apply Hok|done|].
    destruct (LaunchBatchMatMulCPU.sequential_branch in_x out) eqn:Hb.
    + exists (EvContract ThreadPoolDevice <$> seqZ 0 (Z.of_nat (dim_size in_x 0))).
      split.
      * unfold st'. rewrite Launch_sequential by (done || apply Hok).
        rewrite maybe_conjugate_trace, run_units_trace, Hcx, <-app_assoc.
        by destruct adj_x.
      * intros Hin. apply list_elem_of_fmap in Hin as (u & Hu & _). done.
    + eexists (EvShard _ _ _ :: (EvContract _ <$> _)).
      split.
      * unfold st'. rewrite Launch_sharded by (done || apply Hok).
        rewrite maybe_conjugate_trace, run_units_trace, Hcx. simpl.
        rewrite <-!app_assoc. simpl. by destruct adj_x.
      * intros Hin. apply elem_of_cons in Hin as [Hin|Hin]; [done|].
        apply list_elem_of_fmap in Hin as (u & Hu & _). done.
  - intros i p q Hi Hp Hq. split.
    + unfold st'. rewrite Launch_lookup by done. by rewrite Hf, Hk.
    + rewrite <-Hf, <-Hk, kernel_expr_direct.
      unfold direct_product, adjoint. by rewrite Hcx.
Qed.
End kernel_results.

(** C5, as it is stated, fails for (adj_x, adj_y) = (true, false): with
    the [1 × 1] operands [i] and [1] the kernel, which conjugates the
    right operand, leaves [i · conj 1 = i], and the result is not left as
    it is, for [Launch] conjugates it to [-i], the adjoint product
    [conj i · 1]. *)
Lemma conjugation_scheme_counterexample :
  let st := MkStore (Examples.garbage 1) [] in
  launch_ok Examples.x_i Examples.y_one true false [1; 1; 1] (buf st) ∧
  true ≠ false ∧
  buf (LaunchBatchMatMulCPU.Kernel_Run true Examples.x_i Examples.y_one
         true false [1; 1; 1] 0 1 st) = [Cplx 0 1] ∧
  buf (LaunchBatchMatMulCPU.Launch Examples.pool Examples.x_i Examples.y_one
         true false [1; 1; 1] st) = [Cplx 0 (-1)] ∧
  buf (LaunchBatchMatMulCPU.Launch Examples.pool Examples.x_i Examples.y_one
         true false [1; 1; 1] st) ≠
  buf (LaunchBatchMatMulCPU.Kernel_Run true Examples.x_i Examples.y_one
         true false [1; 1; 1] 0 1 st).
Proof.
  split; [apply launch_ok_1x1x1|]. split; [discriminate|].
  split; [reflexivity|]. split; [reflexivity|]. vm_compute. discriminate.
Qed.

Lemma conjugation_scheme_witness :
  buf (LaunchBatchMatMulCPU.Launch Examples.pool Examples.x_2x2x3 Examples.y_2x2x3
         true false [2; 3; 3] (MkStore (Examples.garbage 18) []))
    !! (1 * 3 * 3 + 2 * 3 + 1)
  = Some (coeff (matmul (transpose (conjugate (chip_of Examples.x_2x2x3 1)))
                   (chip_of Examples.y_2x2x3 1)) 2 1).
Proof.
  destruct (@conjugation_scheme cplx cplx_kind cplx_laws Examples.pool
              Examples.x_2x2x3 Examples.y_2x2x3 true false [2; 3; 3]
              (MkStore (Examples.garbage 18) [])
              eq_refl launch_ok_2x2x3 pool_sharder_ok_2) as (_ & _ & Hel).
  destruct (Hel 1 2 1) as [Hlook Heq]; [by_evaluation..|].
  rewrite <-Heq. exact Hlook.
Defined.

(** ** Sharding *)

Section sharding_results.
Context {T : Type} `{!ScalarKind T}.
Implicit Types (ctx : CpuContext) (st : Store T).

Lemma is_sharding_units total plan u :
  is_sharding total plan →
  u ∈ plan ≫= shard_units ↔ (0 ≤ u < Z.of_nat total)%Z.
Proof. intros [_ Hperm]. rewrite Hperm, elem_of_seqZ. lia. Qed.

Lemma is_sharding_Permutation total plan plan' :
  plan ≡ₚ plan' → is_sharding total plan → is_sharding total plan'.
Proof. intros Hp [Hb Hu]. split; by rewrite <-Hp. Qed.

(** X16.  Sharded runs and the sequential run, with bounds that are not
    converted.  Let the plan be any partition of the batch range
    [[0, N)] into disjoint contiguous sub-ranges, in any order.  Running
    the kernel once per sub-range, on the bounds as they are, contracts
    every unit exactly once, writes to each matrix of the output the
    kernel's expression for its unit, and leaves the very output buffer
    that one run over [[0, N)] leaves, whatever the parallelize_inner
    flag of either; reordering the plan changes nothing, and neither
    does interleaving the units of its shards in any way.  A launch
    converts the bounds to [int]: when [N] is at most [INT_MAX] its
    output does not depend on the context, that is, on the size of the
    thread pool and on the sharding the work sharder chooses. *)
Theorem sharded_runs_equal_sequential_run in_x in_y adj_x adj_y out st plan :
  launch_shapes in_x in_y adj_x adj_y out (buf st) →
  is_sharding (dim_size in_x 0) plan →
  let N := dim_size in_x 0 in
  let sharded pi plan :=
    foldl (λ s r, LaunchBatchMatMulCPU.Kernel_Run pi in_x in_y adj_x adj_y out r.1 r.2 s)
      st plan in
  let sequential pi :=
    LaunchBatchMatMulCPU.Kernel_Run pi in_x in_y adj_x adj_y out 0 (Z.of_nat N) st in
  (∀ pi pi', buf (sharded pi plan) = buf (sequential pi')) ∧
  (∀ pi i p q, i < N → p < shape_dim out 1 → q < shape_dim out 2 →
     buf (sharded pi plan)
       !! (i * shape_dim out 1 * shape_dim out 2 + p * shape_dim out 2 + q) =
     Some (coeff (kernel_expr in_x in_y adj_x adj_y i) p q)) ∧
  (∀ pi, ∃ us, trace (sharded pi plan) = trace st ++ (EvContract (device_of pi) <$> us) ∧
               us ≡ₚ seqZ 0 (Z.of_nat N)) ∧
  (∀ pi plan', plan ≡ₚ plan' → buf (sharded pi plan') = buf (sharded pi plan)) ∧
  (∀ d pi us, us ≡ₚ plan ≫= shard_units →
     buf (run_units d out (kernel_expr in_x in_y adj_x adj_y) us st) =
     buf (sequential pi)) ∧
  ((Z.of_nat N ≤ INT_MAX)%Z →
   ∀ ctx ctx', sharder_ok ctx N → sharder_ok ctx' N →
     buf (LaunchBatchMatMulCPU.Launch ctx in_x in_y adj_x adj_y out st) =
     buf (LaunchBatchMatMulCPU.Launch ctx' in_x in_y adj_x adj_y out st)).
Proof.
  intros Hok Hplan N sharded sequential.
  pose proof (launch_shapes_out_length _ _ _ _ _ _ Hok) as Hlength.
  assert (∀ us : list Z, (∀ u, u ∈ us → (0 ≤ u)%Z) →
    ∀ u, u ∈ us → (0 ≤ u)%Z ∧
      e_rows (kernel_expr in_x in_y adj_x adj_y (Z.to_nat u)) = shape_dim out 1 ∧
      e_cols (kernel_expr in_x in_y adj_x adj_y (Z.to_nat u)) = shape_dim out 2) as Hdims.
  { intros us Hus u Hu. split; [by apply Hus|]. eapply kernel_expr_dims_shapes, Hok. }
  assert (∀ plan', is_sharding N plan' → ∀ pi pi',
    buf (sharded pi plan') = buf (sequential pi')) as Hmain.
  { intros plan' Hplan' pi pi'. unfold sharded, sequential.
    rewrite fold_Run_units, Kernel_Run_units, Z.sub_0_r.
    eapply (run_units_buf_eq _ _ _ _ _ _ N); try done.
    - intros u. rewrite (is_sharding_units _ _ _ Hplan'), elem_of_seqZ. lia.
    - apply Hdims. intros u Hu. apply (is_sharding_units _ _ _ Hplan') in Hu. lia. }
  split_and!.
  - by apply Hmain.
  - intros pi i p q Hi Hp Hq. unfold sharded.
    rewrite fold_Run_units, run_units_lookup; try done.
    + rewrite decide_True; [done|]. apply (is_sharding_units _ _ _ Hplan). lia.
    + apply Hdims. intros u Hu. apply (is_sharding_units _ _ _ Hplan) in Hu. lia.
    + rewrite Hlength.
      pose proof (offset_in_chip _ _ p q Hp Hq).
      pose proof (chips_ordered (shape_dim out 1) (shape_dim out 2) N i Hi).
      lia.
  - intros pi. exists (plan ≫= shard_units). split; [|apply Hplan].
    unfold sharded. by rewrite fold_Run_units, run_units_trace.
  - intros pi plan' Hperm.
    rewrite (Hmain plan' (is_sharding_Permutation _ _ _ Hperm Hplan) pi pi).
    by rewrite (Hmain plan Hplan pi pi).
  - intros d pi us Hperm. unfold sequential.
    rewrite Kernel_Run_units, Z.sub_0_r.
    assert (∀ u, u ∈ us ↔ (0 ≤ u < Z.of_nat N)%Z) as Hus.
    { intros u. by rewrite Hperm, (is_sharding_units _ _ _ Hplan). }
    eapply (run_units_buf_eq _ _ _ _ _ _ N); try done.
    + intros u. rewrite Hus, elem_of_seqZ. lia.
    + apply Hdims. intros u Hu. apply Hus in Hu. lia.
  - intros Hmax ctx ctx' Hsh Hsh'.
    destruct (Launch_units ctx in_x in_y adj_x adj_y out st) as (d & us & st0 & -> & Hb & Hus);
      [done|done|].
    destruct (Launch_units ctx' in_x in_y adj_x adj_y out st) as (d' & us' & st0' & -> & Hb' & Hus');
      [done|done|].
    rewrite !maybe_conjugate_buf. f_equal.
    eapply (run_units_buf_eq _ _ _ _ _ _ N); try done.
    + intros u. by rewrite Hus, Hus'.
    + apply Hdims. intros u Hu. apply Hus in Hu. lia.
    + by rewrite Hb.
    + by rewrite Hb, Hb'.
Qed.
End sharding_results.

Lemma sharded_runs_equal_sequential_run_witness :
  buf (foldl (λ s r, LaunchBatchMatMulCPU.Kernel_Run false Examples.x_2x2x3
                       Examples.y_2x2x3 true false [2; 3; 3] r.1 r.2 s)
         (MkStore (Examples.garbage 18) []) [(1, 2); (0, 1)]%Z) =
  buf (LaunchBatchMatMulCPU.Kernel_Run true Examples.x_2x2x3 Examples.y_2x2x3
         true false [2; 3; 3] 0 2 (MkStore (Examples.garbage 18) [])).
Proof.
  destruct (sharded_runs_equal_sequential_run Examples.x_2x2x3 Examples.y_2x2x3
              true false [2; 3; 3] (MkStore (Examples.garbage 18) [])
              (Examples.plan_reversed 2) (launch_ok_shapes _ _ _ _ _ _ launch_ok_2x2x3)
              plan_reversed_sharding_2)
    as [Heq _].
  exact (Heq false true).
Defined.

(** ** The top-level kernel *)

Lemma fmap_const_replicate {A B} (b : B) (l : list A) :
  (λ _, b) <$> l = replicate (length l) b.
Proof. induction l as [|a l IH]; simpl; [done|]. by rewrite <-IH. Qed.

Section compute_results.
Context {T : Type} `{!ScalarKind T}.
Implicit Types (ctx : OpKernelContext T) (d : Device).

(** C2, as the code has it.  The output of a valid call is allocated
    with the leading dimensions of the inputs followed by [[d0, d3]]
    taken after the swaps: the second-to-last dimension of input 0, or
    its last one when [adj_x] holds, then the last dimension of input
    1, or its second-to-last one when [adj_y] holds.  With neither flag
    these are the dimensions of the inputs as given. *)
Theorem output_shape_after_swaps d ctx adj_x adj_y storage :
  call_ok ctx adj_x adj_y storage →
  let in0 := input0 ctx in
  let in1 := input1 ctx in
  let d0 := if adj_x then cols_of in0 else rows_of in0 in
  let d3 := if adj_y then rows_of in1 else cols_of in1 in
  ∃ s,
    BatchMatMul.Compute d ctx adj_x adj_y = Returned s ∧
    output s = Some (batch_shape in0 ++ [d0; d3]) ∧
    (adj_x = false → adj_y = false →
     output s = Some (batch_shape in0 ++ [rows_of in0; cols_of in1])).
Proof.
  intros [Hs Hf0 Hf1 Ha Hst] in0 in1 d0 d3. subst in0 in1 d0 d3.
  assert (∃ s, BatchMatMul.Compute d ctx adj_x adj_y = Returned s ∧
               output s = Some (product_shape (input0 ctx) (input1 ctx) adj_x adj_y))
    as (s & Hc & Ho).
  { rewrite Compute_accepted by done. rewrite Ha.
    case_bool_decide; [by eexists|].
    destruct (_ || _); [by eexists|].
    eexists. split; [done|]. by rewrite LaunchBatchMatMul_output. }
  exists s. split; [done|]. split; [done|].
  intros -> ->. by rewrite Ho.
Qed.
End compute_results.

(** Either the inputs agree on their first [n] dimensions, or there is a
    first dimension on which they differ. *)
Lemma first_mismatch {T} (in0 in1 : Tensor T) n :
  (∀ j, j < n → dim_size in0 j = dim_size in1 j) ∨
  (∃ j, j < n ∧ dim_size in0 j ≠ dim_size in1 j ∧
        ∀ j', j' < j → dim_size in0 j' = dim_size in1 j').
Proof.
  induction n as [|n [IH|(j & Hj & Hne & Hb)]].
  - left. intros j Hj. lia.
  - destruct (decide (dim_size in0 n = dim_size in1 n)) as [Heq|Hne].
    + left. intros j Hj. destruct (decide (j = n)) as [->|]; [done|]. apply IH. lia.
    + right. exists n. split; [lia|]. split; [done|]. intros j' Hj'. by apply IH.
  - right. exists j. split; [lia|]. done.
Qed.

Section degenerate_results.
Context {T : Type} `{!ScalarKind T}.
Implicit Types (ctx : OpKernelContext T) (d : Device).

(** C7.  When one of the inputs of a valid call has no element while
    the allocated output has some, [Compute], on either device, fills
    the whole output with the additive identity and returns: the
    status is [OK] and, after the allocation, the only event is the
    zero fill, so no launch takes place. *)
Theorem empty_operand_zero_fill d ctx adj_x adj_y storage :
  call_ok ctx adj_x adj_y storage →
  NumElements (input0 ctx) = 0 ∨ NumElements (input1 ctx) = 0 →
  num_elements (product_shape (input0 ctx) (input1 ctx) adj_x adj_y) ≠ 0 →
  let s := product_shape (input0 ctx) (input1 ctx) adj_x adj_y in
  BatchMatMul.Compute d ctx adj_x adj_y =
  Returned
    (MkState OK (Some s)
       (MkStore (replicate (num_elements s) scalar_zero)
          [EvAllocateOutput s; EvSetZero])).
Proof.
  intros [Hs Hf0 Hf1 Ha Hst] Hempty Hout s. subst s.
  rewrite Compute_accepted by done. rewrite Ha.
  rewrite bool_decide_eq_false_2 by done.
  assert (bool_decide (NumElements (input0 ctx) = 0) ||
          bool_decide (NumElements (input1 ctx) = 0) = true) as ->.
  { rewrite orb_true_iff, !bool_decide_eq_true. done. }
  unfold with_store, BatchMatMul.SetZeroFunctor, allocated. simpl.
  by rewrite fmap_const_replicate, Hst.
Qed.

(** C8.  When the output of a valid call has no element, [Compute], on
    either device, returns right after the allocation: the status is
    [OK], the allocation is the only event, and the buffer is the
    allocated storage, which holds nothing. *)
Theorem empty_output_no_op d ctx adj_x adj_y storage :
  call_ok ctx adj_x adj_y storage →
  num_elements (product_shape (input0 ctx) (input1 ctx) adj_x adj_y) = 0 →
  let s := product_shape (input0 ctx) (input1 ctx) adj_x adj_y in
  BatchMatMul.Compute d ctx adj_x adj_y =
  Returned (MkState OK (Some s) (MkStore storage [EvAllocateOutput s])) ∧
  storage = [].
Proof.
  intros [Hs Hf0 Hf1 Ha Hst] Hout s. subst s.
  rewrite Compute_accepted by done. rewrite Ha.
  rewrite bool_decide_eq_true_2 by done. split; [done|].
  apply length_zero_iff_nil. by rewrite Hst.
Qed.

(** C6.  A call whose inputs differ in rank, have a rank below 2,
    differ in some leading dimension or, once the flags are applied,
    disagree on the contracted dimension ends with an invalid-argument
    status while no output is allocated and no event has taken place.
    When the ranks agree and are at least 2, the message for the first
    leading dimension [j] on which the inputs differ holds [j] and both
    shapes; when moreover all leading dimensions agree, the message
    for a mismatch of the contracted dimension holds both shapes and
    both flags. *)
Theorem invalid_shapes_rejected d ctx adj_x adj_y :
  let in0 := input0 ctx in
  let in1 := input1 ctx in
  (dims in0 ≠ dims in1 ∨ dims in0 < 2 ∨
   (∃ j, j < dims in0 - 2 ∧ dim_size in0 j ≠ dim_size in1 j) ∨
   eff_cols adj_x in0 ≠ eff_rows adj_y in1 →
   ∃ msg,
     BatchMatMul.Compute d ctx adj_x adj_y =
     Returned (MkState (InvalidArgument msg) None (MkStore [] []))) ∧
  (∀ j, dims in0 = dims in1 → 2 ≤ dims in0 →
     j < dims in0 - 2 → dim_size in0 j ≠ dim_size in1 j →
     (∀ j', j' < j → dim_size in0 j' = dim_size in1 j') →
     BatchMatMul.Compute d ctx adj_x adj_y =
     Returned
       (MkState
          (InvalidArgument
             [PStr "In[0].dim("; PInt (Z.of_nat j); PStr ") and In[1].dim(";
              PInt (Z.of_nat j); PStr ") must be the same: ";
              PShape (shape in0); PStr " vs "; PShape (shape in1)])
          None (MkStore [] []))) ∧
  (dims in0 = dims in1 → 2 ≤ dims in0 →
   (∀ j, j < dims in0 - 2 → dim_size in0 j = dim_size in1 j) →
   eff_cols adj_x in0 ≠ eff_rows adj_y in1 →
   BatchMatMul.Compute d ctx adj_x adj_y =
   Returned
     (MkState
        (InvalidArgument
           [PStr "In[0] mismatch In[1] shape: "; PInt (Z.of_nat (eff_cols adj_x in0));
            PStr " vs. "; PInt (Z.of_nat (eff_rows adj_y in1)); PStr ": ";
            PShape (shape in0); PStr " "; PShape (shape in1); PStr " ";
            PBool adj_x; PStr " "; PBool adj_y])
        None (MkStore [] []))).
Proof.
  intros in0 in1. split; [|split].
  - intros Hbad.
    destruct (decide (dims in0 = dims in1)) as [Hr|Hr];
      [|eexists; by apply Compute_rank_mismatch].
    destruct (decide (2 ≤ dims in0)) as [Hr2|Hr2];
      [|eexists; apply Compute_rank_small; [done|fold in0; lia]].
    destruct (first_mismatch in0 in1 (dims in0 - 2)) as [Hall|(j & Hj & Hne & Hbefore)].
    + destruct Hbad as [?|[?|[(j & Hj & Hne)|Hne]]]; try done; try lia.
      * destruct Hne. by apply Hall.
      * eexists. by apply Compute_contraction_mismatch.
    + eexists. by apply (Compute_batch_mismatch _ _ _ _ j).
  - intros j Hr Hr2 Hj Hne Hbefore. by apply Compute_batch_mismatch.
  - intros Hr Hr2 Hb Hne. by apply Compute_contraction_mismatch.
Qed.
End degenerate_results.

Ltac solve_call_ok :=
  split;
  [ split; [by_evaluation | by_evaluation
           | intros j Hj; vm_compute in Hj;
             first [ lia | destruct j as [|j]; [by_evaluation|lia] ]
           | by_evaluation ]
  | by_evaluation.. ].

Lemma call_ok_2x3_2x5 :
  call_ok (Examples.context Examples.m_2x3 Examples.m_2x5 None) true false
    (Examples.garbage 15).
Proof. solve_call_ok. Qed.

(** C2, as it is stated, fails as soon as a flag is set: for inputs of
    shapes [[2, 3]] and [[2, 5]] with [adj_x], the output is allocated
    with shape [[3, 5]], not with the dimensions [[2, 5]] of the inputs
    as given. *)
Lemma output_shape_counterexample :
  call_ok (Examples.context Examples.m_2x3 Examples.m_2x5 None) true false
    (Examples.garbage 15) ∧
  batch_shape Examples.m_2x3 ++ [rows_of Examples.m_2x3; cols_of Examples.m_2x5]
  = [2; 5] ∧
  ∃ s,
    BatchMatMul.Compute CPUDevice
      (Examples.context Examples.m_2x3 Examples.m_2x5 None) true false = Returned s ∧
    status s = OK ∧
    output s = Some [3; 5] ∧
    output s ≠ Some (batch_shape Examples.m_2x3 ++
                     [rows_of Examples.m_2x3; cols_of Examples.m_2x5]).
Proof.
  split; [apply call_ok_2x3_2x5|]. split; [reflexivity|].
  eexists. split; [by vm_compute|]. by split_and!.
Qed.

Lemma output_shape_after_swaps_witness :
  ∃ s,
    BatchMatMul.Compute CPUDevice
      (Examples.context Examples.m_2x3 Examples.m_2x5 None) true false = Returned s ∧
    output s = Some [3; 5].
Proof.
  destruct (output_shape_after_swaps CPUDevice
              (Examples.context Examples.m_2x3 Examples.m_2x5 None) true false
              (Examples.garbage 15) call_ok_2x3_2x5) as (s & Hc & Ho & _).
  exists s. split; [exact Hc|exact Ho].
Defined.

Lemma call_ok_2x0_0x3 :
  call_ok (Examples.context Examples.m_2x0 Examples.m_0x3 None) false false
    (Examples.garbage 6).
Proof. solve_call_ok. Qed.

Lemma empty_operand_zero_fill_witness :
  BatchMatMul.Compute GPUDevice
    (Examples.context Examples.m_2x0 Examples.m_0x3 None) false false =
  Returned
    (MkState OK (Some [2; 3])
       (MkStore (replicate 6 (Cplx 0 0)) [EvAllocateOutput [2; 3]; EvSetZero])).
Proof.
  assert (num_elements (product_shape Examples.m_2x0 Examples.m_0x3 false false) ≠ 0)
    as Hout by (vm_compute; discriminate).
  exact (empty_operand_zero_fill GPUDevice
           (Examples.context Examples.m_2x0 Examples.m_0x3 None) false false
           (Examples.garbage 6) call_ok_2x0_0x3 (or_introl eq_refl) Hout).
Defined.

Lemma call_ok_0x4_4x3 :
  call_ok (Examples.context Examples.m_0x4 Examples.m_4x3 None) false false [].
Proof. solve_call_ok. Qed.

Lemma empty_output_no_op_witness :
  BatchMatMul.Compute GPUDevice
    (Examples.context Examples.m_0x4 Examples.m_4x3 None) false false =
  Returned (MkState OK (Some [0; 3]) (MkStore [] [EvAllocateOutput [0; 3]])).
Proof.
  exact (proj1 (empty_output_no_op GPUDevice
                  (Examples.context Examples.m_0x4 Examples.m_4x3 None) false false []
                  call_ok_0x4_4x3 eq_refl)).
Defined.

Lemma invalid_shapes_rejected_witness :
  BatchMatMul.Compute CPUDevice
    (Examples.context Examples.t_2x2x4x5 Examples.t_2x3x5x6 None) false false =
  Returned
    (MkState
       (InvalidArgument
          [PStr "In[0].dim("; PInt 1; PStr ") and In[1].dim("; PInt 1;
           PStr ") must be the same: "; PShape [2; 2; 4; 5]; PStr " vs ";
           PShape [2; 3; 5; 6]])
       None (MkStore [] [])) ∧
  BatchMatMul.Compute CPUDevice
    (Examples.context Examples.t_4x5 Examples.t_6x7 None) false false =
  Returned
    (MkState
       (InvalidArgument
          [PStr "In[0] mismatch In[1] shape: "; PInt 5; PStr " vs. "; PInt 6;
           PStr ": "; PShape [4; 5]; PStr " "; PShape [6; 7]; PStr " ";
           PBool false; PStr " "; PBool false])
       None (MkStore [] [])).
Proof.
  split.
  - destruct (invalid_shapes_rejected CPUDevice
                (Examples.context Examples.t_2x2x4x5 Examples.t_2x3x5x6 None)
                false false) as (_ & Hbatch & _).
    assert (∀ j', j' < 1 → dim_size Examples.t_2x2x4x5 j' = dim_size Examples.t_2x3x5x6 j')
      as Hbefore by (intros [|j'] Hj'; [reflexivity|lia]).
    assert (dim_size Examples.t_2x2x4x5 1 ≠ dim_size Examples.t_2x3x5x6 1)
      as Hne by (vm_compute; discriminate).
    assert (1 < dims Examples.t_2x2x4x5 - 2) as Hj by (vm_compute; lia).
    assert (2 ≤ dims Examples.t_2x2x4x5) as Hr2 by (vm_compute; lia).
    exact (Hbatch 1 eq_refl Hr2 Hj Hne Hbefore).
  - destruct (invalid_shapes_rejected CPUDevice
                (Examples.context Examples.t_4x5 Examples.t_6x7 None)
                false false) as (_ & _ & Hcontr).
    assert (∀ j, j < dims Examples.t_4x5 - 2 →
              dim_size Examples.t_4x5 j = dim_size Examples.t_6x7 j)
      as Hb by (intros j Hj; vm_compute in Hj; lia).
    assert (eff_cols false Examples.t_4x5 ≠ eff_rows false Examples.t_6x7)
      as Hne by (vm_compute; discriminate).
    assert (2 ≤ dims Examples.t_4x5) as Hr2 by (vm_compute; lia).
    exact (Hcontr eq_refl Hr2 Hb Hne).
Defined.

(** ** The GPU backend *)

Section gpu_results.
Context {T : Type} `{!ScalarKind T}.
Implicit Types (ctx : OpKernelContext T).

Lemma serve_requests_trace ctx rs alloc tr :
  (LaunchBatchMatMulGPU.serve_requests ctx rs alloc tr).2 =
  tr ++ (EvAllocateTemp <$> rs).
Proof.
  induction rs as [|r rs IH] using rev_ind; [by rewrite app_nil_r|].
  rewrite serve_requests_snoc, fmap_app. simpl.
  unfold LaunchBatchMatMulGPU.AllocateBytes at 1.
  destruct (allocate_temp ctx _ _); simpl; by rewrite IH, app_assoc.
Qed.

(** C9.  On the GPU, a temporary that cannot be allocated does not fail
    the call: [AllocateBytes] then returns, as a value and not as an
    error, device memory with a null address and size zero, and keeps
    the allocator as it was; the runtime never receives an error from
    the allocator; the batched GEMM is issued; and the status of the
    call is [OK] exactly when the runtime accepts the launch, also
    when every scratch request was served with the stub.  When the
    runtime rejects the launch, the status is the internal error whose
    message holds both input shapes and [m], [n], [k] and
    [batch_size]. *)
Theorem scratch_failure_does_not_fail_launch ctx s in_x in_y adj_x adj_y out
    (st : KernelState T) :
  stream ctx = Some s → status st = OK →
  let call := LaunchBatchMatMulGPU.blas_call in_x in_y adj_x adj_y in
  let requests := scratch_requests s call in
  let served :=
    LaunchBatchMatMulGPU.serve_requests ctx requests (MkAllocator [])
      (trace (store st) ++ [EvGemm call]) in
  let st' := LaunchBatchMatMulGPU.Launch ctx in_x in_y adj_x adj_y out st in
  let m := dim_size in_x (if adj_x then 2 else 1) in
  let k := dim_size in_x (if adj_x then 1 else 2) in
  let n := dim_size in_y (if adj_y then 1 else 2) in
  let batch_size := dim_size in_x 0 in
  (∀ byte_size self tr e,
     allocate_temp ctx (allocated_tensors_ self) byte_size = inl e →
     LaunchBatchMatMulGPU.AllocateBytes ctx byte_size self tr =
     (StatusOrValue (MkDeviceMemory nullptr 0), self,
      tr ++ [EvAllocateTemp byte_size])) ∧
  Forall is_value served.1.1 ∧
  ((∀ temps byte_size, ∃ e, allocate_temp ctx temps byte_size = inl e) →
   served.1.1 = replicate (length requests) stub) ∧
  trace (store st') =
    trace (store st) ++ [EvGemm call] ++ (EvAllocateTemp <$> requests) ∧
  (gemm_m call, gemm_n call, gemm_k call, batch_count call) = (n, m, k, batch_size) ∧
  (launch_accepted s call served.1.1 = true → status st' = OK) ∧
  (launch_accepted s call served.1.1 = false →
   status st' =
   Internal
     [PStr "Blas SGEMMBatched launch failed : a.shape="; PShape (shape in_x);
      PStr ", b.shape="; PShape (shape in_y);
      PStr ", m="; PInt (Z.of_nat m); PStr ", n="; PInt (Z.of_nat n);
      PStr ", k="; PInt (Z.of_nat k);
      PStr ", batch_size="; PInt (Z.of_nat batch_size)]).
Proof.
  intros Hs Hst call requests served st' m k n batch_size.
  pose proof (Launch_gpu_status ctx s in_x in_y adj_x adj_y out st Hs Hst) as Hstatus.
  simpl in Hstatus. fold call requests served st' in Hstatus.
  split_and!.
  - intros byte_size self tr e He. by apply (AllocateBytes_failed _ _ _ _ e).
  - apply serve_requests_values.
  - intros Hfail. unfold served.
    by rewrite (serve_requests_all_failed ctx requests _ _ Hfail).
  - unfold st', LaunchBatchMatMulGPU.Launch. rewrite Hs.
    unfold LaunchBatchMatMulGPU.ThenBlasGemmBatchedWithScratch. simpl.
    fold call requests.
    destruct (negb _); simpl; by rewrite serve_requests_trace, <-app_assoc.
  - done.
  - intros Hacc. by rewrite Hstatus, Hacc.
  - intros Hrej. by rewrite Hstatus, Hrej.
Qed.
End gpu_results.

Lemma scratch_failure_does_not_fail_launch_witness :
  status (LaunchBatchMatMulGPU.Launch
            (Examples.context Examples.x_2x2x3 Examples.y_2x2x3 (Some Examples.accepting))
            Examples.x_2x2x3 Examples.y_2x2x3 true false [2; 3; 3]
            (MkState OK (Some [2; 3; 3]) (MkStore (Examples.garbage 18) []))) = OK ∧
  status (LaunchBatchMatMulGPU.Launch
            (Examples.context Examples.x_2x2x3 Examples.y_2x2x3 (Some Examples.rejecting))
            Examples.x_2x2x3 Examples.y_2x2x3 true false [2; 3; 3]
            (MkState OK (Some [2; 3; 3]) (MkStore (Examples.garbage 18) []))) =
  Internal
    [PStr "Blas SGEMMBatched launch failed : a.shape="; PShape [2; 2; 3];
     PStr ", b.shape="; PShape [2; 2; 3]; PStr ", m="; PInt 3; PStr ", n="; PInt 3;
     PStr ", k="; PInt 2; PStr ", batch_size="; PInt 2].
Proof.
  split.
  - destruct (scratch_failure_does_not_fail_launch
                (Examples.context Examples.x_2x2x3 Examples.y_2x2x3 (Some Examples.accepting))
                Examples.accepting Examples.x_2x2x3 Examples.y_2x2x3 true false [2; 3; 3]
                (MkState OK (Some [2; 3; 3]) (MkStore (Examples.garbage 18) []))
                eq_refl eq_refl) as (_ & _ & _ & _ & _ & Hacc & _).
    exact (Hacc eq_refl).
  - destruct (scratch_failure_does_not_fail_launch
                (Examples.context Examples.x_2x2x3 Examples.y_2x2x3 (Some Examples.rejecting))
                Examples.rejecting Examples.x_2x2x3 Examples.y_2x2x3 true false [2; 3; 3]
                (MkState OK (Some [2; 3; 3]) (MkStore (Examples.garbage 18) []))
                eq_refl eq_refl) as (_ & _ & _ & _ & _ & _ & Hrej).
    exact (Hrej eq_refl).
Defined.

(** ** Further properties *)

Section further.
Context {T : Type} `{!ScalarKind T}.
Implicit Types (ctx : OpKernelContext T) (d : Device).

(** X1.  [Compute] always returns: none of its three [CHECK]s on
    [CopyFrom] fails, whatever the inputs, the flags and the device. *)
Theorem Compute_returns d ctx adj_x adj_y :
  ∃ st, BatchMatMul.Compute d ctx adj_x adj_y = Returned st.
Proof.
  destruct (decide (dims (input0 ctx) = dims (input1 ctx))) as [Hr|Hr];
    [|eexists; by apply Compute_rank_mismatch].
  destruct (decide (2 ≤ dims (input0 ctx))) as [Hr2|Hr2];
    [|eexists; apply Compute_rank_small; [done|lia]].
  destruct (first_mismatch (input0 ctx) (input1 ctx) (dims (input0 ctx) - 2))
    as [Hall|(j & Hj & Hne & Hbefore)];
    [|eexists; by apply (Compute_batch_mismatch _ _ _ _ j)].
  destruct (decide (eff_cols adj_x (input0 ctx) = eff_rows adj_y (input1 ctx)))
    as [Hc|Hc]; [|eexists; by apply Compute_contraction_mismatch].
  rewrite Compute_accepted by done.
  destruct (allocate_output ctx _); [by eexists|].
  case_bool_decide; [by eexists|].
  destruct (_ || _); by eexists.
Qed.

(** X2.  On the GPU, a valid call with no empty tensor and no stream
    available ends with the internal error "No GPU stream available.";
    the output is allocated and nothing is written to it. *)
Theorem no_stream_internal_error ctx adj_x adj_y storage :
  call_ok ctx adj_x adj_y storage →
  storage ≠ [] →
  NumElements (input0 ctx) ≠ 0 → NumElements (input1 ctx) ≠ 0 →
  stream ctx = None →
  let s := product_shape (input0 ctx) (input1 ctx) adj_x adj_y in
  BatchMatMul.Compute GPUDevice ctx adj_x adj_y =
  Returned
    (MkState (Internal [PStr "No GPU stream available."]) (Some s)
       (MkStore storage [EvAllocateOutput s])).
Proof.
  intros Hok Hne H0 H1 Hs s.
  rewrite (Compute_launches GPUDevice ctx adj_x adj_y storage) by done.
  simpl. unfold LaunchBatchMatMulGPU.Launch. by rewrite Hs.
Qed.

(** X3.  A call of [Compute] on the CPU with a batch of four [8 × 16]
    matrices on the left, four [16 × 32] matrices on the right and no
    flag succeeds with an output of shape [[4, 8, 32]], each slice of
    which is the matrix product of the corresponding slices. *)
Theorem batch_of_four_products `{!ScalarLaws T} ctx storage :
  shape (input0 ctx) = [4; 8; 16] → shape (input1 ctx) = [4; 16; 32] →
  length (flat (input0 ctx)) = 512 → length (flat (input1 ctx)) = 2048 →
  allocate_output ctx [4; 8; 32] = inr storage → length storage = 1024 →
  sharder_ok (cpu ctx) 4 →
  ∃ s,
    BatchMatMul.Compute CPUDevice ctx false false = Returned s ∧
    status s = OK ∧ output s = Some [4; 8; 32] ∧
    ∀ i p q, i < 4 → p < 8 → q < 32 →
      buf (store s) !! (i * 8 * 32 + p * 32 + q) =
      Some (coeff (matmul (chip (flat (input0 ctx)) 8 16 i)
                     (chip (flat (input1 ctx)) 16 32 i)) p q).
Proof.
  intros Hs0 Hs1 Hl0 Hl1 Halloc Hlen Hsh.
  assert (call_ok ctx false false storage) as Hok.
  { split.
    - split; unfold dims, eff_cols, eff_rows, rows_of, cols_of, dim_size, dims;
        rewrite ?Hs0, ?Hs1; simpl; try done; try lia.
      intros j Hj. destruct j as [|j]; [done|lia].
    - unfold NumElements. by rewrite Hs0, Hl0.
    - unfold NumElements. by rewrite Hs1, Hl1.
    - unfold product_shape, batch_shape, eff_cols, eff_rows, rows_of, cols_of,
        dim_size, dims. by rewrite Hs0, Hs1.
    - unfold product_shape, batch_shape, eff_cols, eff_rows, rows_of, cols_of,
        dim_size, dims. by rewrite Hs0, Hs1. }
  assert (batch_shape (input0 ctx) = [4]) as Hb.
  { unfold batch_shape, dims. by rewrite Hs0. }
  destruct (Compute_cpu_result ctx false false storage Hok) as (s & Hc & Hst & Hout & Hel).
  - by destruct storage.
  - unfold NumElements. by rewrite Hs0.
  - unfold NumElements. by rewrite Hs1.
  - rewrite Hb. by vm_compute.
  - rewrite Hb. intros _. exact Hsh.
  - exists s. split; [done|]. split; [done|]. split.
    { rewrite Hout. unfold product_shape, eff_rows, eff_cols, rows_of, cols_of,
        dim_size, dims. by rewrite Hb, Hs0, Hs1. }
    intros i p q Hi Hp Hq.
    specialize (Hel i p q).
    unfold eff_rows, eff_cols, rows_of, cols_of, dim_size, dims in Hel.
    rewrite Hb, Hs0, Hs1 in Hel. unfold shape_dim in Hel. simpl in Hel.
    rewrite Hel by lia. f_equal.
    unfold direct_product, chip_of, reshaped, rows_of, cols_of, dim_size, dims.
    rewrite Hs0, Hs1. done.
Qed.
End further.

Lemma pool_sharder_ok_4 : sharder_ok Examples.pool 4.
Proof.
  intros mp cost. split.
  - repeat constructor; simpl; lia.
  - change (Examples.plan_reversed 4 ≫= shard_units) with (rev (seqZ 0 4)).
    symmetry. apply Permutation_rev.
Qed.

Lemma call_ok_2x2x3_gpu :
  call_ok (Examples.context Examples.x_2x2x3 Examples.y_2x2x3 None) true false
    (Examples.garbage 18).
Proof. solve_call_ok. Qed.

Lemma no_stream_internal_error_witness :
  BatchMatMul.Compute GPUDevice
    (Examples.context Examples.x_2x2x3 Examples.y_2x2x3 None) true false =
  Returned
    (MkState (Internal [PStr "No GPU stream available."]) (Some [2; 3; 3])
       (MkStore (Examples.garbage 18) [EvAllocateOutput [2; 3; 3]])).
Proof.
  assert (Examples.garbage 18 ≠ []) as Hne by (vm_compute; discriminate).
  assert (NumElements Examples.x_2x2x3 ≠ 0) as H0 by (vm_compute; discriminate).
  assert (NumElements Examples.y_2x2x3 ≠ 0) as H1 by (vm_compute; discriminate).
  exact (no_stream_internal_error
           (Examples.context Examples.x_2x2x3 Examples.y_2x2x3 None) true false
           (Examples.garbage 18) call_ok_2x2x3_gpu Hne H0 H1 eq_refl).
Defined.

Lemma batch_of_four_products_witness :
  ∃ s,
    BatchMatMul.Compute CPUDevice
      (Examples.context Examples.left_4x8x16 Examples.right_4x16x32 None) false false
    = Returned s ∧
    status s = OK ∧ output s = Some [4; 8; 32].
Proof.
  destruct (batch_of_four_products
              (Examples.context Examples.left_4x8x16 Examples.right_4x16x32 None)
              (Examples.garbage 1024) eq_refl eq_refl eq_refl eq_refl eq_refl eq_refl
              pool_sharder_ok_4) as (s & Hc & Hst & Hout & _).
  exists s. split; [exact Hc|]. split; [exact Hst|exact Hout].
Defined.

(** ** The model at work *)

(** The real kernel on [int32], both flags set: [transpose a · transpose b],
    with the wrap-around of the element type, and no final conjugation. *)
Example real_kernel_on_int32 :
  LaunchBatchMatMulCPU.Launch Examples.pool Examples.a_1x2x2 Examples.b_1x2x2
    true true [1; 2; 2] (MkStore [Int32 0; Int32 0; Int32 0; Int32 0] []) =
  MkStore [Int32 2147483647; Int32 (-2); Int32 (-2); Int32 (-2)]
    [EvContract ThreadPoolDevice 0].
Proof. reflexivity. Qed.

(** [Compute] on inputs of rank 4: the two leading dimensions [[1, 2]]
    are collapsed into a batch of two units, which the sharder hands out
    last unit first. *)
Example compute_on_rank_4 :
  ∃ s,
    BatchMatMul.Compute CPUDevice
      (Examples.context Examples.x_1x2x2x3 Examples.y_1x2x2x3 None) true false
    = Returned s ∧
    status s = OK ∧ output s = Some [1; 2; 3; 3] ∧
    take 3 (buf (store s)) = [Cplx (-6) (-15); Cplx (-5) (-8); Cplx (-12) (-1)] ∧
    trace (store s) =
      [EvAllocateOutput [1; 2; 3; 3]; EvShard 3 2 18;
       EvContract ThreadPoolDevice 1; EvContract ThreadPoolDevice 0; EvConjugate].
Proof. eexists. split; [by vm_compute|]. by split_and!. Qed.

(** ** The kernel over a range of units *)

Section range_results.
Context {T : Type} `{!ScalarKind T}.
Implicit Types (st : Store T).

(** X4.  What one call of [Run] touches.  On the views of a valid launch,
    a run over [[start, limit)] with [0 ≤ start] keeps the length of the
    output buffer, leaves in every chip [i] of the range the kernel's
    expression for [i], and leaves every element of every other chip as
    it was; a run over an empty range changes nothing at all, the trace
    included. *)
Theorem Run_writes_its_range_only pi in_x in_y adj_x adj_y out st start limit :
  launch_ok in_x in_y adj_x adj_y out (buf st) →
  (0 ≤ start)%Z →
  let st' := LaunchBatchMatMulCPU.Kernel_Run pi in_x in_y adj_x adj_y out start limit st in
  let R := shape_dim out 1 in
  let C := shape_dim out 2 in
  ((limit ≤ start)%Z → st' = st) ∧
  length (buf st') = length (buf st) ∧
  ∀ i p q, i < dim_size in_x 0 → p < R → q < C →
    ((start ≤ Z.of_nat i < limit)%Z →
     buf st' !! (i * R * C + p * C + q) =
     Some (coeff (kernel_expr in_x in_y adj_x adj_y i) p q)) ∧
    (¬ (start ≤ Z.of_nat i < limit)%Z →
     buf st' !! (i * R * C + p * C + q) = buf st !! (i * R * C + p * C + q)).
Proof.
  intros Hok Hstart st' R C. unfold st'. rewrite Kernel_Run_units.
  split; [|split].
  - intros Hle. by rewrite seqZ_nil by lia.
  - apply run_units_length.
  - intros i p q Hi Hp Hq.
    assert (buf (run_units (device_of pi) out (kernel_expr in_x in_y adj_x adj_y)
                   (seqZ start (limit - start)) st) !! (i * R * C + p * C + q) =
            if decide (Z.of_nat i ∈ seqZ start (limit - start))
            then Some (coeff (kernel_expr in_x in_y adj_x adj_y i) p q)
            else buf st !! (i * R * C + p * C + q)) as Hlook.
    { apply run_units_lookup; try done.
      - intros u Hu. apply elem_of_seqZ in Hu. split; [lia|].
        eapply kernel_expr_dims, Hok.
      - rewrite (launch_ok_out_length _ _ _ _ _ _ Hok). fold R C.
        pose proof (offset_in_chip _ _ p q Hp Hq).
        pose proof (chips_ordered R C (dim_size in_x 0) i Hi). lia. }
    rewrite Hlook. split; intros Hin.
    + rewrite decide_True; [done|]. apply elem_of_seqZ. lia.
    + rewrite decide_False; [done|]. rewrite elem_of_seqZ. lia.
Qed.

(** X5.  Runs over adjacent ranges compose: a run over [[start, mid)]
    followed by a run over [[mid, limit)] is the run over
    [[start, limit)], buffer and trace alike, whatever the tensors. *)
Theorem Run_ranges_compose pi Tx Ty adj_x adj_y Tz st (start mid limit : Z) :
  (start ≤ mid)%Z → (mid ≤ limit)%Z →
  LaunchBatchMatMulCPU.Kernel_Run pi Tx Ty adj_x adj_y Tz mid limit
    (LaunchBatchMatMulCPU.Kernel_Run pi Tx Ty adj_x adj_y Tz start mid st) =
  LaunchBatchMatMulCPU.Kernel_Run pi Tx Ty adj_x adj_y Tz start limit st.
Proof.
  intros H1 H2. rewrite !Kernel_Run_units, <-run_units_app. f_equal.
  replace (limit - start)%Z with ((mid - start) + (limit - mid))%Z by lia.
  rewrite seqZ_app by lia. do 2 f_equal. lia.
Qed.
End range_results.

Lemma Run_writes_its_range_only_witness :
  buf (LaunchBatchMatMulCPU.Kernel_Run false Examples.x_2x2x3 Examples.y_2x2x3
         true false [2; 3; 3] 1 2 (MkStore (Examples.garbage 18) [])) !! 4
  = Some (Cplx 99 (-99)) ∧
  buf (LaunchBatchMatMulCPU.Kernel_Run false Examples.x_2x2x3 Examples.y_2x2x3
         true false [2; 3; 3] 1 2 (MkStore (Examples.garbage 18) [])) !! 13
  = Some (Cplx 5 48).
Proof.
  assert (0 ≤ 1)%Z as H0 by lia.
  destruct (Run_writes_its_range_only false Examples.x_2x2x3 Examples.y_2x2x3
              true false [2; 3; 3] (MkStore (Examples.garbage 18) []) 1 2
              launch_ok_2x2x3 H0) as (_ & _ & Hel).
  split.
  - destruct (Hel 0 1 1) as [_ Hout]; [by_evaluation..|].
    apply Hout. lia.
  - destruct (Hel 1 1 1) as [Hin _]; [by_evaluation..|].
    apply Hin. lia.
Defined.

Lemma Run_ranges_compose_witness :
  LaunchBatchMatMulCPU.Kernel_Run true Examples.x_2x2x3 Examples.y_2x2x3 true false
    [2; 3; 3] 1 2
    (LaunchBatchMatMulCPU.Kernel_Run true Examples.x_2x2x3 Examples.y_2x2x3 true false
       [2; 3; 3] 0 1 (MkStore (Examples.garbage 18) [])) =
  LaunchBatchMatMulCPU.Kernel_Run true Examples.x_2x2x3 Examples.y_2x2x3 true false
    [2; 3; 3] 0 2 (MkStore (Examples.garbage 18) []).
Proof.
  assert (0 ≤ 1)%Z as H1 by lia. assert (1 ≤ 2)%Z as H2 by lia.
  exact (Run_ranges_compose true Examples.x_2x2x3 Examples.y_2x2x3 true false
           [2; 3; 3] (MkStore (Examples.garbage 18) []) 0 1 2 H1 H2).
Defined.

(** ** What the output of a CPU call depends on *)

Section output_results.
Context {T : Type} `{!ScalarKind T}.
Implicit Types (st : Store T).

(** Every index of the output buffer of a valid launch is an element of
    a chip. *)
Lemma launch_ok_index in_x in_y adj_x adj_y out (b : list T) idx :
  launch_ok in_x in_y adj_x adj_y out b → idx < length b →
  ∃ i p q, i < dim_size in_x 0 ∧ p < shape_dim out 1 ∧ q < shape_dim out 2 ∧
           idx = i * shape_dim out 1 * shape_dim out 2 + p * shape_dim out 2 + q.
Proof.
  intros Hok Hidx. apply index_decompose.
  by rewrite <-(launch_ok_out_length _ _ _ _ _ _ Hok).
Qed.

(** X6.  Within the range of [int], the output of a CPU launch does not
    depend on what the output buffer held before: when the batch size
    is at most [INT_MAX], two launches of valid shapes on the same
    inputs whose output buffers differ in content (and in trace) leave
    the same buffer, so that the memory [allocate_output] hands out
    need not be initialised for such a batch.  Beyond the bound the
    units a launch skips keep what the buffer held. *)
Theorem Launch_overwrites_output ctx in_x in_y adj_x adj_y out st1 st2 :
  launch_shapes in_x in_y adj_x adj_y out (buf st1) →
  launch_shapes in_x in_y adj_x adj_y out (buf st2) →
  (Z.of_nat (dim_size in_x 0) ≤ INT_MAX)%Z →
  sharder_ok ctx (dim_size in_x 0) →
  buf (LaunchBatchMatMulCPU.Launch ctx in_x in_y adj_x adj_y out st1) =
  buf (LaunchBatchMatMulCPU.Launch ctx in_x in_y adj_x adj_y out st2).
Proof.
  intros Hls1 Hls2 Hmax Hsh.
  pose proof (launch_shapes_ok _ _ _ _ _ _ Hls1 Hmax) as Hok1.
  pose proof (launch_shapes_ok _ _ _ _ _ _ Hls2 Hmax) as Hok2.
  assert (length (buf st1) = length (buf st2)) as Hlen.
  { by rewrite (ok_flat_out _ _ _ _ _ _ Hok1), (ok_flat_out _ _ _ _ _ _ Hok2). }
  apply list_eq. intros idx.
  destruct (decide (idx < length (buf st1))) as [Hidx|Hidx].
  - destruct (launch_ok_index _ _ _ _ _ _ idx Hok1 Hidx) as (i & p & q & Hi & Hp & Hq & ->).
    by rewrite !Launch_lookup.
  - rewrite !lookup_ge_None_2; [done| |];
      rewrite Launch_length; try done; try apply Hok1; try apply Hok2; lia.
Qed.
End output_results.

Lemma launch_ok_2x2x3_zeros :
  launch_ok Examples.x_2x2x3 Examples.y_2x2x3 true false [2; 3; 3]
    (replicate 18 (Cplx 0 0)).
Proof. split; by_evaluation. Qed.

Lemma Launch_overwrites_output_witness :
  buf (LaunchBatchMatMulCPU.Launch Examples.pool Examples.x_2x2x3 Examples.y_2x2x3
         true false [2; 3; 3] (MkStore (Examples.garbage 18) [])) =
  buf (LaunchBatchMatMulCPU.Launch Examples.pool Examples.x_2x2x3 Examples.y_2x2x3
         true false [2; 3; 3] (MkStore (replicate 18 (Cplx 0 0)) [EvSetZero])).
Proof.
  exact (Launch_overwrites_output Examples.pool Examples.x_2x2x3 Examples.y_2x2x3
           true false [2; 3; 3] (MkStore (Examples.garbage 18) [])
           (MkStore (replicate 18 (Cplx 0 0)) [EvSetZero])
           (launch_ok_shapes _ _ _ _ _ _ launch_ok_2x2x3)
           (launch_ok_shapes _ _ _ _ _ _ launch_ok_2x2x3_zeros)
           (ok_int _ _ _ _ _ _ launch_ok_2x2x3) pool_sharder_ok_2).
Defined.

(** ** The calls of the sharder *)

Section sharder_results.
Context {T : Type} `{!ScalarKind T}.
Implicit Types (ctx : CpuContext) (st : Store T).

(** Whatever the plan, the work of the shards adds contractions to the
    trace and nothing else. *)
Lemma Shard_trace ctx mp total cost pi Tx Ty adj_x adj_y Tz st :
  ∃ us,
    trace (LaunchBatchMatMulCPU.Shard ctx mp total cost
             (λ start limit,
                LaunchBatchMatMulCPU.Kernel_Run pi Tx Ty adj_x adj_y Tz
                  (to_int start) (to_int limit)) st) =
    trace st ++ EvShard mp total cost :: (EvContract (device_of pi) <$> us).
Proof.
  unfold LaunchBatchMatMulCPU.Shard.
  assert (∀ plan (s : Store T), ∃ us,
    trace (foldl (λ st r, LaunchBatchMatMulCPU.Kernel_Run pi Tx Ty adj_x adj_y Tz
                            (to_int r.1) (to_int r.2) st) s plan) =
    trace s ++ (EvContract (device_of pi) <$> us)) as Hfold.
  { induction plan as [|r plan IH]; intros s.
    - exists []. simpl. by rewrite app_nil_r.
    - simpl. destruct (IH (LaunchBatchMatMulCPU.Kernel_Run pi Tx Ty adj_x adj_y Tz
                             (to_int r.1) (to_int r.2) s)) as [us ->].
      rewrite Kernel_Run_units, run_units_trace.
      eexists (_ ++ us). by rewrite fmap_app, app_assoc. }
  destruct (Hfold (shard_plan ctx mp total cost)
              (MkStore (buf st) (trace st ++ [EvShard mp total cost]))) as [us ->].
  exists us. simpl. by rewrite <-app_assoc.
Qed.

(** X7.  A launch calls the sharder at most once, and never in its first
    branch.  In the second branch the parallelism it asks for is the
    pool size [T], or, when the inner contractions are parallel too
    ([N < T] and the output has more than one column), [max(1, T - 1)],
    which is then at least 1, at most [T], one less than [T] as soon as
    [T ≥ 2], and still at least the number [N] of units: withholding a
    thread never leaves a unit without one. *)
Theorem Shard_parallelism_bounds ctx in_x in_y adj_x adj_y out st :
  let N := dim_size in_x 0 in
  let Tn := num_threads ctx in
  let D := shape_dim out 2 in
  let cost := LaunchBatchMatMulCPU.cost_per_unit in_x out in
  let st' := LaunchBatchMatMulCPU.Launch ctx in_x in_y adj_x adj_y out st in
  let no_shard (tr : list Event) := ∀ mp t c, EvShard mp t c ∉ tr in
  (LaunchBatchMatMulCPU.sequential_branch in_x out = true →
   (Z.of_nat N ≤ INT_MAX)%Z →
   ∃ rest, trace st' = trace st ++ rest ∧ no_shard rest) ∧
  (LaunchBatchMatMulCPU.sequential_branch in_x out = false →
   ∃ outer rest,
     trace st' = trace st ++ EvShard outer N cost :: rest ∧ no_shard rest ∧
     (outer = Tn ∧ ¬ ((Z.of_nat N < Tn)%Z ∧ 1 < D) ∨
      (Z.of_nat N < Tn)%Z ∧ 1 < D ∧ outer = Z.max 1 (Tn - 1) ∧
      (1 ≤ outer)%Z ∧ (outer ≤ Tn)%Z ∧ (Z.of_nat N ≤ outer)%Z ∧
      ((2 ≤ Tn)%Z → outer = (Tn - 1)%Z))).
Proof.
  intros N Tn D cost st' no_shard.
  assert (∀ (d : EigenDevice) (us : list Z) (tl : list Event),
            (∀ mp t c, EvShard mp t c ∉ tl) →
            ∀ mp t c, EvShard mp t c ∉ (EvContract d <$> us) ++ tl) as Hno.
  { intros d us tl Htl mp t c Hin. apply elem_of_app in Hin as [Hin|Hin].
    - apply list_elem_of_fmap in Hin as (u & Hu & _). done.
    - by apply (Htl mp t c). }
  assert (∀ mp t c, EvShard mp t c ∉ (if adj_x && IsComplex then [EvConjugate] else []))
    as Htail.
  { intros mp t c Hin. destruct (adj_x && IsComplex).
    - apply list_elem_of_singleton in Hin. done.
    - by apply not_elem_of_nil in Hin. }
  split.
  - intros Hb Hmax. unfold st'. rewrite Launch_sequential by done.
    rewrite maybe_conjugate_trace, run_units_trace, <-app_assoc.
    eexists. split; [done|]. unfold no_shard. by apply Hno.
  - intros Hb.
    assert (st' = maybe_conjugate adj_x
              (LaunchBatchMatMulCPU.Shard ctx
                 (if bool_decide (Z.of_nat N < Tn)%Z && bool_decide (1 < D)
                  then Z.max 1 (Tn - 1) else Tn) N cost
                 (λ start limit,
                    LaunchBatchMatMulCPU.Kernel_Run
                      (bool_decide (Z.of_nat N < Tn)%Z && bool_decide (1 < D))
                      in_x in_y adj_x adj_y out (to_int start) (to_int limit)) st))
      as ->.
    { unfold st', LaunchBatchMatMulCPU.Launch.
      unfold LaunchBatchMatMulCPU.sequential_branch in Hb. by rewrite Hb. }
    rewrite maybe_conjugate_trace.
    destruct (Shard_trace ctx
                (if bool_decide (Z.of_nat N < Tn)%Z && bool_decide (1 < D)
                 then Z.max 1 (Tn - 1) else Tn)
                N cost
                (bool_decide (Z.of_nat N < Tn)%Z && bool_decide (1 < D))
                in_x in_y adj_x adj_y out st) as [us ->].
    eexists _, _. split; [by rewrite <-app_assoc|].
    split; [unfold no_shard; by apply Hno|].
    destruct (bool_decide (Z.of_nat N < Tn)%Z && bool_decide (1 < D)) eqn:Hpi.
    + right. apply andb_true_iff in Hpi as [H1 H2].
      apply bool_decide_eq_true in H1. apply bool_decide_eq_true in H2.
      split_and!; try done; lia.
    + left. split; [done|]. intros [H1 H2].
      apply andb_false_iff in Hpi as [Hpi|Hpi];
        apply bool_decide_eq_false in Hpi; done.
Qed.
End sharder_results.

Lemma Shard_parallelism_bounds_witness :
  ∃ rest,
    trace (LaunchBatchMatMulCPU.Launch Examples.pool Examples.x_2x2x3 Examples.y_2x2x3
             true false [2; 3; 3] (MkStore (Examples.garbage 18) []))
    = EvShard 3 2 18 :: rest.
Proof.
  destruct (Shard_parallelism_bounds Examples.pool Examples.x_2x2x3 Examples.y_2x2x3
              true false [2; 3; 3] (MkStore (Examples.garbage 18) [])) as [_ Hsh].
  destruct (Hsh eq_refl) as (outer & rest & Htr & _ & [[Ho Hn]|(_ & _ & Ho & _)]).
  - exfalso. apply Hn. split; by_evaluation.
  - exists rest. rewrite Htr, Ho. reflexivity.
Defined.

(** ** The zero fill and the launch it replaces *)

Section zero_fill_results.
Context {T : Type} `{!ScalarKind T} `{!ScalarLaws T}.
Implicit Types (ctx : OpKernelContext T) (st : Store T).

(** A valid launch whose contracted dimension is 0 leaves the additive
    identity everywhere: each element is an empty sum. *)
Lemma Launch_empty_contraction (cctx : CpuContext) in_x in_y adj_x adj_y out st :
  launch_ok in_x in_y adj_x adj_y out (buf st) →
  (dim_size in_x 0 ≠ 1 → sharder_ok cctx (dim_size in_x 0)) →
  (if adj_x then dim_size in_x 1 else dim_size in_x 2) = 0 →
  buf (LaunchBatchMatMulCPU.Launch cctx in_x in_y adj_x adj_y out st) =
  replicate (length (buf st)) scalar_zero.
Proof.
  intros Hok Hsh Hk. apply list_eq. intros idx.
  destruct (decide (idx < length (buf st))) as [Hidx|Hidx].
  - rewrite lookup_replicate_2 by done.
    destruct (launch_ok_index _ _ _ _ _ _ idx Hok Hidx)
      as (i & p & q & Hi & Hp & Hq & ->).
    rewrite (Launch_lookup cctx in_x in_y adj_x adj_y out st i p q Hok Hsh Hi Hp Hq).
    rewrite kernel_expr_direct. f_equal.
    unfold direct_product, matmul, adjoint. simpl.
    assert (e_cols (if adj_x
                    then if IsComplex then transpose (conjugate (chip_of in_x i))
                         else transpose (chip_of in_x i)
                    else chip_of in_x i) = 0) as ->; [|done].
    destruct adj_x, IsComplex; simpl; done.
  - rewrite !lookup_ge_None_2; [done| |].
    + rewrite length_replicate. lia.
    + rewrite Launch_length by (done || apply Hok). lia.
Qed.

(** X8.  Within the range of [int], the zero fill is no special case of
    the product: when an input of a valid call is empty while the
    output is not, the contracted dimension is 0 and, when the batch
    count is at most [INT_MAX], the buffer [Compute] returns after
    [SetZeroFunctor] is the buffer the CPU launch would have left in the
    allocated output, had it been made. *)
Theorem zero_fill_agrees_with_launch d ctx adj_x adj_y storage :
  call_ok ctx adj_x adj_y storage →
  NumElements (input0 ctx) = 0 ∨ NumElements (input1 ctx) = 0 →
  num_elements (product_shape (input0 ctx) (input1 ctx) adj_x adj_y) ≠ 0 →
  (Z.of_nat (num_elements (batch_shape (input0 ctx))) ≤ INT_MAX)%Z →
  (num_elements (batch_shape (input0 ctx)) ≠ 1 →
   sharder_ok (cpu ctx) (num_elements (batch_shape (input0 ctx)))) →
  eff_cols adj_x (input0 ctx) = 0 ∧
  ∃ s,
    BatchMatMul.Compute d ctx adj_x adj_y = Returned s ∧
    buf (store s) =
    buf (LaunchBatchMatMulCPU.Launch (cpu ctx) (reshaped (input0 ctx))
           (reshaped (input1 ctx)) adj_x adj_y
           (reshaped_out (input0 ctx) (input1 ctx) adj_x adj_y)
           (MkStore storage
              [EvAllocateOutput
                 (product_shape (input0 ctx) (input1 ctx) adj_x adj_y)])).
Proof.
  intros Hcall Hempty Hout Hmax Hsh.
  pose proof (call_ok_launch_ok _ _ _ _ Hcall Hmax) as Hl.
  destruct Hcall as [Hs Hf0 Hf1 Ha Hst]. pose proof Hs as [Hr Hr2 Hb Hc].
  assert (eff_cols adj_x (input0 ctx) = 0) as Hk.
  { rewrite num_elements_product in Hout. unfold reshaped_out in Hout.
    rewrite num_elements_3 in Hout.
    rewrite (NumElements_split (input0 ctx)), (NumElements_split (input1 ctx)) in Hempty
      by lia.
    rewrite (batch_shape_eq _ _ _ _ Hs), !num_elements_3 in Hempty.
    unfold eff_cols, eff_rows in *. destruct adj_x, adj_y; nia. }
  split; [done|].
  rewrite Compute_accepted by done. rewrite Ha.
  rewrite bool_decide_eq_false_2 by done.
  assert (bool_decide (NumElements (input0 ctx) = 0) ||
          bool_decide (NumElements (input1 ctx) = 0) = true) as ->.
  { rewrite orb_true_iff, !bool_decide_eq_true. done. }
  eexists. split; [done|].
  rewrite Launch_empty_contraction; try done.
  unfold with_store, BatchMatMul.SetZeroFunctor, allocated. simpl.
  by rewrite fmap_const_replicate.
Qed.
End zero_fill_results.

Lemma zero_fill_agrees_with_launch_witness :
  ∃ s,
    BatchMatMul.Compute CPUDevice
      (Examples.context Examples.m_2x0 Examples.m_0x3 None) false false = Returned s ∧
    buf (store s) =
    buf (LaunchBatchMatMulCPU.Launch Examples.pool
           (reshaped Examples.m_2x0) (reshaped Examples.m_0x3) false false
           [1; 2; 3] (MkStore (Examples.garbage 6) [EvAllocateOutput [2; 3]])).
Proof.
  assert (num_elements (product_shape Examples.m_2x0 Examples.m_0x3 false false) ≠ 0)
    as Hout by (vm_compute; discriminate).
  assert (Z.of_nat (num_elements (batch_shape Examples.m_2x0)) ≤ INT_MAX)%Z
    as Hmax by by_evaluation.
  assert (num_elements (batch_shape Examples.m_2x0) ≠ 1 →
          sharder_ok Examples.pool (num_elements (batch_shape Examples.m_2x0)))
    as Hsh by (intros Hne; exfalso; apply Hne; reflexivity).
  exact (proj2 (zero_fill_agrees_with_launch CPUDevice
                  (Examples.context Examples.m_2x0 Examples.m_0x3 None) false false
                  (Examples.garbage 6) call_ok_2x0_0x3 (or_introl eq_refl)
                  Hout Hmax Hsh)).
Defined.

(** ** The status of a call on the CPU *)

Section status_results.
Context {T : Type} `{!ScalarKind T}.
Implicit Types (ctx : OpKernelContext T).

Lemma shapes_ok_or_not (in0 in1 : Tensor T) adj_x adj_y :
  shapes_ok in0 in1 adj_x adj_y ∨ ¬ shapes_ok in0 in1 adj_x adj_y.
Proof.
  destruct (decide (dims in0 = dims in1)) as [Hr|Hr]; [|right; by intros []].
  destruct (decide (2 ≤ dims in0)) as [Hr2|Hr2]; [|right; by intros []].
  destruct (first_mismatch in0 in1 (dims in0 - 2))
    as [Hall|(j & Hj & Hne & _)]; [|right; intros [_ _ Hb _]; by apply Hne, Hb].
  destruct (decide (eff_cols adj_x in0 = eff_rows adj_y in1)) as [Hc|Hc];
    [|right; by intros []].
  left. by split.
Qed.

(** A call whose shapes are not accepted is rejected, whatever the
    reason. *)
Lemma Compute_not_accepted d ctx adj_x adj_y :
  ¬ shapes_ok (input0 ctx) (input1 ctx) adj_x adj_y →
  ∃ msg, BatchMatMul.Compute d ctx adj_x adj_y = rejected msg.
Proof.
  intros Hno.
  destruct (decide (dims (input0 ctx) = dims (input1 ctx))) as [Hr|Hr];
    [|eexists; by apply Compute_rank_mismatch].
  destruct (decide (2 ≤ dims (input0 ctx))) as [Hr2|Hr2];
    [|eexists; apply Compute_rank_small; [done|lia]].
  destruct (first_mismatch (input0 ctx) (input1 ctx) (dims (input0 ctx) - 2))
    as [Hall|(j & Hj & Hne & Hbefore)];
    [|eexists; by apply (Compute_batch_mismatch _ _ _ _ j)].
  destruct (decide (eff_cols adj_x (input0 ctx) = eff_rows adj_y (input1 ctx)))
    as [Hc|Hc]; [|eexists; by apply Compute_contraction_mismatch].
  destruct Hno. by split.
Qed.

(** X9.  On the CPU the status of a call is [OK] exactly when the shapes
    are accepted and the output is allocated; the output then has the
    shape of the product.  Otherwise the call has no output and has
    done nothing: after a failed allocation the state is the
    allocator's error alone, and after any error the buffer and the
    trace are empty.  The allocator is taken to report failures with a
    status that is not [OK]. *)
Theorem Compute_cpu_status ctx adj_x adj_y :
  (∀ s e, allocate_output ctx s = inl e → e ≠ OK) →
  let ps := product_shape (input0 ctx) (input1 ctx) adj_x adj_y in
  ∃ st,
    BatchMatMul.Compute CPUDevice ctx adj_x adj_y = Returned st ∧
    (status st = OK ↔
     shapes_ok (input0 ctx) (input1 ctx) adj_x adj_y ∧
     ∃ storage, allocate_output ctx ps = inr storage) ∧
    (status st = OK → output st = Some ps) ∧
    (status st ≠ OK → output st = None ∧ store st = MkStore [] []) ∧
    (∀ e, shapes_ok (input0 ctx) (input1 ctx) adj_x adj_y →
          allocate_output ctx ps = inl e → status st = e).
Proof.
  intros Halloc ps.
  destruct (shapes_ok_or_not (input0 ctx) (input1 ctx) adj_x adj_y) as [Hok|Hno].
  - rewrite Compute_accepted by done. fold ps.
    destruct (allocate_output ctx ps) as [e|storage] eqn:Ha.
    + eexists. split; [done|]. simpl.
      pose proof (Halloc _ _ Ha) as He.
      split_and!; try done.
      * split; [done|]. by intros [_ [? ?]].
      * intros e' _ [= ->]. done.
    + assert (∃ st, (if bool_decide (num_elements ps = 0)
                     then Returned (allocated ps storage)
                     else if bool_decide (NumElements (input0 ctx) = 0) ||
                             bool_decide (NumElements (input1 ctx) = 0)
                     then Returned (with_store BatchMatMul.SetZeroFunctor
                                      (allocated ps storage))
                     else Returned
                            (BatchMatMul.LaunchBatchMatMul CPUDevice ctx
                               (reshaped (input0 ctx)) (reshaped (input1 ctx))
                               adj_x adj_y
                               (reshaped_out (input0 ctx) (input1 ctx) adj_x adj_y)
                               (allocated ps storage))) = Returned st ∧
                    status st = OK ∧ output st = Some ps) as (st & -> & Hst & Hout).
      { case_bool_decide; [by eexists|]. destruct (_ || _); by eexists. }
      exists st. split; [done|]. rewrite Hst, Hout.
      split_and!; try done. split; [|done]. intros _. split; [done|]. by eexists.
  - destruct (Compute_not_accepted CPUDevice ctx adj_x adj_y Hno) as [msg ->].
    eexists. split; [done|]. simpl. split_and!; try done.
    split; [done|]. by intros [? _].
Qed.
End status_results.

Lemma Compute_cpu_status_witness :
  ∃ st,
    BatchMatMul.Compute CPUDevice
      (MkContext Examples.m_2x3 Examples.m_2x5 (λ _, inl (Error RESOURCE_EXHAUSTED []))
         Examples.no_temp Examples.pool None) true false = Returned st ∧
    status st = Error RESOURCE_EXHAUSTED [] ∧
    output st = None ∧ store st = MkStore [] [].
Proof.
  destruct (Compute_cpu_status
              (MkContext Examples.m_2x3 Examples.m_2x5
                 (λ _, inl (Error RESOURCE_EXHAUSTED []))
                 Examples.no_temp Examples.pool None) true false)
    as (st & Hc & _ & _ & Herr & Hprop).
  - intros s e [= <-]. discriminate.
  - exists st. split; [exact Hc|].
    assert (status st = Error RESOURCE_EXHAUSTED []) as Hst.
    { apply Hprop; [exact (co_shapes _ _ _ _ call_ok_2x3_2x5)|reflexivity]. }
    split; [exact Hst|]. apply Herr. rewrite Hst. discriminate.
Defined.

(** ** The scratch allocator and the pointers of the call *)

Section scratch_results.
Context {T : Type} `{!ScalarKind T}.
Implicit Types (ctx : OpKernelContext T).

(** X10.  The scratch allocator holds every temporary it hands out.
    After any sequence of requests, each answered by [AllocateBytes],
    the answers are, request by request, either the stub or the address
    and byte size of a temporary, and [allocated_tensors_] is what it
    was before followed by exactly the temporaries handed out, in the
    order of the answers: nothing is dropped, and a failed allocation
    adds nothing and does not stop the requests that follow. *)
Theorem scratch_allocator_retains ctx requests self tr :
  let r := LaunchBatchMatMulGPU.serve_requests ctx requests self tr in
  ∃ outcomes : list (option TempTensor),
    length outcomes = length requests ∧
    r.1.1 =
      (λ o : option TempTensor,
         match o with
         | Some t =>
             StatusOrValue (MakeFromByteSize (InTemp (temp_id t)) (temp_bytes t))
         | None => stub
         end) <$> outcomes ∧
    allocated_tensors_ r.1.2 = allocated_tensors_ self ++ omap id outcomes.
Proof.
  induction requests as [|rq rs IH] using rev_ind.
  - exists []. simpl. by rewrite app_nil_r.
  - rewrite serve_requests_snoc. simpl in *.
    destruct IH as (outcomes & Hlen & Hans & Hkept).
    unfold LaunchBatchMatMulGPU.AllocateBytes.
    destruct (allocate_temp ctx _ rq) as [e|t] eqn:Ha; simpl.
    + exists (outcomes ++ [None]).
      rewrite !length_app, fmap_app, omap_app, Hans, Hkept. simpl.
      by rewrite Hlen, app_nil_r.
    + exists (outcomes ++ [Some t]).
      rewrite !length_app, fmap_app, omap_app, Hans, Hkept. simpl.
      by rewrite Hlen, app_assoc.
Qed.
End scratch_results.

Section pointer_results.
Context {T : Type} `{!ScalarKind T}.

(** X11.  The pointers a valid GPU launch hands to the batched GEMM stay
    inside the tensors.  Each of the three arrays has one entry per
    batch element; entry [i] is the address of matrix [i], at [i] times
    the number of elements of a matrix into its buffer, and the matrix
    ends within the buffer, so that the matrices of different batch
    elements lie one after the other without overlap.  The inputs
    change roles: the first operand of the call is the right input.
    Each leading dimension is the length of a stored row of its tensor,
    and the call's [m] and [n] are the columns and the rows of an
    output matrix. *)
Theorem blas_call_pointers (in_x in_y : Tensor T) adj_x adj_y out (b : list T) :
  launch_ok in_x in_y adj_x adj_y out b →
  let call := LaunchBatchMatMulGPU.blas_call in_x in_y adj_x adj_y in
  let N := dim_size in_x 0 in
  let sx := dim_size in_x 1 * dim_size in_x 2 in
  let sy := dim_size in_y 1 * dim_size in_y 2 in
  let so := shape_dim out 1 * shape_dim out 2 in
  (batch_count call = N ∧ length (gemm_a call) = N ∧
   length (gemm_b call) = N ∧ length (gemm_c call) = N) ∧
  (∀ i, i < N →
     gemm_b call !! i = Some (AsDeviceMemory (InX (i * sx))) ∧
     gemm_a call !! i = Some (AsDeviceMemory (InY (i * sy))) ∧
     gemm_c call !! i = Some (AsDeviceMemory (InOut (i * so))) ∧
     i * sx + sx ≤ length (flat in_x) ∧
     i * sy + sy ≤ length (flat in_y) ∧
     i * so + so ≤ length b) ∧
  (ldb call = dim_size in_x 2 ∧ lda call = dim_size in_y 2 ∧
   ldc call = shape_dim out 2) ∧
  (gemm_m call = shape_dim out 2 ∧ gemm_n call = shape_dim out 1).
Proof.
  intros Hok call N sx sy so.
  pose proof (launch_ok_out_length _ _ _ _ _ _ Hok) as Hlen.
  destruct Hok as [Hrx Hry Hro Hby Hbo Hc Hr Hcl Hfx Hfy Hfo Hint].
  assert (NumElements in_x = N * sx) as Hnx.
  { unfold NumElements. rewrite (shape_3 (shape in_x)) by done.
    rewrite num_elements_3. unfold sx, N, dim_size. lia. }
  assert (NumElements in_y = N * sy) as Hny.
  { unfold NumElements. rewrite (shape_3 (shape in_y)) by done.
    rewrite num_elements_3. unfold sy, N. rewrite <-Hby. unfold dim_size. lia. }
  split_and!; try (simpl; by rewrite ?length_fmap, ?length_seq).
  - intros i Hi. simpl.
    rewrite !list_lookup_fmap, !lookup_seq_lt by done. simpl.
    rewrite Hfx, Hfy, Hnx, Hny, Hlen. fold N so.
    assert (i * sx + sx ≤ N * sx) by nia.
    assert (i * sy + sy ≤ N * sy) by nia.
    assert (i * so + so ≤ N * so) by nia.
    split_and!; try lia.
    + do 3 f_equal. unfold sx. destruct adj_x; lia.
    + do 3 f_equal. unfold sy. destruct adj_x, adj_y; lia.
    + do 3 f_equal. unfold so. rewrite Hr, Hcl. destruct adj_x, adj_y; lia.
  - simpl. destruct adj_x; [|done]. done.
  - simpl. destruct adj_y; [|done]. by rewrite <-Hc; destruct adj_x.
  - simpl. rewrite Hcl. by destruct adj_y.
  - simpl. rewrite Hcl. by destruct adj_y.
  - simpl. rewrite Hr. by destruct adj_x.
Qed.
End pointer_results.

Lemma blas_call_pointers_witness :
  gemm_b (LaunchBatchMatMulGPU.blas_call Examples.x_2x2x3 Examples.y_2x2x3 true false)
    !! 1 = Some (AsDeviceMemory (InX 6)) ∧
  gemm_c (LaunchBatchMatMulGPU.blas_call Examples.x_2x2x3 Examples.y_2x2x3 true false)
    !! 1 = Some (AsDeviceMemory (InOut 9)) ∧
  1 * 9 + 9 ≤ length (Examples.garbage 18).
Proof.
  destruct (proj1 (proj2 (blas_call_pointers Examples.x_2x2x3 Examples.y_2x2x3
                            true false [2; 3; 3] (Examples.garbage 18)
                            launch_ok_2x2x3)) 1)
    as (Hb & _ & Hc & _ & _ & Ho).
  - by_evaluation.
  - split; [exact Hb|]. split; [exact Hc|exact Ho].
Defined.

(** ** A conforming BLAS runtime *)

#[export] Instance cplx_commutative : ScalarCommutative cplx.
Proof. intros [a b] [c d]. simpl. f_equal; lia. Qed.

#[export] Instance int32_commutative : ScalarCommutative int32.
Proof. intros [a] [b]. simpl. by rewrite Z.mul_comm. Qed.

Lemma quotient_unique b x r x' r' :
  r < b → r' < b → x * b + r = x' * b + r' → x = x' ∧ r = r'.
Proof.
  intros Hr Hr' Heq.
  destruct (decide (x = x')) as [->|Hne]; [lia|].
  destruct (decide (x < x')); nia.
Qed.

Lemma index_unique R C i p q i' p' q' :
  p < R → q < C → p' < R → q' < C →
  i * R * C + p * C + q = i' * R * C + p' * C + q' →
  i = i' ∧ p = p' ∧ q = q'.
Proof.
  intros Hp Hq Hp' Hq' Heq.
  pose proof (offset_in_chip R C p q Hp Hq).
  pose proof (offset_in_chip R C p' q' Hp' Hq').
  destruct (quotient_unique (R * C) i (p * C + q) i' (p' * C + q')) as [-> Hpq];
    [lia..|].
  destruct (quotient_unique C p q p' q') as [-> ->]; done.
Qed.

Section scatter.
Context {A : Type}.
Implicit Types (ws : list (nat * A)) (l : list A).

Lemma scatter_length ws l :
  length (foldl (λ acc w, <[w.1 := w.2]> acc) l ws) = length l.
Proof.
  induction ws as [|w ws IH] using rev_ind; [done|].
  by rewrite foldl_snoc, length_insert.
Qed.

Lemma scatter_lookup ws l idx v :
  idx < length l →
  (∃ w, w ∈ ws ∧ w.1 = idx) →
  (∀ w, w ∈ ws → w.1 = idx → w.2 = v) →
  foldl (λ acc w, <[w.1 := w.2]> acc) l ws !! idx = Some v.
Proof.
  intros Hidx. induction ws as [|w ws IH] using rev_ind; intros (w0 & Hin & Hw0) Hall.
  - by apply elem_of_nil in Hin.
  - rewrite foldl_snoc.
    destruct (decide (w.1 = idx)) as [Hw|Hw].
    + rewrite Hw, list_lookup_insert_eq by (by rewrite scatter_length).
      f_equal. apply Hall; [|done]. apply elem_of_app. right. by apply list_elem_of_singleton.
    + rewrite list_lookup_insert_ne by done. apply IH.
      * exists w0. split; [|done]. apply elem_of_app in Hin as [Hin|Hin]; [done|].
        apply list_elem_of_singleton in Hin. by subst.
      * intros w' Hw'. apply Hall, elem_of_app. by left.
Qed.
End scatter.

Section gemm_results.
Context {T : Type} `{!ScalarKind T} `{!ScalarCommutative T}.
Implicit Types (in_x in_y : Tensor T).

Lemma gemm_writes_blas_call in_x in_y adj_x adj_y (x y out : list T) w :
  let call := LaunchBatchMatMulGPU.blas_call in_x in_y adj_x adj_y in
  let m := dim_size in_x (if adj_x then 2 else 1) in
  let k := dim_size in_x (if adj_x then 1 else 2) in
  let n := dim_size in_y (if adj_y then 1 else 2) in
  w ∈ gemm_writes call x y out ↔
  ∃ bt j i, bt < dim_size in_x 0 ∧ j < m ∧ i < n ∧
    w = (bt * m * n + i + j * n,
         gemm_entry call (deref x y out (AsDeviceMemory (InY (bt * k * n))))
           (deref x y out (AsDeviceMemory (InX (bt * m * k)))) i j).
Proof.
  intros call m k n.
  assert (∀ bt, bt < dim_size in_x 0 →
            gemm_a call !! bt = Some (AsDeviceMemory (InY (bt * k * n))) ∧
            gemm_b call !! bt = Some (AsDeviceMemory (InX (bt * m * k))) ∧
            gemm_c call !! bt = Some (AsDeviceMemory (InOut (bt * m * n)))) as Hptr.
  { intros bt Hbt. simpl. by rewrite !list_lookup_fmap, !lookup_seq_lt. }
  assert (batch_count call = dim_size in_x 0 ∧ gemm_n call = m ∧
          gemm_m call = n ∧ ldc call = n) as (HN & Hn & Hm & Hld) by done.
  unfold gemm_writes. rewrite list_elem_of_bind, HN, Hn, Hm, Hld. split.
  - intros (bt & Hw & Hbt). apply elem_of_seq in Hbt.
    destruct (Hptr bt) as (-> & -> & ->) in Hw; [lia|]. simpl in Hw.
    apply list_elem_of_bind in Hw as (j & Hw & Hj).
    apply list_elem_of_fmap in Hw as (i & -> & Hi).
    apply elem_of_seq in Hj. apply elem_of_seq in Hi.
    exists bt, j, i. split_and!; try done; lia.
  - intros (bt & j & i & Hbt & Hj & Hi & ->).
    exists bt. split; [|apply elem_of_seq; lia].
    destruct (Hptr bt Hbt) as (-> & -> & ->). simpl.
    apply list_elem_of_bind. exists j. split; [|apply elem_of_seq; lia].
    apply list_elem_of_fmap. exists i. split; [done|]. apply elem_of_seq. lia.
Qed.

(** The element the call computes for row [p] and column [q] of output
    matrix [i]: the two factors of each term change sides. *)
Lemma gemm_entry_product in_x in_y adj_x adj_y (out : list nat) (b : list T) i p q :
  launch_ok in_x in_y adj_x adj_y out b →
  let m := dim_size in_x (if adj_x then 2 else 1) in
  let k := dim_size in_x (if adj_x then 1 else 2) in
  let n := dim_size in_y (if adj_y then 1 else 2) in
  gemm_entry (LaunchBatchMatMulGPU.blas_call in_x in_y adj_x adj_y)
    (deref (flat in_x) (flat in_y) b (AsDeviceMemory (InY (i * k * n))))
    (deref (flat in_x) (flat in_y) b (AsDeviceMemory (InX (i * m * k)))) q p =
  coeff (direct_product adj_x adj_y (chip_of in_x i) (chip_of in_y i)) p q.
Proof.
  intros Hok m k n. pose proof (ok_contraction _ _ _ _ _ _ Hok) as Hc.
  unfold gemm_entry, direct_product, matmul, adjoint, deref, chip_of, chip, m, k, n,
    LaunchBatchMatMulGPU.blas_call, read.
  destruct adj_x, adj_y, IsComplex; simpl in *;
    apply sum_upto_ext; intros l Hl; rewrite mul_comm, ?Hc;
    repeat match goal with
           | |- scalar_mul _ _ = scalar_mul _ _ => f_equal
           | |- scalar_conj _ = scalar_conj _ => f_equal
           | |- default _ _ = default _ _ => f_equal
           | |- _ !! _ = _ !! _ => f_equal
           end; lia.
Qed.

(** What a conforming runtime leaves in the output of a valid launch. *)
Lemma gemm_reference_lookup in_x in_y adj_x adj_y (out : list nat) (b : list T) i p q :
  launch_ok in_x in_y adj_x adj_y out b →
  i < dim_size in_x 0 → p < shape_dim out 1 → q < shape_dim out 2 →
  gemm_reference (LaunchBatchMatMulGPU.blas_call in_x in_y adj_x adj_y)
    (flat in_x) (flat in_y) b
    !! (i * shape_dim out 1 * shape_dim out 2 + p * shape_dim out 2 + q)
  = Some (coeff (direct_product adj_x adj_y (chip_of in_x i) (chip_of in_y i)) p q).
Proof.
  intros Hok Hi Hp Hq.
  assert (shape_dim out 1 = dim_size in_x (if adj_x then 2 else 1)) as Hr
    by (rewrite (ok_rows _ _ _ _ _ _ Hok); by destruct adj_x).
  assert (shape_dim out 2 = dim_size in_y (if adj_y then 1 else 2)) as Hc
    by (rewrite (ok_cols _ _ _ _ _ _ Hok); by destruct adj_y).
  unfold gemm_reference. apply scatter_lookup.
  - rewrite (launch_ok_out_length _ _ _ _ _ _ Hok).
    pose proof (offset_in_chip _ _ p q Hp Hq).
    pose proof (chips_ordered (shape_dim out 1) (shape_dim out 2) (dim_size in_x 0) i Hi).
    lia.
  - eexists. split.
    + apply gemm_writes_blas_call. exists i, p, q. rewrite <-Hr, <-Hc. done.
    + simpl. lia.
  - intros w Hw Hidx. apply gemm_writes_blas_call in Hw
      as (bt & j & i' & Hbt & Hj & Hi' & ->).
    simpl in Hidx.
    destruct (index_unique (shape_dim out 1) (shape_dim out 2) bt j i' i p q)
      as (-> & -> & ->); [lia..|].
    simpl. by apply (gemm_entry_product _ _ _ _ out).
Qed.

Lemma gemm_reference_length (call : GemmCall) (x y b : list T) :
  length (gemm_reference call x y b) = length b.
Proof. apply scatter_length. Qed.
End gemm_results.

Section gpu_results_conforming.
Context {T : Type} `{!ScalarKind T} `{!ScalarCommutative T}.
Implicit Types (ctx : OpKernelContext T) (in_x in_y : Tensor T).

(** The state a GPU launch leaves when the runtime accepts it. *)
Lemma Launch_gpu_accepted ctx s in_x in_y adj_x adj_y (out : list nat)
    (st : KernelState T) :
  stream ctx = Some s →
  let call := LaunchBatchMatMulGPU.blas_call in_x in_y adj_x adj_y in
  launch_accepted s call
    (LaunchBatchMatMulGPU.serve_requests ctx (scratch_requests s call)
       (MkAllocator []) (trace (store st) ++ [EvGemm call])).1.1 = true →
  status (LaunchBatchMatMulGPU.Launch ctx in_x in_y adj_x adj_y out st) = status st ∧
  buf (store (LaunchBatchMatMulGPU.Launch ctx in_x in_y adj_x adj_y out st)) =
  device_result s call (flat in_x) (flat in_y) (buf (store st)).
Proof.
  intros Hs call Hacc. unfold LaunchBatchMatMulGPU.Launch. rewrite Hs.
  unfold LaunchBatchMatMulGPU.ThenBlasGemmBatchedWithScratch. simpl.
  fold call. by rewrite Hacc.
Qed.

(** X12.  The arguments of the batched GEMM are the right ones.  When
    the stream's runtime computes the column-major batched GEMM and
    accepts the launch, a valid GPU launch leaves the status as it was
    and, in row-major order at row [p] and column [q] of matrix [i] of
    the output, the element of the product of the two matrices [i],
    each replaced by its adjoint when its flag is set: exchanging the
    operands and the dimensions [m] and [n] stands for the
    transposition of the result. *)
Theorem gpu_launch_computes_product ctx s in_x in_y adj_x adj_y (out : list nat)
    (st : KernelState T) :
  let call := LaunchBatchMatMulGPU.blas_call in_x in_y adj_x adj_y in
  let st' := LaunchBatchMatMulGPU.Launch ctx in_x in_y adj_x adj_y out st in
  launch_ok in_x in_y adj_x adj_y out (buf (store st)) →
  stream ctx = Some s →
  (∀ x y o, device_result s call x y o = gemm_reference call x y o) →
  launch_accepted s call
    (LaunchBatchMatMulGPU.serve_requests ctx (scratch_requests s call)
       (MkAllocator []) (trace (store st) ++ [EvGemm call])).1.1 = true →
  status st' = status st ∧
  length (buf (store st')) = length (buf (store st)) ∧
  ∀ i p q, i < dim_size in_x 0 → p < shape_dim out 1 → q < shape_dim out 2 →
    buf (store st') !! (i * shape_dim out 1 * shape_dim out 2 + p * shape_dim out 2 + q)
    = Some (coeff (direct_product adj_x adj_y (chip_of in_x i) (chip_of in_y i)) p q).
Proof.
  intros call st' Hok Hs Hdev Hacc.
  destruct (Launch_gpu_accepted ctx s in_x in_y adj_x adj_y out st Hs Hacc)
    as [Hst Hbuf].
  unfold st'. rewrite Hst, Hbuf, Hdev. split; [done|].
  split; [apply gemm_reference_length|].
  intros i p q Hi Hp Hq. by apply gemm_reference_lookup.
Qed.

(** X13.  Within the range of [int] the two backends agree.  On a
    launch of valid shapes whose batch size is at most [INT_MAX], over
    a stream whose runtime computes the column-major batched GEMM and
    accepts the launch, the GPU launch and the CPU launch leave the
    same output buffer. *)
Theorem gpu_and_cpu_launch_agree `{!ScalarLaws T} ctx s in_x in_y adj_x adj_y
    (out : list nat) (st : KernelState T) :
  let call := LaunchBatchMatMulGPU.blas_call in_x in_y adj_x adj_y in
  launch_shapes in_x in_y adj_x adj_y out (buf (store st)) →
  (Z.of_nat (dim_size in_x 0) ≤ INT_MAX)%Z →
  (dim_size in_x 0 ≠ 1 → sharder_ok (cpu ctx) (dim_size in_x 0)) →
  stream ctx = Some s →
  (∀ x y o, device_result s call x y o = gemm_reference call x y o) →
  launch_accepted s call
    (LaunchBatchMatMulGPU.serve_requests ctx (scratch_requests s call)
       (MkAllocator []) (trace (store st) ++ [EvGemm call])).1.1 = true →
  buf (store (LaunchBatchMatMulGPU.Launch ctx in_x in_y adj_x adj_y out st)) =
  buf (LaunchBatchMatMulCPU.Launch (cpu ctx) in_x in_y adj_x adj_y out (store st)).
Proof.
  intros call Hls Hmax Hsh Hs Hdev Hacc.
  pose proof (launch_shapes_ok _ _ _ _ _ _ Hls Hmax) as Hok.
  destruct (Launch_gpu_accepted ctx s in_x in_y adj_x adj_y out st Hs Hacc)
    as [_ ->].
  rewrite Hdev. unfold call. apply list_eq. intros idx.
  destruct (decide (idx < length (buf (store st)))) as [Hidx|Hidx].
  - destruct (launch_ok_index _ _ _ _ _ _ idx Hok Hidx)
      as (i & p & q & Hi & Hp & Hq & ->).
    rewrite gemm_reference_lookup by done.
    rewrite (Launch_lookup (cpu ctx) in_x in_y adj_x adj_y out (store st) i p q)
      by done.
    by rewrite kernel_expr_direct.
  - rewrite !lookup_ge_None_2; [done| |].
    + rewrite Launch_length by (done || apply Hok). lia.
    + rewrite gemm_reference_length. lia.
Qed.
End gpu_results_conforming.

Lemma gpu_launch_computes_product_witness :
  buf (store (LaunchBatchMatMulGPU.Launch
                (Examples.context Examples.x_2x2x3 Examples.y_2x2x3 (Some Examples.blas))
                Examples.x_2x2x3 Examples.y_2x2x3 true false [2; 3; 3]
                (MkState OK (Some [2; 3; 3]) (MkStore (Examples.garbage 18) []))))
    !! 13 = Some (Cplx 5 (-48)).
Proof.
  assert (1 < 2) as H2 by lia. assert (1 < 3) as H3 by lia.
  exact (proj2 (proj2 (gpu_launch_computes_product
           (Examples.context Examples.x_2x2x3 Examples.y_2x2x3 (Some Examples.blas))
           Examples.blas Examples.x_2x2x3 Examples.y_2x2x3 true false [2; 3; 3]
           (MkState OK (Some [2; 3; 3]) (MkStore (Examples.garbage 18) []))
           launch_ok_2x2x3 eq_refl (λ _ _ _, eq_refl) eq_refl)) 1 1 1 H2 H3 H3).
Defined.

Lemma gpu_and_cpu_launch_agree_witness :
  buf (store (LaunchBatchMatMulGPU.Launch
                (Examples.context Examples.x_2x2x3 Examples.y_2x2x3 (Some Examples.blas))
                Examples.x_2x2x3 Examples.y_2x2x3 true false [2; 3; 3]
                (MkState OK (Some [2; 3; 3]) (MkStore (Examples.garbage 18) [])))) =
  buf (LaunchBatchMatMulCPU.Launch Examples.pool
         Examples.x_2x2x3 Examples.y_2x2x3 true false [2; 3; 3]
         (MkStore (Examples.garbage 18) [])).
Proof.
  exact (gpu_and_cpu_launch_agree
           (Examples.context Examples.x_2x2x3 Examples.y_2x2x3 (Some Examples.blas))
           Examples.blas Examples.x_2x2x3 Examples.y_2x2x3 true false [2; 3; 3]
           (MkState OK (Some [2; 3; 3]) (MkStore (Examples.garbage 18) []))
           (launch_ok_shapes _ _ _ _ _ _ launch_ok_2x2x3)
           (ok_int _ _ _ _ _ _ launch_ok_2x2x3)
           (λ _, pool_sharder_ok_2) eq_refl (λ _ _ _, eq_refl) eq_refl).
Defined.

(** ** Matrices *)

Section matrix_results.
Context {T : Type} `{!ScalarKind T} `{!ScalarLaws T}.
Implicit Types (ctx : OpKernelContext T).

(** X14.  On two matrices, inputs of rank 2, a valid call of [Compute]
    on the CPU is one matrix product, whatever the pool and the sharder:
    the batch is a single unit, so the launch takes its first branch,
    contracts once on the thread-pool device and, for a complex kind
    with [adj_x] set, conjugates the result.  The output has the shape
    of the product and holds the product of the two matrices, each
    replaced by its adjoint when its flag is set. *)
Theorem Compute_on_matrices ctx adj_x adj_y storage :
  dims (input0 ctx) = 2 →
  call_ok ctx adj_x adj_y storage →
  NumElements (input0 ctx) ≠ 0 → NumElements (input1 ctx) ≠ 0 →
  let R := eff_rows adj_x (input0 ctx) in
  let C := eff_cols adj_y (input1 ctx) in
  ∃ s,
    BatchMatMul.Compute CPUDevice ctx adj_x adj_y = Returned s ∧
    status s = OK ∧ output s = Some [R; C] ∧
    trace (store s) =
      [EvAllocateOutput [R; C]; EvContract ThreadPoolDevice 0] ++
      (if adj_x && IsComplex then [EvConjugate] else []) ∧
    ∀ p q, p < R → q < C →
      buf (store s) !! (p * C + q) =
      Some (coeff (direct_product adj_x adj_y (as_matrix (input0 ctx))
                     (as_matrix (input1 ctx))) p q).
Proof.
  intros H2 Hcall H0 H1 R C.
  pose proof Hcall as [Hs Hf0 Hf1 Ha Hst]. pose proof Hs as [Hr Hr2 Hb Hc].
  assert (batch_shape (input0 ctx) = []) as Hbatch
    by (unfold batch_shape; by rewrite H2).
  assert (product_shape (input0 ctx) (input1 ctx) adj_x adj_y = [R; C]) as Hps
    by (unfold product_shape; by rewrite Hbatch).
  assert (num_elements (batch_shape (input0 ctx)) = 1) as HN by (by rewrite Hbatch).
  assert (storage ≠ []) as Hne.
  { intros ->. rewrite Hps in Hst. unfold num_elements in Hst. simpl in Hst.
    rewrite (NumElements_split (input0 ctx)) in H0 by lia.
    rewrite (NumElements_split (input1 ctx)) in H1 by lia.
    rewrite (batch_shape_eq _ _ _ _ Hs) in H1. rewrite !num_elements_3, HN in H0, H1.
    unfold R, C, eff_rows, eff_cols in *. destruct adj_x, adj_y; nia. }
  assert (Z.of_nat (num_elements (batch_shape (input0 ctx))) ≤ INT_MAX)%Z as Hmax
    by (rewrite HN; by_evaluation).
  pose proof (call_ok_launch_ok _ _ _ _ Hcall Hmax) as Hl.
  eexists. split; [by eapply Compute_launches|]. simpl.
  rewrite Hps. split; [done|]. split; [done|]. split.
  - rewrite Launch_sequential; [|done|].
    + rewrite maybe_conjugate_trace, run_units_trace. simpl.
      change (dim_size (reshaped (input0 ctx)) 0)
        with (num_elements (batch_shape (input0 ctx))).
      by rewrite HN.
    + unfold LaunchBatchMatMulCPU.sequential_branch.
      change (dim_size (reshaped (input0 ctx)) 0)
        with (num_elements (batch_shape (input0 ctx))).
      by rewrite HN.
  - intros p q Hp Hq.
    pose proof (Launch_lookup (cpu ctx) _ _ _ _ _
                  (MkStore storage [EvAllocateOutput [R; C]]) 0 p q Hl) as Hlook.
    assert (chip_of (reshaped (input0 ctx)) 0 = as_matrix (input0 ctx)) as Hx.
    { unfold chip_of, as_matrix, reshaped, rows_of, cols_of, dim_size. simpl.
      by rewrite H2. }
    assert (chip_of (reshaped (input1 ctx)) 0 = as_matrix (input1 ctx)) as Hy.
    { unfold chip_of, as_matrix, reshaped, rows_of, cols_of, dim_size. simpl.
      by rewrite <-Hr, H2. }
    rewrite kernel_expr_direct, Hx, Hy in Hlook.
    apply Hlook; [|change (0 < num_elements (batch_shape (input0 ctx))); lia|done|done].
    intros []. done.
Qed.
End matrix_results.

Lemma Compute_on_matrices_witness :
  ∃ s,
    BatchMatMul.Compute CPUDevice
      (Examples.context Examples.m_2x3 Examples.m_2x5 None) true false = Returned s ∧
    output s = Some [3; 5] ∧
    trace (store s) =
      [EvAllocateOutput [3; 5]; EvContract ThreadPoolDevice 0; EvConjugate] ∧
    buf (store s) !! 7 =
    Some (coeff (direct_product true false (as_matrix Examples.m_2x3)
                   (as_matrix Examples.m_2x5)) 1 2).
Proof.
  assert (NumElements Examples.m_2x3 ≠ 0) as H0 by (vm_compute; discriminate).
  assert (NumElements Examples.m_2x5 ≠ 0) as H1 by (vm_compute; discriminate).
  assert (1 < 3) as Hp by lia. assert (2 < 5) as Hq by lia.
  destruct (Compute_on_matrices (Examples.context Examples.m_2x3 Examples.m_2x5 None)
              true false (Examples.garbage 15) eq_refl call_ok_2x3_2x5 H0 H1)
    as (s & Hc & _ & Hout & Htr & Hbuf).
  exists s. split; [exact Hc|]. split; [exact Hout|]. split; [exact Htr|].
  exact (Hbuf 1 2 Hp Hq).
Defined.

(** ** Batches beyond the range of int *)

Lemma to_int_two_31 : to_int (2 ^ 31) = (- 2 ^ 31)%Z.
Proof. reflexivity. Qed.

(** The units a shard runs once its bounds are converted to [int], for a
    batch of [2^31] units: none when the shard ends at [2^31], its
    own units otherwise, and never the last unit of the batch. *)
Lemma narrowed_shard_units (s l u : Z) :
  (0 ≤ s)%Z → (s ≤ l)%Z → (l ≤ 2 ^ 31)%Z →
  u ∈ seqZ (to_int s) (to_int l - to_int s) →
  (s ≤ u < l)%Z ∧ (u < 2 ^ 31 - 1)%Z.
Proof.
  intros H0 Hsl Hl Hu. apply elem_of_seqZ in Hu.
  destruct (decide (l = 2 ^ 31)%Z) as [->|Hne].
  - rewrite to_int_two_31 in Hu.
    destruct (decide (s = 2 ^ 31)%Z) as [->|Hs].
    + rewrite to_int_two_31 in Hu. lia.
    + rewrite to_int_small in Hu by (unfold INT_MAX; lia). lia.
  - rewrite !to_int_small in Hu by (unfold INT_MAX; lia). lia.
Qed.

Section beyond_int.
Context {T : Type} `{!ScalarKind T}.
Implicit Types (ctx : CpuContext) (st : Store T) (in_x in_y : Tensor T).

(** The second branch of [Launch]. *)
Lemma Launch_second_branch ctx in_x in_y adj_x adj_y (out : list nat) st :
  LaunchBatchMatMulCPU.sequential_branch in_x out = false →
  let N := dim_size in_x 0 in
  let pi := bool_decide (Z.of_nat N < num_threads ctx)%Z &&
            bool_decide (1 < shape_dim out 2) in
  LaunchBatchMatMulCPU.Launch ctx in_x in_y adj_x adj_y out st =
  maybe_conjugate adj_x
    (LaunchBatchMatMulCPU.Shard ctx
       (if pi then Z.max 1 (num_threads ctx - 1) else num_threads ctx) N
       (LaunchBatchMatMulCPU.cost_per_unit in_x out)
       (λ start limit,
          LaunchBatchMatMulCPU.Kernel_Run pi in_x in_y adj_x adj_y out
            (to_int start) (to_int limit)) st).
Proof.
  intros Hb N pi. unfold LaunchBatchMatMulCPU.Launch.
  unfold LaunchBatchMatMulCPU.sequential_branch in Hb. by rewrite Hb.
Qed.

(** The first branch of [Launch]. *)
Lemma Launch_first_branch ctx in_x in_y adj_x adj_y (out : list nat) st :
  LaunchBatchMatMulCPU.sequential_branch in_x out = true →
  LaunchBatchMatMulCPU.Launch ctx in_x in_y adj_x adj_y out st =
  maybe_conjugate adj_x
    (LaunchBatchMatMulCPU.Kernel_Run true in_x in_y adj_x adj_y out
       0 (to_int (Z.of_nat (dim_size in_x 0))) st).
Proof.
  intros Hb. unfold LaunchBatchMatMulCPU.Launch.
  unfold LaunchBatchMatMulCPU.sequential_branch in Hb. by rewrite Hb.
Qed.

(** One shard of a batch of [2^31] units leaves the last matrix of the
    output as it was. *)
Lemma narrowed_shard_frame pi in_x in_y adj_x adj_y (out : list nat) st s l p q :
  launch_shapes in_x in_y adj_x adj_y out (buf st) →
  Z.of_nat (dim_size in_x 0) = (2 ^ 31)%Z →
  (0 ≤ s)%Z → (s ≤ l)%Z → (l ≤ 2 ^ 31)%Z →
  p < shape_dim out 1 → q < shape_dim out 2 →
  let idx := (dim_size in_x 0 - 1) * shape_dim out 1 * shape_dim out 2 +
             p * shape_dim out 2 + q in
  buf (LaunchBatchMatMulCPU.Kernel_Run pi in_x in_y adj_x adj_y out
         (to_int s) (to_int l) st) !! idx = buf st !! idx.
Proof.
  intros Hok HN H0 Hsl Hl Hp Hq idx. unfold idx.
  rewrite Kernel_Run_units, run_units_lookup; try done.
  - rewrite decide_False; [done|]. intros Hin.
    apply narrowed_shard_units in Hin; lia.
  - intros u Hu. apply narrowed_shard_units in Hu; [|done..].
    split; [lia|]. by eapply kernel_expr_dims_shapes.
  - rewrite (launch_shapes_out_length _ _ _ _ _ _ Hok).
    pose proof (offset_in_chip _ _ p q Hp Hq).
    assert (dim_size in_x 0 = S (dim_size in_x 0 - 1)) as -> by lia.
    simpl. rewrite Nat.sub_0_r. lia.
Qed.

(** And so does any plan of such shards. *)
Lemma narrowed_plan_frame pi in_x in_y adj_x adj_y (out : list nat)
    (plan : list (Z * Z)) st p q :
  launch_shapes in_x in_y adj_x adj_y out (buf st) →
  Z.of_nat (dim_size in_x 0) = (2 ^ 31)%Z →
  Forall (λ r, (0 ≤ r.1 ∧ r.1 ≤ r.2 ∧ r.2 ≤ Z.of_nat (dim_size in_x 0))%Z) plan →
  p < shape_dim out 1 → q < shape_dim out 2 →
  let idx := (dim_size in_x 0 - 1) * shape_dim out 1 * shape_dim out 2 +
             p * shape_dim out 2 + q in
  buf (foldl (λ st r, LaunchBatchMatMulCPU.Kernel_Run pi in_x in_y adj_x adj_y out
                        (to_int r.1) (to_int r.2) st) st plan) !! idx
  = buf st !! idx.
Proof.
  intros Hok HN Hplan Hp Hq idx. revert st Hok.
  induction Hplan as [|r plan (H0 & Hle & Hl) _ IH]; intros st Hok; [done|].
  simpl. rewrite IH.
  - apply narrowed_shard_frame; try done. lia.
  - eapply launch_shapes_length; [done|].
    by rewrite Kernel_Run_units, run_units_length.
Qed.

(** C1.  The conversion of the bounds of a run from [int64] to [int]
    loses units.  On a batch of [2^31] matrices, whatever the flags,
    the branch the launch takes, the size of the pool and the sharding
    the sharder chooses, no run reaches the last unit: the last matrix
    of the output is never written, and holds after the launch what the
    buffer held before (conjugated by the final pass when [adj_x] is
    set), not the product. *)
Theorem Launch_beyond_int_skips_last_unit ctx in_x in_y adj_x adj_y (out : list nat) st :
  launch_shapes in_x in_y adj_x adj_y out (buf st) →
  Z.of_nat (dim_size in_x 0) = (2 ^ 31)%Z →
  sharder_ok ctx (dim_size in_x 0) →
  ∀ p q, p < shape_dim out 1 → q < shape_dim out 2 →
    buf (LaunchBatchMatMulCPU.Launch ctx in_x in_y adj_x adj_y out st)
      !! ((dim_size in_x 0 - 1) * shape_dim out 1 * shape_dim out 2 +
          p * shape_dim out 2 + q) =
    final_conj adj_x <$>
      buf st !! ((dim_size in_x 0 - 1) * shape_dim out 1 * shape_dim out 2 +
                 p * shape_dim out 2 + q).
Proof.
  intros Hok HN Hsh p q Hp Hq.
  destruct (LaunchBatchMatMulCPU.sequential_branch in_x out) eqn:Hb.
  - rewrite Launch_first_branch by done.
    rewrite maybe_conjugate_buf, list_lookup_fmap. f_equal.
    by rewrite Kernel_Run_units, HN, to_int_two_31.
  - rewrite Launch_second_branch by done.
    rewrite maybe_conjugate_buf, list_lookup_fmap. f_equal.
    unfold LaunchBatchMatMulCPU.Shard.
    rewrite narrowed_plan_frame; try done. apply Hsh.
Qed.

(** C10.  Beyond the range of [int] the output depends on the sharding.
    On a batch of [2^31] matrices whose launch takes the second branch,
    take two sharders that both partition the batch: one hands out the
    whole range as a single shard, the other the first unit and then
    the rest.  With the first the launch writes nothing at all; with
    the second it writes the first matrix of the output, which is then
    the product of the first matrices of the inputs. *)
Theorem Launch_beyond_int_depends_on_sharding `{!ScalarLaws T} ctx ctx'
    in_x in_y adj_x adj_y (out : list nat) st :
  launch_shapes in_x in_y adj_x adj_y out (buf st) →
  Z.of_nat (dim_size in_x 0) = (2 ^ 31)%Z →
  LaunchBatchMatMulCPU.sequential_branch in_x out = false →
  (∀ mp c, shard_plan ctx mp (dim_size in_x 0) c =
           [(0, Z.of_nat (dim_size in_x 0))]%Z) →
  (∀ mp c, shard_plan ctx' mp (dim_size in_x 0) c =
           [(0, 1); (1, Z.of_nat (dim_size in_x 0))]%Z) →
  sharder_ok ctx (dim_size in_x 0) ∧ sharder_ok ctx' (dim_size in_x 0) ∧
  buf (LaunchBatchMatMulCPU.Launch ctx in_x in_y adj_x adj_y out st) =
    final_conj adj_x <$> buf st ∧
  ∀ p q, p < shape_dim out 1 → q < shape_dim out 2 →
    buf (LaunchBatchMatMulCPU.Launch ctx' in_x in_y adj_x adj_y out st)
      !! (p * shape_dim out 2 + q) =
    Some (coeff (direct_product adj_x adj_y (chip_of in_x 0) (chip_of in_y 0)) p q).
Proof.
  intros Hok HN Hb Hplan Hplan'. split_and!.
  - intros mp c. rewrite Hplan. split.
    + repeat constructor; simpl; lia.
    + simpl. unfold shard_units. simpl. by rewrite app_nil_r, Z.sub_0_r.
  - intros mp c. rewrite Hplan'. split.
    + repeat constructor; simpl; lia.
    + simpl. rewrite app_nil_r. unfold shard_units. simpl.
      assert (seqZ 0 (Z.of_nat (dim_size in_x 0)) =
              seqZ 0 1 ++ seqZ 1 (Z.of_nat (dim_size in_x 0) - 1)) as ->; [|done].
      replace (Z.of_nat (dim_size in_x 0))
        with (1 + (Z.of_nat (dim_size in_x 0) - 1))%Z at 1 by lia.
      by rewrite seqZ_app by lia.
  - rewrite Launch_second_branch by done. rewrite maybe_conjugate_buf. f_equal.
    unfold LaunchBatchMatMulCPU.Shard. rewrite Hplan. simpl.
    rewrite Kernel_Run_units, HN, to_int_two_31.
    rewrite to_int_small by (unfold INT_MAX; lia). done.
  - intros p q Hp Hq.
    rewrite Launch_second_branch by done.
    rewrite maybe_conjugate_buf, list_lookup_fmap.
    unfold LaunchBatchMatMulCPU.Shard. rewrite Hplan'. cbn [foldl fst snd].
    rewrite !Kernel_Run_units, HN, to_int_two_31.
    rewrite !to_int_small by (unfold INT_MAX; lia).
    change (seqZ 1 (- 2 ^ 31 - 1)) with (@nil Z).
    change (seqZ 0 (1 - 0)) with [0%Z].
    unfold run_units at 1. cbn [foldl].
    change (p * shape_dim out 2 + q)
      with (0 * shape_dim out 1 * shape_dim out 2 + p * shape_dim out 2 + q).
    rewrite run_units_lookup; try done.
    + rewrite decide_True by (by apply list_elem_of_singleton). simpl.
      by rewrite kernel_expr_direct.
    + intros u Hu. apply list_elem_of_singleton in Hu as ->.
      split; [done|]. by eapply kernel_expr_dims_shapes.
    + cbn [buf]. rewrite (launch_shapes_out_length _ _ _ _ _ _ Hok).
      pose proof (offset_in_chip _ _ p q Hp Hq).
      assert (dim_size in_x 0 = S (dim_size in_x 0 - 1)) as -> by lia.
      simpl. lia.
Qed.
End beyond_int.

(** ** The batch of [2^31] unit matrices *)

Lemma one_shard_ok (total : nat) : sharder_ok Examples.one_shard total.
Proof.
  intros mp c. split.
  - repeat constructor; simpl; lia.
  - simpl. unfold shard_units. simpl. by rewrite app_nil_r, Z.sub_0_r.
Qed.

Section unit_batches.
Variable N : nat.
Hypothesis HN : Z.of_nat N = (2 ^ 31)%Z.

Lemma unit_batch_shapes v w g :
  launch_shapes (Examples.unit_batch N v) (Examples.unit_batch N w) false false
    [N; 1; 1] (buf (MkStore (replicate N g) [])).
Proof.
  split; try done; simpl; rewrite length_replicate;
    unfold NumElements, num_elements; simpl; lia.
Qed.

Lemma unit_batch_size v :
  Z.of_nat (dim_size (Examples.unit_batch N v) 0) = (2 ^ 31)%Z.
Proof. exact HN. Qed.

Lemma unit_batch_second_branch v :
  LaunchBatchMatMulCPU.sequential_branch (Examples.unit_batch N v) [N; 1; 1] = false.
Proof.
  unfold LaunchBatchMatMulCPU.sequential_branch.
  rewrite bool_decide_eq_false_2; [reflexivity|].
  unfold dim_size, shape_dim. simpl. lia.
Qed.

Lemma unit_batch_row : 0 < shape_dim [N; 1; 1] 1.
Proof. unfold shape_dim. simpl. lia. Qed.

Lemma unit_batch_column : 0 < shape_dim [N; 1; 1] 2.
Proof. unfold shape_dim. simpl. lia. Qed.

Lemma unit_batch_last_index v :
  (dim_size (Examples.unit_batch N v) 0 - 1) * shape_dim [N; 1; 1] 1 *
    shape_dim [N; 1; 1] 2 + 0 * shape_dim [N; 1; 1] 2 + 0 = N - 1.
Proof. unfold dim_size, shape_dim. simpl. lia. Qed.

Lemma unit_batch_first_index : 0 * shape_dim [N; 1; 1] 2 + 0 = 0.
Proof. done. Qed.

Lemma unit_batch_kept (g : int32) i :
  i < N → final_conj false <$> buf (MkStore (replicate N g) []) !! i = Some g.
Proof. intros Hi. simpl. by rewrite lookup_replicate_2. Qed.

Lemma unit_batch_kept_last (g : int32) :
  final_conj false <$> buf (MkStore (replicate N g) []) !! (N - 1) = Some g.
Proof. apply unit_batch_kept. lia. Qed.

Lemma unit_batch_kept_first (g : int32) :
  (final_conj false <$> buf (MkStore (replicate N g) [])) !! 0 = Some g.
Proof. rewrite list_lookup_fmap. apply unit_batch_kept. lia. Qed.

Lemma unit_batch_product i :
  i < N →
  coeff (direct_product false false (chip_of (Examples.unit_batch N (Int32 1)) i)
           (chip_of (Examples.unit_batch N (Int32 1)) i)) 0 0 = Int32 1.
Proof.
  intros Hi. unfold direct_product, matmul, chip_of, chip, dim_size, shape_dim. simpl.
  unfold sum_upto, read. simpl.
  replace (i * 1 * 1 + 0 + 0) with i by lia.
  by rewrite lookup_replicate_2.
Qed.

Lemma unit_batch_product_last :
  coeff (direct_product false false
           (chip_of (Examples.unit_batch N (Int32 1)) (N - 1))
           (chip_of (Examples.unit_batch N (Int32 1)) (N - 1))) 0 0 = Int32 1.
Proof. apply unit_batch_product. lia. Qed.

Lemma unit_batch_product_first :
  coeff (direct_product false false (chip_of (Examples.unit_batch N (Int32 1)) 0)
           (chip_of (Examples.unit_batch N (Int32 1)) 0)) 0 0 = Int32 1.
Proof. apply unit_batch_product. lia. Qed.
End unit_batches.

Lemma two_31_size : Z.of_nat Examples.two_31 = (2 ^ 31)%Z.
Proof. unfold Examples.two_31. apply Z2Nat.id. lia. Qed.

Lemma Launch_beyond_int_skips_last_unit_witness :
  buf (LaunchBatchMatMulCPU.Launch Examples.one_shard
         (Examples.unit_batch Examples.two_31 (Int32 1))
         (Examples.unit_batch Examples.two_31 (Int32 1))
         false false [Examples.two_31; 1; 1]
         (MkStore (replicate Examples.two_31 (Int32 7)) []))
    !! (Examples.two_31 - 1) = Some (Int32 7) ∧
  coeff (direct_product false false
           (chip_of (Examples.unit_batch Examples.two_31 (Int32 1)) (Examples.two_31 - 1))
           (chip_of (Examples.unit_batch Examples.two_31 (Int32 1)) (Examples.two_31 - 1)))
    0 0 = Int32 1.
Proof.
  split; [|exact (unit_batch_product_last Examples.two_31 two_31_size)].
  pose proof (Launch_beyond_int_skips_last_unit Examples.one_shard
                (Examples.unit_batch Examples.two_31 (Int32 1))
                (Examples.unit_batch Examples.two_31 (Int32 1))
                false false [Examples.two_31; 1; 1]
                (MkStore (replicate Examples.two_31 (Int32 7)) [])
                (unit_batch_shapes Examples.two_31 (Int32 1) (Int32 1) (Int32 7))
                (unit_batch_size Examples.two_31 two_31_size (Int32 1))
                (one_shard_ok (dim_size (Examples.unit_batch Examples.two_31 (Int32 1)) 0))
                0 0 (unit_batch_row Examples.two_31) (unit_batch_column Examples.two_31))
    as H.
  rewrite (unit_batch_last_index Examples.two_31 (Int32 1)) in H.
  rewrite H. exact (unit_batch_kept_last Examples.two_31 two_31_size (Int32 7)).
Defined.

Lemma Launch_beyond_int_depends_on_sharding_witness :
  buf (LaunchBatchMatMulCPU.Launch Examples.one_shard
         (Examples.unit_batch Examples.two_31 (Int32 1))
         (Examples.unit_batch Examples.two_31 (Int32 1))
         false false [Examples.two_31; 1; 1]
         (MkStore (replicate Examples.two_31 (Int32 7)) [])) !! 0 = Some (Int32 7) ∧
  buf (LaunchBatchMatMulCPU.Launch Examples.first_then_rest
         (Examples.unit_batch Examples.two_31 (Int32 1))
         (Examples.unit_batch Examples.two_31 (Int32 1))
         false false [Examples.two_31; 1; 1]
         (MkStore (replicate Examples.two_31 (Int32 7)) [])) !! 0 = Some (Int32 1).
Proof.
  destruct (Launch_beyond_int_depends_on_sharding
              Examples.one_shard Examples.first_then_rest
              (Examples.unit_batch Examples.two_31 (Int32 1))
              (Examples.unit_batch Examples.two_31 (Int32 1))
              false false [Examples.two_31; 1; 1]
              (MkStore (replicate Examples.two_31 (Int32 7)) [])
              (unit_batch_shapes Examples.two_31 (Int32 1) (Int32 1) (Int32 7))
              (unit_batch_size Examples.two_31 two_31_size (Int32 1))
              (unit_batch_second_branch Examples.two_31 two_31_size (Int32 1))
              (λ _ _, eq_refl) (λ _ _, eq_refl))
    as (_ & _ & Hone & Hrest).
  split.
  - rewrite Hone. exact (unit_batch_kept_first Examples.two_31 two_31_size (Int32 7)).
  - pose proof (Hrest 0 0 (unit_batch_row Examples.two_31)
                  (unit_batch_column Examples.two_31)) as H.
    rewrite (unit_batch_first_index Examples.two_31) in H.
    rewrite H.
    exact (f_equal Some (unit_batch_product_first Examples.two_31 two_31_size)).
Defined.
